(** * barmaid: scanning and layout recovery of BTW files

    A shallow embedding of [barmaid.c]: the chunked magic-sequence search
    ([barmaid_find_seq]), the padding skipper ([barmaid_skip_padding]), the
    signature check ([barmaid_is_btw]), the layout parser
    ([barmaid_parse_btw]), the heuristic scanner ([barmaid_heuristic_png]),
    the range extractor ([barmaid_dump_file]) and the command line tool
    ([main]).

    Modelling conventions.
    - [uint8_t] is [Byte.byte]; [long] (64 bits, LP64) and [size_t] offsets
      are [Z]; the [int] product [chunk_count * BUFF_SIZ] and the [uint32_t]
      shifts wrap as the hardware does, written out with [wrap_int] and
      [wrap_uint32].
    - A [FILE*] is a regular file: its bytes and a cursor.  [fseek] to a
      non-negative offset always succeeds (also past the end), [fread]
      delivers what is left before the end of the file.  The descriptor of
      a stream, which never changes, is given with the stream as [fd] where
      the code asks for it with [fileno].
    - The local buffers are not initialised by the C code.  Each function
      takes [junk : Z -> byte], the bytes its buffer holds on entry
      ([junk i] is the byte at index [i]); for [barmaid_find_seq], whose
      [memcmp] runs past the end of [search_buff], [junk i] with
      [i >= 8224] is the byte the stack holds behind the array.
    - [while] loops run on fuel bounded by the file length; the result is
      [None] only if the fuel runs out, which the totality lemmas exclude.
    - [main] takes its command line, the file system and the inflater of
      barflate.h as arguments; the conventions are given with its
      definition. *)

From Stdlib Require Import ZArith List Lia Bool.
From Stdlib Require Import Init.Byte Strings.Byte.
From Stdlib Require Strings.String Strings.Ascii.
Import Ascii.AsciiSyntax String.StringSyntax.
Import ListNotations.
Local Open Scope Z_scope.
Delimit Scope char_scope with char.
Delimit Scope string_scope with string.

(** ** Machine integers *)

Definition wrap_uint32 (z : Z) : Z := z mod 2 ^ 32.
Definition wrap_int (z : Z) : Z := (z + 2 ^ 31) mod 2 ^ 32 - 2 ^ 31.
Definition wrap_size_t (z : Z) : Z := z mod 2 ^ 64.

(** The largest [int] and the largest [long]. *)
Definition INT_MAX : Z := 2 ^ 31 - 1.
Definition LONG_MAX : Z := 2 ^ 63 - 1.

Definition byte_val (b : byte) : Z := Z.of_N (Byte.to_N b).

(** ** Constants of barmaid.c *)

Definition BUFF_SIZ : Z := 8192.
Definition LONGEST_MAGIC_STRING : Z := 32.

Definition barmaid_start_mseq_png : list byte :=
  [x89; x50; x4e; x47; x0d; x0a; x1a; x0a;
   x00; x00; x00; x0d; x49; x48; x44; x52].

Definition barmaid_end_mseq_png : list byte :=
  [x00; x00; x00; x00; x49; x45; x4e; x44; xae; x42; x60; x82].

Definition barmaid_btw_mseq_sof : list byte :=
  [x0d; x0a; x42; x61; x72; x20; x54; x65; x6e; x64; x65; x72; x20;
   x46; x6f; x72; x6d; x61; x74; x20; x46; x69; x6c; x65; x0d; x0a].

Definition barmaid_btw_end_of_meta : list byte := [xff; xfe; xff; x00].
Definition barmaid_btw_zlib : list byte := [x00; x01].

(** [sizeof] of a constant array. *)
Definition sizeof (a : list byte) : Z := Zlength a.

(** ** Byte sequences

    The first [n] elements of a list and the list without them; [n <= 0]
    takes nothing and drops nothing. *)

Fixpoint take {A : Type} (n : Z) (l : list A) : list A :=
  match l with
  | [] => []
  | a :: l' => if 0 <? n then a :: take (n - 1) l' else []
  end.

Fixpoint drop {A : Type} (n : Z) (l : list A) : list A :=
  match l with
  | [] => []
  | a :: l' => if 0 <? n then drop (n - 1) l' else l
  end.

(** ** stdio on a regular file *)

Record FILE := mkFILE { f_data : list byte; f_pos : Z }.

Definition fopen (data : list byte) : FILE := mkFILE data 0.

(** [fseek(fil, offset, SEEK_SET)]: the stream and the return value,
    non-zero on failure (a negative offset is [EINVAL]). *)
Definition fseek (fil : FILE) (offset : Z) : FILE * Z :=
  if offset <? 0 then (fil, -1) else (mkFILE (f_data fil) offset, 0).

Definition ftell (fil : FILE) : Z := f_pos fil.

(** The bytes of [data] in [pos, pos + n). *)
Definition slice (data : list byte) (pos n : Z) : list byte :=
  take n (drop pos data).

(** [fread(buf, 1, n, fil)]: the bytes delivered (their number is fread's
    return value) and the stream after the call. *)
Definition fread (n : Z) (fil : FILE) : list byte * FILE :=
  let got := slice (f_data fil) (f_pos fil) n in
  (got, mkFILE (f_data fil) (f_pos fil + Zlength got)).

(** [fwrite(buf, 1, n, fil)] on a file open for writing: overwrites at the
    cursor and extends the file (a gap behind the end reads as zeros).
    The sink accepts every byte. *)
Definition fwrite (bytes : list byte) (fil : FILE) : Z * FILE :=
  let p := f_pos fil in
  let d := f_data fil in
  (Zlength bytes,
   mkFILE (take p d ++ repeat x00 (Z.to_nat (p - Zlength d)) ++ bytes
             ++ drop (p + Zlength bytes) d)
          (p + Zlength bytes)).

(** [fstat(fd, &st)] for the descriptor [fd] of a stream: the return value.
    It fails for the -1 that [fileno] gives for a stream without descriptor
    and succeeds on the descriptor of an open regular file. *)
Definition fstat (fd : Z) : Z := if fd <? 0 then -1 else 0.

(** [st.st_size] after [fstat] on the descriptor of the stream [fil]. *)
Definition st_size (fil : FILE) : Z := Zlength (f_data fil).

(** ** Memory *)

(** An array of [n] bytes that the code does not initialise. *)
Fixpoint uninit_from (junk : Z -> byte) (i : Z) (n : nat) : list byte :=
  match n with
  | O => []
  | S n' => junk i :: uninit_from junk (i + 1) n'
  end.

Definition uninit (junk : Z -> byte) (n : nat) : list byte :=
  uninit_from junk 0 n.

(** Writing [bytes] into the array [buf] from index [dst]. *)
Definition store (buf : list byte) (dst : Z) (bytes : list byte) : list byte :=
  take dst buf ++ bytes ++ drop (dst + Zlength bytes) buf.

(** [memmove(&buf[dst], &buf[src], n)]. *)
Definition memmove (buf : list byte) (dst src n : Z) : list byte :=
  store buf dst (take n (drop src buf)).

(** [memcmp(&buf[addr], seq, sizeof seq)], where [mem] is the part of the
    array from index [addr] on.  Bytes are compared in order up to the
    first difference; behind the end of the array the comparison reads
    what the stack holds there, [junk]. *)
Fixpoint memcmp (junk : Z -> byte) (addr : Z) (mem seq : list byte) : Z :=
  match seq with
  | [] => 0
  | c :: seq' =>
      let m := match mem with [] => junk addr | m :: _ => m end in
      if Byte.eqb m c then memcmp junk (addr + 1) (tl mem) seq'
      else byte_val m - byte_val c
  end.

(** ** barmaid_find_seq *)

(** The inner [for(; i < read; i++)] with [n] iterations left; [mem] is
    [search_buff] from index [addr = LONGEST_MAGIC_STRING + i] on. *)
Fixpoint find_scan (junk : Z -> byte) (seq : list byte) (n : nat) (addr : Z)
    (mem : list byte) (i : Z) : option Z :=
  match n with
  | O => None
  | S n' =>
      if memcmp junk addr mem seq =? 0 then Some i
      else find_scan junk seq n' (addr + 1) (tl mem) (i + 1)
  end.

(** The [while((read = fread(...)))] loop. *)
Fixpoint find_chunks (fuel : nat) (junk : Z -> byte) (seq : list byte)
    (offset : Z) (search_buff : list byte) (chunk_count : Z) (fil : FILE)
    : option (Z * FILE) :=
  match fuel with
  | O => None
  | S fuel' =>
      let (got, fil1) := fread BUFF_SIZ fil in
      let read := Zlength got in
      if read =? 0 then Some (-1, fil1)
      else
        let buf1 := store search_buff LONGEST_MAGIC_STRING got in
        let buf2 :=
          if chunk_count =? 0 then buf1
          else memmove buf1 0 BUFF_SIZ LONGEST_MAGIC_STRING in
        let i := if chunk_count =? 0 then 0 else 0 - LONGEST_MAGIC_STRING in
        let addr := LONGEST_MAGIC_STRING + i in
        match find_scan junk seq (Z.to_nat (read - i)) addr (drop addr buf2) i with
        | Some i' =>
            let pos := offset + i' + wrap_int (chunk_count * BUFF_SIZ) in
            let (fil2, _) := fseek fil1 pos in
            Some (pos, fil2)
        | None =>
            find_chunks fuel' junk seq offset buf2 (wrap_int (chunk_count + 1)) fil1
        end
  end.

(** [fil] is an open stream: [main] calls the scanner only with the handle
    [fopen] returned, so the [!fil] guard (result -2) never fires. *)
Definition barmaid_find_seq (junk : Z -> byte) (fil : FILE) (offset : Z)
    (seq : list byte) : option (Z * FILE) :=
  let search_buff := uninit junk (Z.to_nat (BUFF_SIZ + LONGEST_MAGIC_STRING)) in
  let (fil0, err) := if offset >=? 0 then fseek fil offset else (fil, 0) in
  if negb (err =? 0) then Some (-3, fil0)
  else find_chunks (S (length (f_data fil))) junk seq offset search_buff 0 fil0.

(** ** barmaid_skip_padding *)

Definition nonzero (b : byte) : bool := negb (Byte.eqb b x00).

(** The [while(1)] loop. *)
Fixpoint skip_words (fuel : nat) (buff : list byte) (fil : FILE)
    : option (Z * FILE) :=
  match fuel with
  | O => None
  | S fuel' =>
      let cur_pos := ftell fil in
      let (got, fil1) := fread 4 fil in
      if Zlength got =? 0 then Some (-1, fst (fseek fil1 cur_pos))
      else
        let buff1 := store buff 0 got in
        if nonzero (nth 0 buff1 x00) || nonzero (nth 1 buff1 x00)
           || nonzero (nth 2 buff1 x00) || nonzero (nth 3 buff1 x00)
        then Some (cur_pos, fst (fseek fil1 cur_pos))
        else skip_words fuel' buff1 fil1
  end.

Definition barmaid_skip_padding (junk : Z -> byte) (fil : FILE) (offset : Z)
    : option (Z * FILE) :=
  let buff := uninit junk 4 in
  let (fil0, err) := if offset >=? 0 then fseek fil offset else (fil, 0) in
  if negb (err =? 0) then Some (-2, fil0)
  else skip_words (S (length (f_data fil))) buff fil0.

(** ** barmaid_is_btw *)

Definition barmaid_is_btw (junk : Z -> byte) (fil : FILE) : bool * FILE :=
  let buff := uninit junk (Z.to_nat BUFF_SIZ) in
  let (got, fil1) := fread (sizeof barmaid_btw_mseq_sof) fil in
  let read := Zlength got in
  let buff1 := store buff 0 got in
  (negb (read =? 0) && (memcmp junk 0 buff1 barmaid_btw_mseq_sof =? 0), fil1).

(** ** The layout *)

Record blobs := mkblobs {
  success : bool;
  prefix_end : Z;
  png_start : Z * Z;
  png_end : Z * Z;
  container_zlib : bool;
  container_start : Z;
  container_end : Z
}.

(** [a[i]] and [a[i] = v] on a two-element array. *)
Definition elt (a : Z * Z) (i : nat) : Z :=
  match i with O => fst a | _ => snd a end.

Definition set_elt (a : Z * Z) (i : nat) (v : Z) : Z * Z :=
  match i with O => (v, snd a) | _ => (fst a, v) end.

Definition blobs_init : blobs :=
  mkblobs false (-1) (-1, -1) (-1, -1) false (-1) (-1).

Definition set_success (b : blobs) (v : bool) : blobs :=
  mkblobs v (prefix_end b) (png_start b) (png_end b)
          (container_zlib b) (container_start b) (container_end b).
Definition set_prefix_end (b : blobs) (v : Z) : blobs :=
  mkblobs (success b) v (png_start b) (png_end b)
          (container_zlib b) (container_start b) (container_end b).
Definition set_png_start (b : blobs) (i : nat) (v : Z) : blobs :=
  mkblobs (success b) (prefix_end b) (set_elt (png_start b) i v) (png_end b)
          (container_zlib b) (container_start b) (container_end b).
Definition set_png_end (b : blobs) (i : nat) (v : Z) : blobs :=
  mkblobs (success b) (prefix_end b) (png_start b) (set_elt (png_end b) i v)
          (container_zlib b) (container_start b) (container_end b).
Definition set_container_zlib (b : blobs) (v : bool) : blobs :=
  mkblobs (success b) (prefix_end b) (png_start b) (png_end b)
          v (container_start b) (container_end b).
Definition set_container_start (b : blobs) (v : Z) : blobs :=
  mkblobs (success b) (prefix_end b) (png_start b) (png_end b)
          (container_zlib b) v (container_end b).
Definition set_container_end (b : blobs) (v : Z) : blobs :=
  mkblobs (success b) (prefix_end b) (png_start b) (png_end b)
          (container_zlib b) (container_start b) v.

(** ** Early return

    A computation either runs out of fuel ([None]), or returns from the
    function with a layout ([inl]), or goes on with a value ([inr]). *)

Definition early (A : Type) : Type := option (blobs * FILE + A).

Definition bind_early {A B : Type} (m : early A) (k : A -> early B) : early B :=
  match m with
  | None => None
  | Some (inl r) => Some (inl r)
  | Some (inr a) => k a
  end.

Definition lift_early {A : Type} (m : option A) : early A :=
  match m with
  | None => None
  | Some a => Some (inr a)
  end.

Definition return_ {A : Type} (b : blobs) (fil : FILE) : early A :=
  Some (inl (b, fil)).

Notation "x <- m ;; k" := (bind_early m (fun x => k))
  (at level 61, m at next level, right associativity).
Notation "' p <- m ;; k" := (bind_early m (fun x => let 'p := x in k))
  (at level 61, p pattern, m at next level, right associativity).

(** ** barmaid_heuristic_png *)

(** One pass of the [for] loop; the state is [b], [offset] and the stream.
    [junk_s] and [junk_e] are what the two scanner frames hold on entry. *)
Definition heuristic_image (junk_s junk_e : Z -> byte) (i : nat)
    (st : blobs * Z * FILE) : early (blobs * Z * FILE) :=
  let '(b, offset, fil) := st in
  '(s, fil1) <- lift_early (barmaid_find_seq junk_s fil offset barmaid_start_mseq_png) ;;
  let b1 := set_png_start b i s in
  if elt (png_start b1) i <? 0 then return_ b1 fil1
  else
    '(e, fil2) <- lift_early (barmaid_find_seq junk_e fil1 (elt (png_start b1) i)
                                barmaid_end_mseq_png) ;;
    let b2 := set_png_end b1 i e in
    if elt (png_end b2) i <? 0 then return_ b2 fil2
    else
      let b3 := set_png_end b2 i (elt (png_end b2) i + sizeof barmaid_end_mseq_png) in
      Some (inr (b3, elt (png_end b3) i, fil2)).

Definition barmaid_heuristic_png (junk : nat -> Z -> byte) (fil : FILE)
    : option (blobs * FILE) :=
  match
    st1 <- heuristic_image (junk 0%nat) (junk 1%nat) 0 (blobs_init, 0, fil) ;;
    heuristic_image (junk 2%nat) (junk 3%nat) 1 st1
  with
  | None => None
  | Some (inl r) => Some r
  | Some (inr (b, _, fil')) => Some (set_success b true, fil')
  end.

(** ** barmaid_parse_btw *)

(** The [for(j = 3; j >= 0; j--)] loop on the [uint32_t blobsize]. *)
Definition decode_blobsize (buff : list byte) (blobsize : Z) : Z :=
  fold_left
    (fun bs j => Z.lor (wrap_uint32 (Z.shiftl bs 8)) (byte_val (nth j buff x00)))
    [3; 2; 1; 0]%nat blobsize.

(** The locals of [barmaid_parse_btw] that live across its steps. *)
Record locals := mklocals {
  l_fil : FILE;
  l_b : blobs;
  l_start_of_blobsize : Z;
  l_buff : list byte;
  l_blobsize : Z
}.

(** Signature, end of header, end of prefix. *)
Definition parse_header (junk : nat -> Z -> byte) (fil : FILE) : early locals :=
  let b := blobs_init in
  let (is_btw, fil1) := barmaid_is_btw (junk 0%nat) fil in
  if negb is_btw then return_ b fil1
  else
    '(found, fil2) <- lift_early (barmaid_find_seq (junk 1%nat) fil1
                        (sizeof barmaid_btw_mseq_sof) barmaid_btw_end_of_meta) ;;
    if found <? 0 then return_ b fil2
    else
      '(start_of_blobsize, fil3) <-
         lift_early (barmaid_skip_padding (junk 2%nat) fil2
                       (found + sizeof barmaid_btw_end_of_meta)) ;;
      Some (inr (mklocals fil3 (set_prefix_end b start_of_blobsize)
                          start_of_blobsize (uninit (junk 3%nat) 4) 0)).

(** One pass of the loop over the two PNG images. *)
Definition parse_image (junk : Z -> byte) (i : nat) (l : locals) : early locals :=
  let (fil1, _) := fseek (l_fil l) (l_start_of_blobsize l) in
  let (got, fil2) := fread 4 fil1 in
  if Zlength got =? 0 then return_ (l_b l) fil2
  else
    let buff := store (l_buff l) 0 got in
    let blobsize := decode_blobsize buff (l_blobsize l) in
    let b1 := set_png_start (l_b l) i (l_start_of_blobsize l + 4) in
    let b2 := set_png_end b1 i (elt (png_start b1) i + blobsize) in
    '(start_of_blobsize, fil3) <-
       lift_early (barmaid_skip_padding junk fil2 (elt (png_end b2) i)) ;;
    Some (inr (mklocals fil3 b2 start_of_blobsize buff blobsize)).

Definition parse_images (junk : nat -> Z -> byte) (fil : FILE) : early locals :=
  l0 <- parse_header junk fil ;;
  l1 <- parse_image (junk 4%nat) 0 l0 ;;
  parse_image (junk 5%nat) 1 l1.

(** Start and end of the container; [fd] is what [fileno(fil)] gives. *)
Definition parse_container (fd : Z) (l : locals) : blobs * FILE :=
  let b := set_container_start (l_b l) (l_start_of_blobsize l) in
  let (got, fil1) := fread 2 (l_fil l) in
  if negb (Zlength got =? 2) then (b, fil1)
  else
    let buff := store (l_buff l) 0 got in
    let b1 :=
      if memcmp (fun _ => x00) 0 buff barmaid_btw_zlib =? 0
      then set_container_zlib
             (set_container_start b (container_start b + sizeof barmaid_btw_zlib)) true
      else b in
    if (fd =? 0) || negb (fstat fd =? 0) then (b1, fil1)
    else
      let b2 := set_container_end b1 (st_size fil1) in
      if (container_start b2 <=? 0) || (container_end b2 <=? 0) then (b2, fil1)
      else (set_success b2 true, fil1).

(** [fd] is the descriptor of the stream [fil]. *)
Definition barmaid_parse_btw (junk : nat -> Z -> byte) (fd : Z) (fil : FILE)
    : option (blobs * FILE) :=
  match parse_images junk fil with
  | None => None
  | Some (inl r) => Some r
  | Some (inr l) => Some (parse_container fd l)
  end.

(** ** barmaid_dump_file *)

(** The copy loop; [i] and [size] are [size_t]. *)
Fixpoint dump_chunks (fuel : nat) (size i : Z) (infile outfile : FILE)
    : option (bool * FILE * FILE) :=
  match fuel with
  | O => None
  | S fuel' =>
      if i <? size then
        let chunk := Z.min (size - i) BUFF_SIZ in
        let (got, infile1) := fread chunk infile in
        if negb (Zlength got =? chunk) then Some (false, infile1, outfile)
        else
          let (written, outfile1) := fwrite got outfile in
          if negb (written =? chunk) then Some (false, infile1, outfile1)
          else dump_chunks fuel' size (wrap_size_t (i + BUFF_SIZ)) infile1 outfile1
      else Some (true, infile, outfile)
  end.

Definition barmaid_dump_file (infile : FILE) (start end_ : Z) (outfile : FILE)
    : option (bool * FILE * FILE) :=
  let size := wrap_size_t (end_ - start) in
  let (infile0, _) := fseek infile start in
  let (outfile0, _) := fseek outfile 0 in
  dump_chunks (S (length (f_data infile))) size 0 infile0 outfile0.

(** ** main

    The command line tool.  What [main] takes from its environment is made
    explicit:
    - [argv], with [argc] its length;
    - the calls of [getopt]: [opts] lists the option characters it returns
      before it returns -1, each with the value of [optarg], and [optind] is
      the index it leaves (what [getopt] itself prints is not modelled);
    - the file system [env]: for a path, the bytes that a stream opened with
      mode "rb" reads (if the file can be opened), whether [fopen] with
      mode "wb" succeeds, which gives an empty stream, and the descriptor
      that the stream of the path gets.  Every [fopen] gives a stream of its
      own: the paths of the command line name different files;
    - [inf], the inflater of barflate.h, by its return value and what it does
      to the two streams;
    - [stderr] as the list of the [fprintf] calls of [main], each with the
      arguments of its format.
    The result holds the exit status, that list and the streams as [fclose]
    finds them ([None] if the input file was never opened). *)

Inductive message : Type :=
| msg_not_implemented
| msg_help
| msg_mode_required
| msg_too_many_arguments
| msg_open_failed (name : String.string)
| msg_filename_required
| msg_heuristics_active
| msg_heuristic_failed (name : String.string)
| msg_parse_failed (name : String.string)
| msg_found_png (i : nat) (start end_ : Z)
| msg_write_png_failed (name : String.string)
| msg_wrote_png (name : String.string)
| msg_identified_prefix (end_ : Z)
| msg_dump_prefix_failed (name : String.string)
| msg_wrote_prefix (name : String.string)
| msg_found_container (zlib : bool) (start end_ : Z)
| msg_extract_container_failed (name : String.string)
| msg_wrote_extracted_container (name : String.string)
| msg_dump_container_failed (name : String.string)
| msg_wrote_container (name : String.string).

Record filesystem := mkfilesystem {
  fs_read : String.string -> option (list byte);
  fs_write : String.string -> bool;
  fs_fileno : String.string -> Z
}.

Inductive mode : Type := rb | wb.

(** [fopen(path, mode)]; [None] is [NULL]. *)
Definition fopen_path (env : filesystem) (path : String.string) (m : mode) : option FILE :=
  match m with
  | rb => option_map fopen (fs_read env path)
  | wb => if fs_write env path then Some (fopen []) else None
  end.

(** The variables that the option loop sets. *)
Record options := mkoptions {
  verbosity : Z;
  extract : bool;
  build : bool;
  heuristic : bool;
  help : bool;
  png_str : option String.string * option String.string;
  prefix_str : option String.string;
  container_str : option String.string
}.

Definition options_init : options :=
  mkoptions 0 false false false false (None, None) None None.

(** [a[i]] and [a[i] = v] on a two-element array of any type. *)
Definition item {A : Type} (a : A * A) (i : nat) : A :=
  match i with O => fst a | _ => snd a end.

Definition set_item {A : Type} (a : A * A) (i : nat) (v : A) : A * A :=
  match i with O => (v, snd a) | _ => (fst a, v) end.

(** The body of [switch(opt)]: the variables after it, [inl] when it leaves
    with [goto err_abort]. *)
Definition option_case (o : options) (opt : Ascii.ascii) (optarg : String.string)
    : options + options :=
  if Ascii.eqb opt "h"%char then
    inr (mkoptions (verbosity o) (extract o) (build o) (heuristic o) true
                   (png_str o) (prefix_str o) (container_str o))
  else if Ascii.eqb opt "s"%char then
    inr (mkoptions (verbosity o) (extract o) (build o) true (help o)
                   (png_str o) (prefix_str o) (container_str o))
  else if Ascii.eqb opt "p"%char then
    inr (mkoptions (verbosity o) (extract o) (build o) (heuristic o) (help o)
                   (png_str o) (Some optarg) (container_str o))
  else if Ascii.eqb opt "c"%char then
    inr (mkoptions (verbosity o) (extract o) (build o) (heuristic o) (help o)
                   (png_str o) (prefix_str o) (Some optarg))
  else if Ascii.eqb opt "b"%char then
    inl (mkoptions (verbosity o) (extract o) true (heuristic o) (help o)
                   (png_str o) (prefix_str o) (container_str o))
  else if Ascii.eqb opt "e"%char then
    inr (mkoptions (verbosity o) true (build o) (heuristic o) (help o)
                   (png_str o) (prefix_str o) (container_str o))
  else if Ascii.eqb opt "i"%char then
    inr (mkoptions (verbosity o) (extract o) (build o) (heuristic o) (help o)
                   (set_item (png_str o) 0 (Some optarg)) (prefix_str o)
                   (container_str o))
  else if Ascii.eqb opt "m"%char then
    inr (mkoptions (verbosity o) (extract o) (build o) (heuristic o) (help o)
                   (set_item (png_str o) 1 (Some optarg)) (prefix_str o)
                   (container_str o))
  else if Ascii.eqb opt "v"%char then
    inr (mkoptions 1 (extract o) (build o) (heuristic o) (help o)
                   (png_str o) (prefix_str o) (container_str o))
  else inr o.

(** [while((opt = getopt(...)) != -1)]. *)
Fixpoint option_loop (opts : list (Ascii.ascii * String.string)) (o : options)
    : options + options :=
  match opts with
  | [] => inr o
  | (opt, optarg) :: opts' =>
      match option_case o opt optarg with
      | inl o' => inl o'
      | inr o' => option_loop opts' o'
      end
  end.

(** The streams of [main] once the input file is open. *)
Record handles := mkhandles {
  file : FILE;
  png : option FILE * option FILE;
  prefix : option FILE;
  container : option FILE
}.

Record result := mkresult {
  status : Z;
  stderr : list message;
  closed : option handles
}.

(** A step of [main] on the streams and [stderr]: [inl] when it leaves with
    [goto err_abort]. *)
Definition step : Type := (handles * list message) + (handles * list message).

(** [if(verbosity) fprintf(stderr, ...)]. *)
Definition say (o : options) (m : message) (err : list message) : list message :=
  if verbosity o =? 0 then err else err ++ [m].

(** The mode of the input file, [extract?"rb":"wb"], and of the other files,
    [extract?"wb":"rb"]. *)
Definition input_mode (o : options) : mode := if extract o then rb else wb.
Definition output_mode (o : options) : mode := if extract o then wb else rb.

(** One pass of the loop that opens the image files. *)
Definition open_image (env : filesystem) (o : options) (i : nat)
    (h : handles) (err : list message) : step :=
  match item (png_str o) i with
  | None => inr (h, err)
  | Some name =>
      match fopen_path env name (output_mode o) with
      | None => inl (h, err ++ [msg_open_failed name])
      | Some f =>
          inr (mkhandles (file h) (set_item (png h) i (Some f)) (prefix h)
                         (container h), err)
      end
  end.

Definition open_container (env : filesystem) (o : options)
    (h : handles) (err : list message) : step :=
  match container_str o with
  | None => inr (h, err)
  | Some name =>
      match fopen_path env name (output_mode o) with
      | None => inl (h, err ++ [msg_open_failed name])
      | Some f => inr (mkhandles (file h) (png h) (prefix h) (Some f), err)
      end
  end.

Definition open_prefix (env : filesystem) (o : options)
    (h : handles) (err : list message) : step :=
  match prefix_str o with
  | None => inr (h, err)
  | Some name =>
      match fopen_path env name (output_mode o) with
      | None => inl (h, err ++ [msg_open_failed name])
      | Some f => inr (mkhandles (file h) (png h) (Some f) (container h), err)
      end
  end.

(** The name that goes with an open stream; a stream is only opened under
    its name. *)
Definition name_of (s : option String.string) : String.string :=
  match s with Some name => name | None => String.EmptyString end.

(** One pass of the loop that dumps the preview images. *)
Definition dump_image (o : options) (b : blobs) (i : nat)
    (h : handles) (err : list message) : option step :=
  let err1 := say o (msg_found_png i (elt (png_start b) i) (elt (png_end b) i)) err in
  match item (png h) i with
  | None => Some (inr (h, err1))
  | Some out =>
      match barmaid_dump_file (file h) (elt (png_start b) i) (elt (png_end b) i) out with
      | None => None
      | Some (ok, file1, out1) =>
          let h1 := mkhandles file1 (set_item (png h) i (Some out1)) (prefix h)
                              (container h) in
          if negb ok
          then Some (inl (h1, err1 ++ [msg_write_png_failed
                                         (name_of (item (png_str o) i))]))
          else Some (inr (h1, say o (msg_wrote_png (name_of (item (png_str o) i)))
                                  err1))
      end
  end.

Definition dump_prefix (o : options) (b : blobs)
    (h : handles) (err : list message) : option step :=
  let err1 := say o (msg_identified_prefix (prefix_end b)) err in
  match prefix h with
  | None => Some (inr (h, err1))
  | Some out =>
      let (file0, _) := fseek (file h) 0 in
      match barmaid_dump_file file0 0 (prefix_end b) out with
      | None => None
      | Some (ok, file1, out1) =>
          let h1 := mkhandles file1 (png h) (Some out1) (container h) in
          if negb ok
          then Some (inl (h1, err1 ++ [msg_dump_prefix_failed
                                         (name_of (prefix_str o))]))
          else Some (inr (h1, say o (msg_wrote_prefix (name_of (prefix_str o)))
                                  err1))
      end
  end.

Definition dump_container (inf : FILE -> FILE -> Z * FILE * FILE)
    (o : options) (b : blobs) (h : handles) (err : list message) : option step :=
  let err1 := say o (msg_found_container (container_zlib b) (container_start b)
                       (container_end b)) err in
  match container h with
  | None => Some (inr (h, err1))
  | Some out =>
      let (file0, _) := fseek (file h) (container_start b) in
      if container_zlib b then
        let '(ret, file1, out1) := inf file0 out in
        let h1 := mkhandles file1 (png h) (prefix h) (Some out1) in
        if negb (ret =? 0)
        then Some (inl (h1, err1 ++ [msg_extract_container_failed
                                       (name_of (container_str o))]))
        else Some (inr (h1, say o (msg_wrote_extracted_container
                                     (name_of (container_str o))) err1))
      else
        match barmaid_dump_file file0 (container_start b) (container_end b) out with
        | None => None
        | Some (ok, file1, out1) =>
            let h1 := mkhandles file1 (png h) (prefix h) (Some out1) in
            if negb ok
            then Some (inl (h1, err1 ++ [msg_dump_container_failed
                                           (name_of (container_str o))]))
            else Some (inr (h1, say o (msg_wrote_container
                                         (name_of (container_str o))) err1))
        end
  end.

(** Sequencing of steps: [goto err_abort] skips what follows. *)
Definition and_then (s : option step) (k : handles -> list message -> option step)
    : option step :=
  match s with
  | None => None
  | Some (inl a) => Some (inl a)
  | Some (inr (h, err)) => k h err
  end.

(** From the open input file and its layout to the last [goto end]. *)
Definition extract_blobs (inf : FILE -> FILE -> Z * FILE * FILE)
    (env : filesystem) (o : options) (b : blobs) (h : handles)
    (err : list message) : option step :=
  and_then (Some (open_image env o 0 h err)) (fun h err =>
  and_then (Some (open_image env o 1 h err)) (fun h err =>
  and_then (if heuristic o then Some (inr (h, err))
            else and_then (Some (open_container env o h err)) (fun h err =>
                 Some (open_prefix env o h err))) (fun h err =>
  and_then (dump_image o b 0 h err) (fun h err =>
  and_then (dump_image o b 1 h err) (fun h err =>
  if heuristic o then Some (inr (h, err))
  else and_then (dump_prefix o b h err) (dump_container inf o b)))))).

(** [err_abort: status = 1; end: ... return status;] *)
Definition finish (s : step) : result :=
  match s with
  | inl (h, err) => mkresult 1 err (Some h)
  | inr (h, err) => mkresult 0 err (Some h)
  end.

Definition main (inf : FILE -> FILE -> Z * FILE * FILE) (junk : nat -> Z -> byte)
    (env : filesystem) (argv : list String.string) (opts : list (Ascii.ascii * String.string))
    (optind : Z) : option result :=
  let argc := Zlength argv in
  match option_loop opts options_init with
  | inl _ => Some (mkresult 1 [msg_not_implemented] None)
  | inr o =>
      if help o || (argc <? 2) then Some (mkresult 0 [msg_help] None)
      else if negb (xorb (build o) (extract o))
      then Some (mkresult 1 [msg_mode_required] None)
      else if optind + 1 <? argc
      then Some (mkresult 1 [msg_too_many_arguments] None)
      else if negb (optind <? argc)
      then Some (mkresult 1 [msg_filename_required] None)
      else
        let file_str := nth (Z.to_nat optind) argv String.EmptyString in
        match fopen_path env file_str (input_mode o) with
        | None => Some (mkresult 1 [msg_open_failed file_str] None)
        | Some file0 =>
            let err := if heuristic o then say o msg_heuristics_active [] else [] in
            match (if heuristic o then barmaid_heuristic_png junk file0
                   else barmaid_parse_btw junk (fs_fileno env file_str) file0) with
            | None => None
            | Some (b, file1) =>
                let h := mkhandles file1 (None, None) None None in
                if negb (success b)
                then Some (mkresult 1
                             (err ++ [if heuristic o then msg_heuristic_failed file_str
                                      else msg_parse_failed file_str])
                             (Some h))
                else option_map finish (extract_blobs inf env o b h err)
            end
        end
  end.

(** ** Reference notions and sample files *)

(** What the contract of the scanner asks for: the first offset at which
    [seq] occurs in [l]. *)
Fixpoint starts_with (seq l : list byte) : bool :=
  match seq, l with
  | [], _ => true
  | _ :: _, [] => false
  | c :: seq', m :: l' => Byte.eqb m c && starts_with seq' l'
  end.

Fixpoint first_occurrence (seq l : list byte) : option Z :=
  if starts_with seq l then Some 0
  else match l with
       | [] => None
       | _ :: l' => option_map Z.succ (first_occurrence seq l')
       end.

(** The state of the parser after a call of the padding skipper that was
    asked to start at [lo] or later: either the skipper reported -1 and the
    cursor is at or behind the end of the file, or the cursor is at the word
    it returned. *)
Definition after_padding (l : locals) (lo : Z) : Prop :=
  (l_start_of_blobsize l = -1 /\ Zlength (f_data (l_fil l)) <= f_pos (l_fil l)) \/
  (lo <= l_start_of_blobsize l /\
   l_start_of_blobsize l < Zlength (f_data (l_fil l)) /\
   f_pos (l_fil l) = l_start_of_blobsize l).

(** A 16 KiB file with the PNG end marker at bytes 8190-8201, across the
    boundary of the first two chunks. *)
Definition straddling_stream : list byte :=
  repeat x01 (Z.to_nat 8190) ++ barmaid_end_mseq_png
    ++ repeat x01 (Z.to_nat 8182).

(** A 16 KiB file without the PNG end marker: the second chunk begins with
    the last ten bytes of the marker and ends with its first two. *)
Definition folded_stream : list byte :=
  repeat x01 (Z.to_nat 8192) ++ skipn 2 barmaid_end_mseq_png
    ++ repeat x01 (Z.to_nat 8180)
    ++ firstn 2 barmaid_end_mseq_png.

(** A minimal BTW file: signature, end of header, two images of four
    bytes, a compressed container. *)
Definition sample_btw : list byte :=
  barmaid_btw_mseq_sof ++ barmaid_btw_end_of_meta
    ++ [x04; x00; x00; x00; xaa; xbb; xcc; xdd]
    ++ [x04; x00; x00; x00; xaa; xbb; xcc; xdd]
    ++ [x00; x01; x78; x9c].

(** A file without the BTW signature that holds two PNG images. *)
Definition sample_pngs : list byte :=
  [x07] ++ barmaid_start_mseq_png ++ [x01] ++ barmaid_end_mseq_png
    ++ [x02; x03] ++ barmaid_start_mseq_png ++ barmaid_end_mseq_png ++ [x09].

(** A 30-byte source for the range extractor. *)
Definition thirty_bytes : list byte :=
  repeat x01 10 ++ repeat x02 10 ++ repeat x03 10.

(** Stack frames that hold zeros. *)
Definition zero_junk : Z -> byte := fun _ => x00.
Definition zero_junks : nat -> Z -> byte := fun _ _ => x00.

(** Padding: a run of zero bytes. *)
Definition zero_bytes (l : list byte) : Prop := Forall (fun b => b = x00) l.

(** Where a call of the padding skipper from [lo] has left the stream
    [fil'] of a file [data], by its result [r]: at or behind the end of the
    file with -1, or at the word [r], a number of zero words behind [lo],
    which is not zero if the file holds all four bytes of it. *)
Definition skipped_to (data : list byte) (lo r : Z) (fil' : FILE) : Prop :=
  (r = -1 /\ Zlength data <= f_pos fil') \/
  (lo <= r < Zlength data /\ (r - lo) mod 4 = 0 /\
   zero_bytes (slice data lo (r - lo)) /\ f_pos fil' = r /\
   (r + 4 <= Zlength data -> ~ zero_bytes (slice data r 4))).

(** The value of a little-endian word. *)
Definition le32 (w : list byte) : Z :=
  byte_val (nth 0 w x00) + 2 ^ 8 * byte_val (nth 1 w x00)
  + 2 ^ 16 * byte_val (nth 2 w x00) + 2 ^ 24 * byte_val (nth 3 w x00).

(** Padding between [lo] and [r]: a whole number of words, all zero. *)
Definition padding (data : list byte) (lo r : Z) : Prop :=
  lo <= r /\ (r - lo) mod 4 = 0 /\ zero_bytes (slice data lo (r - lo)).

(** A word of the file that is not zero. *)
Definition nonzero_word_at (data : list byte) (p : Z) : Prop :=
  p + 4 <= Zlength data /\ ~ zero_bytes (slice data p 4).

(** The layout of a file whose two length fields are at [p0] and [p1] and
    whose container begins, with its optional compression marker, at [pc]. *)
Definition btw_layout (data : list byte) (p0 p1 pc : Z) : blobs :=
  let zlib := if list_eq_dec Byte.byte_eq_dec (slice data pc 2) barmaid_btw_zlib
              then true else false in
  mkblobs true p0 (p0 + 4, p1 + 4)
          (p0 + 4 + le32 (slice data p0 4), p1 + 4 + le32 (slice data p1 4))
          zlib (if zlib then pc + 2 else pc) (Zlength data).

(** The shape of a file behind its signature: the end marker of the header
    at [found], padding, the length field of the first image at [p0], the
    image, padding, the length field of the second image at [p1], the image,
    padding, and at [pc] two bytes or more of the container. *)
Record btw_shape (data : list byte) (found p0 p1 pc : Z) : Prop := {
  shape_found : 0 <= found;
  shape_prefix : padding data (found + 4) p0;
  shape_length0 : nonzero_word_at data p0;
  shape_gap0 : padding data (p0 + 4 + le32 (slice data p0 4)) p1;
  shape_length1 : nonzero_word_at data p1;
  shape_gap1 : padding data (p1 + 4 + le32 (slice data p1 4)) pc;
  shape_container : pc + 2 <= Zlength data
}.

(** [p] is the first offset at or after [lo] at which [seq] occurs. *)
Definition first_at (data seq : list byte) (lo p : Z) : Prop :=
  lo <= p /\ slice data p (Zlength seq) = seq /\
  forall q, lo <= q < p -> slice data q (Zlength seq) <> seq.


(** The streams of a step, however it ends. *)
Definition streams_of (s : step) : handles :=
  match s with inl (h, _) => h | inr (h, _) => h end.

(** A command line [barmaid <options> file] as [getopt] leaves it, a file
    system in which every path holds [data], can be written and gives a
    stream with descriptor 3, and an inflater that does nothing. *)
Definition sample_argv : list String.string :=
  ["barmaid"%string; "-e"%string; "file"%string].

Definition sample_env (data : list byte) : filesystem :=
  mkfilesystem (fun _ => Some data) (fun _ => true) (fun _ => 3).

Definition idle_inf (infile outfile : FILE) : Z * FILE * FILE :=
  (0, infile, outfile).

(** The layout of [sample_btw]. *)
Definition sample_layout : blobs := mkblobs true 30 (34, 42) (38, 46) true 48 50.

(** A BTW file with padding: signature, two bytes of header and its end
    marker at 28, one zero word, an image of four bytes behind its length
    field at 36, two zero words, an image of two bytes behind its length
    field at 52, one zero word, and a compressed container at 62. *)
Definition padded_btw : list byte :=
  barmaid_btw_mseq_sof ++ [x01; x02] ++ barmaid_btw_end_of_meta
    ++ repeat x00 4 ++ [x04; x00; x00; x00; xaa; xbb; xcc; xdd]
    ++ repeat x00 8 ++ [x02; x00; x00; x00; xee; xff]
    ++ repeat x00 4 ++ [x00; x01; x78; x9c].

(** The layout of [padded_btw]. *)
Definition padded_layout : blobs := mkblobs true 36 (40, 56) (44, 58) true 64 66.

(** A 16 KiB file that begins with a PNG start marker and holds one more
    start marker at 8202 and one end marker at 8218; as in [folded_stream],
    the second chunk begins with the last ten bytes of the end marker and
    ends with its first two. *)
Definition phantom_stream : list byte :=
  barmaid_start_mseq_png ++ repeat x01 (Z.to_nat 8176)
    ++ skipn 2 barmaid_end_mseq_png
    ++ barmaid_start_mseq_png ++ barmaid_end_mseq_png
    ++ repeat x01 (Z.to_nat 8152)
    ++ firstn 2 barmaid_end_mseq_png.

(** * Properties *)

(** ** Streams *)

Lemma Zlength_nonneg {A : Type} (l : list A) : 0 <= Zlength l.
Proof. rewrite Zlength_correct. lia. Qed.

Lemma take_firstn {A : Type} (l : list A) :
  forall n, take n l = firstn (Z.to_nat n) l.
Proof.
  induction l as [|a l IH]; intros n; cbn [take].
  - rewrite firstn_nil. reflexivity.
  - destruct (Z.ltb_spec 0 n) as [H|H].
    + replace (Z.to_nat n) with (S (Z.to_nat (n - 1))) by lia.
      cbn [firstn]. rewrite IH. reflexivity.
    + replace (Z.to_nat n) with O by lia. reflexivity.
Qed.

Lemma drop_skipn {A : Type} (l : list A) :
  forall n, drop n l = skipn (Z.to_nat n) l.
Proof.
  induction l as [|a l IH]; intros n; cbn [drop].
  - rewrite skipn_nil. reflexivity.
  - destruct (Z.ltb_spec 0 n) as [H|H].
    + replace (Z.to_nat n) with (S (Z.to_nat (n - 1))) by lia.
      cbn [skipn]. rewrite IH. reflexivity.
    + replace (Z.to_nat n) with O by lia. reflexivity.
Qed.

Lemma slice_firstn_skipn (data : list byte) (pos n : Z) :
  slice data pos n = firstn (Z.to_nat n) (skipn (Z.to_nat pos) data).
Proof. unfold slice. rewrite take_firstn, drop_skipn. reflexivity. Qed.

Lemma Zlength_slice (data : list byte) (pos n : Z) :
  0 <= pos ->
  Zlength (slice data pos n) = Z.max 0 (Z.min n (Zlength data - pos)).
Proof.
  intros Hpos. rewrite slice_firstn_skipn.
  rewrite !Zlength_correct, length_firstn, length_skipn. lia.
Qed.

Lemma slice_cons (a : byte) (l : list byte) (p n : Z) :
  0 < p -> slice (a :: l) p n = slice l (p - 1) n.
Proof.
  intros Hp. unfold slice. cbn [drop].
  destruct (Z.ltb_spec 0 p); [reflexivity | lia].
Qed.

Lemma slice_0 (l : list byte) (n : Z) : slice l 0 n = firstn (Z.to_nat n) l.
Proof.
  rewrite slice_firstn_skipn. reflexivity.
Qed.

Lemma fseek_ok (fil : FILE) (offset : Z) :
  0 <= offset -> fseek fil offset = (mkFILE (f_data fil) offset, 0).
Proof.
  intros H. unfold fseek. destruct (Z.ltb_spec offset 0); [lia | reflexivity].
Qed.

Lemma fseek_negative (fil : FILE) (offset : Z) :
  offset < 0 -> fseek fil offset = (fil, -1).
Proof.
  intros H. unfold fseek. destruct (Z.ltb_spec offset 0); [reflexivity | lia].
Qed.

Lemma fseek_data (fil : FILE) (offset : Z) :
  f_data (fst (fseek fil offset)) = f_data fil.
Proof. unfold fseek. destruct (offset <? 0); reflexivity. Qed.

(** ** Bytes *)

Lemma byte_val_range (b : byte) : 0 <= byte_val b < 256.
Proof.
  unfold byte_val. pose proof (Byte.to_N_bounded b). lia.
Qed.

Lemma byte_val_inj (a b : byte) : byte_val a = byte_val b -> a = b.
Proof.
  unfold byte_val. intros H. apply N2Z.inj in H.
  pose proof (Byte.of_to_N a) as Ha. rewrite H, Byte.of_to_N in Ha.
  congruence.
Qed.

Lemma eqb_refl_byte (a : byte) : Byte.eqb a a = true.
Proof. apply Byte.byte_dec_lb. reflexivity. Qed.

(** [memcmp] is zero exactly when the memory starts with the sequence. *)
Lemma memcmp_zero (junk : Z -> byte) (seq : list byte) :
  forall addr mem,
    (length seq <= length mem)%nat ->
    memcmp junk addr mem seq = 0 -> firstn (length seq) mem = seq.
Proof.
  induction seq as [|c seq IH]; intros addr mem Hlen H; [reflexivity|].
  destruct mem as [|m mem]; [simpl in Hlen; lia|].
  cbn [memcmp tl] in H. cbn [length firstn].
  destruct (Byte.eqb m c) eqn:E.
  - apply Byte.byte_dec_bl in E. subst m. f_equal.
    apply (IH (addr + 1)); [simpl in Hlen; lia | exact H].
  - apply Byte.eqb_false in E. exfalso. apply E. apply byte_val_inj. lia.
Qed.

Lemma memcmp_prefix (junk : Z -> byte) (seq : list byte) :
  forall addr mem, memcmp junk addr (seq ++ mem) seq = 0.
Proof.
  induction seq as [|c seq IH]; intros addr mem; [reflexivity|].
  cbn [memcmp app tl]. rewrite eqb_refl_byte. apply IH.
Qed.

(** ** The padding skipper *)

Lemma skip_words_spec (fuel : nat) :
  forall buff fil r fil',
    0 <= f_pos fil ->
    skip_words fuel buff fil = Some (r, fil') ->
    f_data fil' = f_data fil /\
    ((r = -1 /\ Zlength (f_data fil) <= f_pos fil') \/
     (f_pos fil <= r /\ r < Zlength (f_data fil) /\ f_pos fil' = r)).
Proof.
  induction fuel as [|fuel IH]; intros buff fil r fil' Hpos H; [discriminate|].
  cbn [skip_words] in H. unfold fread, ftell in H.
  pose proof (Zlength_slice (f_data fil) (f_pos fil) 4 Hpos) as Hlen.
  set (got := slice (f_data fil) (f_pos fil) 4) in *.
  destruct (Z.eqb_spec (Zlength got) 0) as [E|E].
  - rewrite fseek_ok in H by exact Hpos.
    injection H as <- <-. cbn. split; [reflexivity|]. left. lia.
  - match type of H with (if ?c then _ else _) = _ => destruct c end.
    + rewrite fseek_ok in H by exact Hpos.
      injection H as <- <-. cbn. split; [reflexivity|]. right. lia.
    + apply IH in H; cbn [f_pos f_data] in *; [|lia].
      destruct H as [Hd H]. split; [exact Hd|].
      destruct H as [H|H]; [left; exact H | right; lia].
Qed.

Lemma skip_words_total (fuel : nat) :
  forall buff fil,
    0 <= f_pos fil ->
    Z.max 0 (Zlength (f_data fil) - f_pos fil) < Z.of_nat fuel ->
    exists r fil', skip_words fuel buff fil = Some (r, fil').
Proof.
  induction fuel as [|fuel IH]; intros buff fil Hpos Hfuel; [lia|].
  cbn [skip_words]. unfold fread, ftell.
  pose proof (Zlength_slice (f_data fil) (f_pos fil) 4 Hpos) as Hlen.
  set (got := slice (f_data fil) (f_pos fil) 4) in *.
  destruct (Z.eqb_spec (Zlength got) 0) as [E|E]; [eauto|].
  match goal with |- context [if ?c then _ else _] => destruct c end; [eauto|].
  apply IH; cbn [f_pos f_data]; lia.
Qed.

Lemma skip_padding_spec (junk : Z -> byte) (fil : FILE) (offset r : Z) (fil' : FILE) :
  0 <= offset ->
  barmaid_skip_padding junk fil offset = Some (r, fil') ->
  f_data fil' = f_data fil /\
  ((r = -1 /\ Zlength (f_data fil) <= f_pos fil') \/
   (offset <= r /\ r < Zlength (f_data fil) /\ f_pos fil' = r)).
Proof.
  intros Hoff H. unfold barmaid_skip_padding in H.
  destruct (Z.geb_spec offset 0); [|lia].
  rewrite fseek_ok in H by exact Hoff. cbn [negb Z.eqb] in H.
  apply skip_words_spec in H; [exact H | cbn; lia].
Qed.

Lemma skip_padding_total (junk : Z -> byte) (fil : FILE) (offset : Z) :
  0 <= offset ->
  exists r fil', barmaid_skip_padding junk fil offset = Some (r, fil').
Proof.
  intros Hoff. unfold barmaid_skip_padding.
  destruct (Z.geb_spec offset 0); [|lia].
  rewrite fseek_ok by exact Hoff. cbn [negb Z.eqb].
  apply skip_words_total; cbn; [lia|].
  rewrite Zlength_correct. lia.
Qed.

Lemma land_shifted_byte (k b : Z) : 0 <= b < 256 -> Z.land (Z.shiftl k 8) b = 0.
Proof.
  intros Hb. apply Z.bits_inj'. intros n Hn.
  rewrite Z.land_spec, Z.bits_0.
  destruct (Z.lt_ge_cases n 8).
  - rewrite Z.shiftl_spec_low by lia. reflexivity.
  - rewrite <- (Z.mod_small b (2 ^ 8)) by lia.
    rewrite Z.mod_pow2_bits_high by lia. apply andb_false_r.
Qed.

Lemma wrap_shiftl_8 (x : Z) :
  wrap_uint32 (Z.shiftl x 8) = Z.shiftl (x mod 2 ^ 24) 8.
Proof.
  unfold wrap_uint32. rewrite !Z.shiftl_mul_pow2 by lia.
  change (2 ^ 32) with (2 ^ 24 * 2 ^ 8).
  rewrite Z.mul_mod_distr_r by lia. reflexivity.
Qed.

Lemma decode_step (x b : Z) :
  0 <= b < 256 ->
  Z.lor (wrap_uint32 (Z.shiftl x 8)) b = (x mod 2 ^ 24) * 256 + b.
Proof.
  intros Hb. rewrite wrap_shiftl_8.
  rewrite <- Z.lxor_lor by (apply land_shifted_byte; exact Hb).
  rewrite <- Z.add_nocarry_lxor by (apply land_shifted_byte; exact Hb).
  rewrite Z.shiftl_mul_pow2 by lia. reflexivity.
Qed.

Lemma decode_blobsize_le (b0 b1 b2 b3 : byte) (blobsize : Z) :
  decode_blobsize [b0; b1; b2; b3] blobsize =
  byte_val b0 + 2 ^ 8 * byte_val b1 + 2 ^ 16 * byte_val b2 + 2 ^ 24 * byte_val b3.
Proof.
  unfold decode_blobsize. cbn [fold_left nth].
  pose proof (byte_val_range b0). pose proof (byte_val_range b1).
  pose proof (byte_val_range b2). pose proof (byte_val_range b3).
  rewrite !decode_step by assumption.
  Z.div_mod_to_equations; lia.
Qed.

Lemma decode_blobsize_app (b0 b1 b2 b3 : byte) (rest : list byte) (blobsize : Z) :
  decode_blobsize ([b0; b1; b2; b3] ++ rest) blobsize =
  decode_blobsize [b0; b1; b2; b3] blobsize.
Proof. reflexivity. Qed.

Lemma decode_blobsize_nonneg (buff : list byte) (blobsize : Z) :
  0 <= decode_blobsize buff blobsize.
Proof.
  unfold decode_blobsize. cbn [fold_left].
  rewrite decode_step by apply byte_val_range.
  pose proof (byte_val_range (nth 0 buff x00)).
  Z.div_mod_to_equations; lia.
Qed.

Lemma find_chunks_S (fuel : nat) (junk : Z -> byte) (seq : list byte)
    (offset : Z) (search_buff : list byte) (chunk_count : Z) (fil : FILE) :
  find_chunks (S fuel) junk seq offset search_buff chunk_count fil =
  let (got, fil1) := fread BUFF_SIZ fil in
  let read := Zlength got in
  if read =? 0 then Some (-1, fil1)
  else
    let buf1 := store search_buff LONGEST_MAGIC_STRING got in
    let buf2 :=
      if chunk_count =? 0 then buf1
      else memmove buf1 0 BUFF_SIZ LONGEST_MAGIC_STRING in
    let i := if chunk_count =? 0 then 0 else 0 - LONGEST_MAGIC_STRING in
    let addr := LONGEST_MAGIC_STRING + i in
    match find_scan junk seq (Z.to_nat (read - i)) addr (drop addr buf2) i with
    | Some i' =>
        let pos := offset + i' + wrap_int (chunk_count * BUFF_SIZ) in
        let (fil2, _) := fseek fil1 pos in
        Some (pos, fil2)
    | None =>
        find_chunks fuel junk seq offset buf2 (wrap_int (chunk_count + 1)) fil1
    end.
Proof. reflexivity. Qed.

Lemma fread_inv (n : Z) (fil : FILE) (got : list byte) (fil1 : FILE) :
  fread n fil = (got, fil1) ->
  got = slice (f_data fil) (f_pos fil) n /\
  f_data fil1 = f_data fil /\ f_pos fil1 = f_pos fil + Zlength got.
Proof.
  unfold fread. intros H. injection H as <- <-. cbn [f_data f_pos]. auto.
Qed.

Lemma find_chunks_data (fuel : nat) :
  forall junk seq offset buf chunk_count fil r fil',
    find_chunks fuel junk seq offset buf chunk_count fil = Some (r, fil') ->
    f_data fil' = f_data fil.
Proof.
  induction fuel as [|fuel IH]; intros junk seq offset buf cc fil r fil' H;
    [discriminate|].
  rewrite find_chunks_S in H.
  destruct (fread BUFF_SIZ fil) as [got fil1] eqn:Er.
  apply fread_inv in Er. destruct Er as [_ [Hd _]]. cbv zeta in H.
  destruct (Zlength got =? 0).
  - injection H as <- <-. exact Hd.
  - destruct (find_scan _ _ _ _ _ _) as [i'|].
    + match type of H with context [fseek ?f ?p] =>
        pose proof (fseek_data f p) as Hs; destruct (fseek f p) as [fil2 e] end.
      cbn [fst] in Hs. injection H as <- <-. congruence.
    + apply IH in H. congruence.
Qed.

Lemma find_seq_from_offset (junk : Z -> byte) (fil : FILE) (offset : Z)
    (seq : list byte) :
  0 <= offset ->
  barmaid_find_seq junk fil offset seq =
  find_chunks (S (length (f_data fil))) junk seq offset
    (uninit junk (Z.to_nat (BUFF_SIZ + LONGEST_MAGIC_STRING))) 0
    (mkFILE (f_data fil) offset).
Proof.
  intros H. unfold barmaid_find_seq.
  destruct (Z.geb_spec offset 0); [|lia].
  rewrite fseek_ok by lia. reflexivity.
Qed.

Lemma find_seq_from_cursor (junk : Z -> byte) (fil : FILE) (offset : Z)
    (seq : list byte) :
  offset < 0 ->
  barmaid_find_seq junk fil offset seq =
  find_chunks (S (length (f_data fil))) junk seq offset
    (uninit junk (Z.to_nat (BUFF_SIZ + LONGEST_MAGIC_STRING))) 0 fil.
Proof.
  intros H. unfold barmaid_find_seq.
  destruct (Z.geb_spec offset 0); [lia|]. reflexivity.
Qed.

Lemma find_seq_data (junk : Z -> byte) (fil : FILE) (offset : Z) (seq : list byte)
    (r : Z) (fil' : FILE) :
  barmaid_find_seq junk fil offset seq = Some (r, fil') ->
  f_data fil' = f_data fil.
Proof.
  intros H. destruct (Z.le_gt_cases 0 offset) as [Hoff|Hoff].
  - rewrite find_seq_from_offset in H by exact Hoff.
    apply find_chunks_data in H. exact H.
  - rewrite find_seq_from_cursor in H by exact Hoff.
    apply find_chunks_data in H. exact H.
Qed.

Lemma elt_set_elt (a : Z * Z) (i : nat) (v : Z) : elt (set_elt a i v) i = v.
Proof. destruct i; reflexivity. Qed.

Lemma is_btw_stream (junk : Z -> byte) (fil : FILE) :
  snd (barmaid_is_btw junk fil) =
  mkFILE (f_data fil)
         (f_pos fil + Zlength (slice (f_data fil) (f_pos fil)
                                 (sizeof barmaid_btw_mseq_sof))).
Proof. reflexivity. Qed.

Lemma is_btw_data (junk : Z -> byte) (fil : FILE) (is_btw : bool) (fil1 : FILE) :
  barmaid_is_btw junk fil = (is_btw, fil1) -> f_data fil1 = f_data fil.
Proof.
  intros H. apply (f_equal snd) in H. rewrite is_btw_stream in H.
  cbn [snd] in H. subst fil1. reflexivity.
Qed.

Lemma parse_header_spec (junk : nat -> Z -> byte) (fil : FILE) (l : locals) :
  parse_header junk fil = Some (inr l) ->
  f_data (l_fil l) = f_data fil /\
  l_b l = set_prefix_end blobs_init (l_start_of_blobsize l) /\
  after_padding l 4.
Proof.
  unfold parse_header, bind_early, lift_early, return_. intros H.
  destruct (barmaid_is_btw (junk 0%nat) fil) as [is_btw fil1] eqn:Esig.
  assert (Hd1 : f_data fil1 = f_data fil) by (eapply is_btw_data; exact Esig).
  destruct (negb is_btw); [discriminate|].
  destruct (barmaid_find_seq _ _ _ _) as [[found fil2]|] eqn:Efind; [|discriminate].
  apply find_seq_data in Efind.
  destruct (Z.ltb_spec found 0) as [Hneg|Hfound]; [discriminate|].
  destruct (barmaid_skip_padding _ _ _) as [[sob fil3]|] eqn:Eskip; [|discriminate].
  change (sizeof barmaid_btw_end_of_meta) with 4 in Eskip.
  apply skip_padding_spec in Eskip; [|lia].
  injection H as <-. cbn [l_fil l_b l_start_of_blobsize].
  destruct Eskip as [Hd3 Hpad].
  split; [congruence|]. split; [reflexivity|].
  unfold after_padding. cbn [l_fil l_b l_start_of_blobsize].
  rewrite Hd3. destruct Hpad as [Hpad|Hpad]; [left; exact Hpad | right; lia].
Qed.

Lemma parse_header_early (junk : nat -> Z -> byte) (fil : FILE) (b : blobs) (fil' : FILE) :
  parse_header junk fil = Some (inl (b, fil')) -> b = blobs_init.
Proof.
  unfold parse_header, bind_early, lift_early, return_. intros H.
  destruct (barmaid_is_btw (junk 0%nat) fil) as [is_btw fil1].
  destruct (negb is_btw); [congruence|].
  destruct (barmaid_find_seq _ _ _ _) as [[found fil2]|]; [|discriminate].
  destruct (found <? 0); [congruence|].
  destruct (barmaid_skip_padding _ _ _) as [[sob fil3]|]; discriminate.
Qed.

Lemma parse_image_spec (junk : Z -> byte) (i : nat) (l l' : locals) (lo : Z) :
  0 <= lo ->
  after_padding l lo ->
  parse_image junk i l = Some (inr l') ->
  exists n,
    0 <= n /\ lo <= l_start_of_blobsize l /\
    l_b l' = set_png_end (set_png_start (l_b l) i (l_start_of_blobsize l + 4)) i
               (l_start_of_blobsize l + 4 + n) /\
    f_data (l_fil l') = f_data (l_fil l) /\
    after_padding l' (l_start_of_blobsize l + 4 + n).
Proof.
  intros Hlo Hpad. unfold parse_image, bind_early, lift_early, return_. intros H.
  set (sob := l_start_of_blobsize l) in *.
  assert (Hseek : (sob = -1 /\ Zlength (f_data (l_fil l)) <= f_pos (l_fil l) /\
                   fseek (l_fil l) sob = (l_fil l, -1)) \/
                  (lo <= sob /\ fseek (l_fil l) sob = (mkFILE (f_data (l_fil l)) sob, 0))).
  { destruct Hpad as [[H1 H2]|[H1 [H2 H3]]]; fold sob in H1.
    - left. rewrite fseek_negative by lia. auto.
    - right. rewrite fseek_ok by lia. auto. }
  destruct Hseek as [[H1 [H2 Hs]]|[H1 Hs]]; rewrite Hs in H; unfold fread in H.
  - pose proof (Zlength_slice (f_data (l_fil l)) (f_pos (l_fil l)) 4) as Hlen.
    pose proof (Zlength_nonneg (f_data (l_fil l))).
    destruct (Z.eqb_spec (Zlength (slice (f_data (l_fil l)) (f_pos (l_fil l)) 4)) 0);
      [discriminate | lia].
  - cbn [f_data f_pos] in H.
    destruct (Zlength (slice (f_data (l_fil l)) sob 4) =? 0); [discriminate|].
    cbn [png_start set_png_start png_end set_png_end] in H.
    rewrite !elt_set_elt in H.
    match type of H with context [decode_blobsize ?bf ?bs] =>
      pose proof (decode_blobsize_nonneg bf bs) as Hn;
      set (n := decode_blobsize bf bs) in * end.
    destruct (barmaid_skip_padding _ _ _) as [[sob' fil3]|] eqn:Eskip; [|discriminate].
    apply skip_padding_spec in Eskip; [|lia].
    cbn [f_data] in Eskip. destruct Eskip as [Hd Hp].
    injection H as <-. exists n. cbn [l_fil l_b l_start_of_blobsize].
    repeat split; try assumption.
    unfold after_padding. cbn [l_fil l_b l_start_of_blobsize]. rewrite Hd.
    exact Hp.
Qed.

Lemma parse_image_early (junk : Z -> byte) (i : nat) (l : locals) (b : blobs) (fil' : FILE) :
  parse_image junk i l = Some (inl (b, fil')) -> b = l_b l.
Proof.
  unfold parse_image, bind_early, lift_early, return_. intros H.
  destruct (fseek _ _) as [fil1 e]. destruct (fread 4 fil1) as [got fil2].
  destruct (Zlength got =? 0); [congruence|].
  destruct (barmaid_skip_padding _ _ _) as [[sob' fil3]|]; discriminate.
Qed.

Lemma parse_images_spec (junk : nat -> Z -> byte) (fil : FILE) (l : locals) :
  parse_images junk fil = Some (inr l) ->
  exists p0 n0 p1 n1,
    4 <= p0 /\ 0 <= n0 /\ p0 + 4 + n0 <= p1 /\ 0 <= n1 /\
    l_b l = mkblobs false p0 (p0 + 4, p1 + 4) (p0 + 4 + n0, p1 + 4 + n1)
                    false (-1) (-1) /\
    f_data (l_fil l) = f_data fil /\
    after_padding l (p1 + 4 + n1).
Proof.
  unfold parse_images, bind_early. intros H.
  destruct (parse_header junk fil) as [[[b fil']|l0]|] eqn:E0; try discriminate.
  apply parse_header_spec in E0. destruct E0 as [Hd0 [Hb0 Hp0]].
  destruct (parse_image (junk 4%nat) 0 l0) as [[[b fil']|l1]|] eqn:E1;
    try discriminate.
  apply (parse_image_spec _ _ _ _ 4) in E1; [|lia|exact Hp0].
  destruct E1 as [n0 [Hn0 [Hlo0 [Hb1 [Hd1 Hp1]]]]].
  apply (parse_image_spec _ _ _ _ (l_start_of_blobsize l0 + 4 + n0)) in H;
    [|lia|exact Hp1].
  destruct H as [n1 [Hn1 [Hlo1 [Hb2 [Hd2 Hp2]]]]].
  exists (l_start_of_blobsize l0), n0, (l_start_of_blobsize l1), n1.
  repeat split; try assumption; try congruence.
  rewrite Hb2, Hb1, Hb0. reflexivity.
Qed.

Lemma parse_image_success (junk : Z -> byte) (i : nat) (l l' : locals) :
  parse_image junk i l = Some (inr l') -> success (l_b l') = success (l_b l).
Proof.
  unfold parse_image, bind_early, lift_early, return_. intros H.
  destruct (fseek _ _) as [fil1 e]. destruct (fread 4 fil1) as [got fil2].
  destruct (Zlength got =? 0); [discriminate|].
  destruct (barmaid_skip_padding _ _ _) as [[sob' fil3]|]; [|discriminate].
  injection H as <-. reflexivity.
Qed.

Lemma parse_images_early (junk : nat -> Z -> byte) (fil : FILE) (b : blobs) (fil' : FILE) :
  parse_images junk fil = Some (inl (b, fil')) -> success b = false.
Proof.
  unfold parse_images, bind_early. intros H.
  destruct (parse_header junk fil) as [[[b0 fil0]|l0]|] eqn:E0; try discriminate.
  - apply parse_header_early in E0. injection H as <- _. subst b0. reflexivity.
  - apply parse_header_spec in E0. destruct E0 as [_ [Hb0 _]].
    destruct (parse_image (junk 4%nat) 0 l0) as [[[b1 fil1]|l1]|] eqn:E1;
      try discriminate.
    + apply parse_image_early in E1. injection H as <- _. subst b1.
      rewrite Hb0. reflexivity.
    + apply parse_image_early in H. subst b.
      apply parse_image_success in E1. rewrite E1, Hb0. reflexivity.
Qed.

(** ** The layout parser *)

(** C3: a layout that [barmaid_parse_btw] returns with [success = true] has
    its offsets in order, starting at or after 0, and its [container_end]
    is the length of the file. *)
Theorem parse_btw_layout_ordered (junk : nat -> Z -> byte) (fd : Z) (fil : FILE)
    (b : blobs) (fil' : FILE) :
  barmaid_parse_btw junk fd fil = Some (b, fil') ->
  success b = true ->
  0 <= prefix_end b /\
  prefix_end b <= elt (png_start b) 0 /\
  elt (png_start b) 0 <= elt (png_end b) 0 /\
  elt (png_end b) 0 <= elt (png_start b) 1 /\
  elt (png_start b) 1 <= elt (png_end b) 1 /\
  elt (png_end b) 1 <= container_start b /\
  container_start b <= container_end b /\
  container_end b = Zlength (f_data fil).
Proof.
  unfold barmaid_parse_btw. intros H Hs.
  destruct (parse_images junk fil) as [[[b0 fil0]|l]|] eqn:E; try discriminate.
  - apply parse_images_early in E. injection H as <- _. congruence.
  - apply parse_images_spec in E.
    destruct E as [p0 [n0 [p1 [n1 [H0 [H1 [H2 [H3 [Hb [Hd Hp]]]]]]]]]].
    unfold parse_container in H.
    destruct (fread 2 (l_fil l)) as [got fil1] eqn:Er.
    apply fread_inv in Er. destruct Er as [Hgot [Hd1 Hp1]].
    pose proof (Zlength_slice (f_data (l_fil l)) (f_pos (l_fil l)) 2) as Hlen.
    rewrite <- Hgot in Hlen.
    pose proof (Zlength_nonneg (f_data (l_fil l))) as Hnn.
    destruct (Z.eqb_spec (Zlength got) 2) as [E2|E2]; cbn [negb] in H.
    2:{ injection H as <- _. rewrite Hb in Hs. discriminate. }
    assert (Hsob : p1 + 4 + n1 <= l_start_of_blobsize l /\
                   l_start_of_blobsize l + 2 <= Zlength (f_data fil)).
    { rewrite <- Hd. destruct Hp as [[Hp2 Hp3]|[Hp2 [Hp3 Hp4]]]; lia. }
    cbv zeta in H. unfold st_size in H. rewrite Hd1, Hd in H.
    rewrite Hb in H.
    change (sizeof barmaid_btw_zlib) with 2 in H.
    destruct (memcmp _ 0 _ barmaid_btw_zlib =? 0);
      destruct ((fd =? 0) || negb (fstat fd =? 0));
      cbn [container_start container_end set_container_start set_container_end
           set_container_zlib success prefix_end png_start png_end container_zlib] in H;
      try (injection H as <- _; discriminate Hs);
      match type of H with context [if ?c then _ else _] => destruct c end;
      injection H as <- _; try discriminate Hs;
      cbn -[Zlength Z.add]; lia.
Qed.

(** A stream whose descriptor is 0 is never accepted. *)
Lemma parse_btw_rejects_descriptor_0 (junk : nat -> Z -> byte) (fil : FILE)
    (b : blobs) (fil' : FILE) :
  barmaid_parse_btw junk 0 fil = Some (b, fil') -> success b = false.
Proof.
  intros H.
  destruct (success b) eqn:Hs; [|reflexivity].
  exfalso. revert H Hs. unfold barmaid_parse_btw.
  destruct (parse_images junk fil) as [[[b0 fil0]|l]|] eqn:E; try discriminate.
  - intros H Hs. apply parse_images_early in E. injection H as <- _. congruence.
  - intros H Hs. apply parse_images_spec in E.
    destruct E as [p0 [n0 [p1 [n1 [_ [_ [_ [_ [Hb _]]]]]]]]].
    unfold parse_container in H. rewrite Hb in H.
    destruct (fread 2 (l_fil l)) as [got fil1].
    destruct (negb (Zlength got =? 2)); cbv zeta in H; cbn [Z.eqb orb] in H;
      [|destruct (memcmp _ 0 _ barmaid_btw_zlib =? 0)];
      injection H as <- _; discriminate Hs.
Qed.

Lemma store_0 (buf got : list byte) :
  store buf 0 got = got ++ skipn (length got) buf.
Proof.
  unfold store. rewrite take_firstn, drop_skipn, Zlength_correct.
  cbn [Z.to_nat firstn app Z.add]. rewrite Nat2Z.id. reflexivity.
Qed.

Lemma memcmp_store_zero (junk : Z -> byte) (buf got seq : list byte) :
  length got = length seq ->
  (memcmp junk 0 (store buf 0 got) seq =? 0) = true <-> got = seq.
Proof.
  intros Hlen. rewrite store_0, Z.eqb_eq. split; intros H.
  - apply memcmp_zero in H; [|rewrite length_app; lia].
    rewrite <- Hlen, firstn_app, Nat.sub_diag, firstn_all in H.
    cbn [firstn] in H. rewrite app_nil_r in H. exact H.
  - subst got. apply memcmp_prefix.
Qed.

Lemma parse_container_fields (fd : Z) (l : locals) (b : blobs) (fil' : FILE) :
  parse_container fd l = (b, fil') ->
  let got := slice (f_data (l_fil l)) (f_pos (l_fil l)) 2 in
  let pos := l_start_of_blobsize l in
  (Zlength got <> 2 -> b = set_container_start (l_b l) pos) /\
  (Zlength got = 2 -> got = barmaid_btw_zlib ->
   container_zlib b = true /\ container_start b = pos + 2) /\
  (Zlength got = 2 -> got <> barmaid_btw_zlib ->
   container_zlib b = container_zlib (l_b l) /\ container_start b = pos).
Proof.
  intros Ec got pos. unfold parse_container in Ec.
  destruct (fread 2 (l_fil l)) as [got' fil1] eqn:Er.
  apply fread_inv in Er. destruct Er as [Hgot _].
  fold got in Hgot. subst got'. fold pos in Ec.
  destruct (Z.eqb_spec (Zlength got) 2) as [E2|E2]; cbn [negb] in Ec.
  2:{ injection Ec as <- _. repeat split; intros; try reflexivity; contradiction. }
  assert (Hl : length got = length barmaid_btw_zlib).
  { rewrite Zlength_correct in E2. cbn [length barmaid_btw_zlib]. lia. }
  pose proof (memcmp_store_zero (fun _ => x00) (l_buff l) got _ Hl) as Hm.
  cbv zeta in Ec. change (sizeof barmaid_btw_zlib) with 2 in Ec.
  destruct (memcmp _ 0 _ barmaid_btw_zlib =? 0);
    destruct ((fd =? 0) || negb (fstat fd =? 0));
    try match type of Ec with context [if ?c then (_, _) else _] => destruct c end;
    injection Ec as <- _; (split; [intros; contradiction|]); split; intros _ Hz;
    try (split; reflexivity).
  all: try (exfalso; apply Hz; apply Hm; reflexivity).
  all: apply Hm in Hz; discriminate.
Qed.

(** C5: at the position the skipper returns after the second image, the
    marker 00 01 sets [container_zlib] and moves [container_start] two bytes
    on; two other bytes leave [container_start] at that position and
    [container_zlib] false; with fewer than two bytes left the parse
    fails. *)
Theorem parse_btw_container_detection (junk : nat -> Z -> byte) (fd : Z)
    (fil : FILE) (l : locals) :
  parse_images junk fil = Some (inr l) ->
  let pos := l_start_of_blobsize l in
  let peek := slice (f_data fil) pos 2 in
  exists b fil',
    barmaid_parse_btw junk fd fil = Some (b, fil') /\
    (0 <= pos -> peek = barmaid_btw_zlib ->
     container_zlib b = true /\ container_start b = pos + 2) /\
    (0 <= pos -> Zlength peek = 2 -> peek <> barmaid_btw_zlib ->
     container_zlib b = false /\ container_start b = pos) /\
    (pos < 0 \/ Zlength peek < 2 -> success b = false).
Proof.
  intros E pos peek. unfold barmaid_parse_btw. rewrite E.
  apply parse_images_spec in E.
  destruct E as [p0 [n0 [p1 [n1 [H0 [H1 [H2 [H3 [Hb [Hd Hp]]]]]]]]]].
  destruct (parse_container fd l) as [b fil'] eqn:Ec. exists b, fil'.
  split; [reflexivity|].
  apply parse_container_fields in Ec. cbv zeta in Ec. fold pos in Ec.
  rewrite Hd in Ec. destruct Ec as [Hshort [Hzlib Hplain]].
  pose proof (Zlength_nonneg (f_data fil)) as Hnn.
  assert (Hzl : container_zlib (l_b l) = false) by (rewrite Hb; reflexivity).
  assert (Hsu : success (set_container_start (l_b l) pos) = false)
    by (rewrite Hb; reflexivity).
  destruct Hp as [[Hp1 Hp2]|[Hp1 [Hp2 Hp3]]]; fold pos in Hp1.
  - (* the skipper hit the end of the file *)
    rewrite Hd in Hp2.
    assert (Hgot : Zlength (slice (f_data fil) (f_pos (l_fil l)) 2) <> 2)
      by (rewrite Zlength_slice by lia; lia).
    apply Hshort in Hgot. subst b.
    split; [intros; lia|]. split; [intros; lia|]. intros _. exact Hsu.
  - fold pos in Hp2, Hp3. rewrite Hp3 in Hshort, Hzlib, Hplain.
    fold peek in Hshort, Hzlib, Hplain.
    split; [|split].
    + intros _ Hpeek. apply Hzlib; [rewrite Hpeek; reflexivity | exact Hpeek].
    + intros _ Hlen Hpeek. rewrite <- Hzl. apply Hplain; assumption.
    + intros [Hneg|Hlen]; [lia|].
      rewrite Hshort by lia. exact Hsu.
Qed.

Lemma is_btw_result (junk : Z -> byte) (fil : FILE) :
  fst (barmaid_is_btw junk fil) =
  let got := slice (f_data fil) (f_pos fil) (sizeof barmaid_btw_mseq_sof) in
  negb (Zlength got =? 0)
  && (memcmp junk 0 (store (uninit junk (Z.to_nat BUFF_SIZ)) 0 got)
        barmaid_btw_mseq_sof =? 0).
Proof. reflexivity. Qed.

Lemma is_btw_true (junk : Z -> byte) (fil fil' : FILE) :
  0 <= f_pos fil ->
  barmaid_is_btw junk fil = (true, fil') ->
  f_pos fil + 26 <= Zlength (f_data fil) ->
  slice (f_data fil) (f_pos fil) 26 = barmaid_btw_mseq_sof.
Proof.
  intros Hpos H Hlen. apply (f_equal fst) in H.
  rewrite is_btw_result in H. cbv zeta in H. cbn [fst] in H.
  change (sizeof barmaid_btw_mseq_sof) with 26 in H.
  revert H. generalize (uninit junk (Z.to_nat BUFF_SIZ)). intros buf H.
  pose proof (Zlength_slice (f_data fil) (f_pos fil) 26 Hpos) as Hl.
  apply andb_prop in H. destruct H as [_ H].
  apply memcmp_store_zero in H; [exact H|].
  rewrite Zlength_correct in Hl. cbn [length barmaid_btw_mseq_sof]. lia.
Qed.

(** C7: a file whose first 26 bytes are not the start signature, a file
    shorter than 26 bytes included, is rejected: [barmaid_parse_btw] returns
    a layout with [success = false], whatever else the file holds. *)
Theorem parse_btw_rejects_missing_signature (junk : nat -> Z -> byte) (fd : Z)
    (data : list byte) :
  firstn 26 data <> barmaid_btw_mseq_sof ->
  exists b fil',
    barmaid_parse_btw junk fd (fopen data) = Some (b, fil') /\ success b = false.
Proof.
  intros Hsig. unfold barmaid_parse_btw, parse_images, parse_header, bind_early.
  destruct (barmaid_is_btw (junk 0%nat) (fopen data)) as [is_btw fil1] eqn:Esig.
  destruct is_btw; cbn [negb].
  2:{ unfold return_. eauto. }
  destruct (Z.le_gt_cases 26 (Zlength data)) as [Hlen|Hlen].
  - apply is_btw_true in Esig; cbn [f_pos f_data fopen]; try lia.
    exfalso. apply Hsig. cbn [fopen f_data f_pos] in Esig.
    rewrite slice_0 in Esig. exact Esig.
  - (* a short file: the scanner starts behind its end *)
    assert (Hd : f_data fil1 = data) by (apply is_btw_data in Esig; exact Esig).
    change (sizeof barmaid_btw_mseq_sof) with 26.
    rewrite find_seq_from_offset by lia. rewrite find_chunks_S.
    destruct (fread BUFF_SIZ _) as [got fil2] eqn:Er.
    apply fread_inv in Er. cbn [f_data f_pos] in Er. destruct Er as [Hgot _].
    pose proof (Zlength_nonneg data).
    assert (Hnone : Zlength got = 0).
    { subst got. rewrite Zlength_slice by lia. rewrite Hd. unfold BUFF_SIZ. lia. }
    cbv zeta. rewrite Hnone.
    cbn [Z.eqb lift_early return_ Z.ltb Z.compare]. eauto.
Qed.

(** C4: the four bytes of a length field are decoded least significant
    byte first, whatever [blobsize] held before (02 00 00 00 is 2 and
    00 01 00 00 is 256), and an image whose length field is read at [pos]
    has the range from [pos + 4] to [pos + 4 + length]. *)
Theorem parse_image_length_little_endian :
  (forall blobsize, decode_blobsize [x02; x00; x00; x00] blobsize = 2) /\
  (forall blobsize, decode_blobsize [x00; x01; x00; x00] blobsize = 256) /\
  (forall b0 b1 b2 b3 blobsize,
     decode_blobsize [b0; b1; b2; b3] blobsize =
     byte_val b0 + 2 ^ 8 * byte_val b1 + 2 ^ 16 * byte_val b2 + 2 ^ 24 * byte_val b3) /\
  (forall junk i l b0 b1 b2 b3,
     let pos := l_start_of_blobsize l in
     0 <= pos ->
     slice (f_data (l_fil l)) pos 4 = [b0; b1; b2; b3] ->
     exists l',
       parse_image junk i l = Some (inr l') /\
       elt (png_start (l_b l')) i = pos + 4 /\
       elt (png_end (l_b l')) i =
         pos + 4 + (byte_val b0 + 2 ^ 8 * byte_val b1 + 2 ^ 16 * byte_val b2
                    + 2 ^ 24 * byte_val b3)).
Proof.
  split; [|split; [|split]].
  - intros. rewrite decode_blobsize_le. reflexivity.
  - intros. rewrite decode_blobsize_le. reflexivity.
  - exact decode_blobsize_le.
  - intros junk i l b0 b1 b2 b3 pos Hpos Hread.
    unfold parse_image. fold pos. rewrite fseek_ok by exact Hpos.
    destruct (fread 4 _) as [got fil2] eqn:Er.
    apply fread_inv in Er. cbn [f_data f_pos] in Er.
    destruct Er as [Hgot _]. rewrite Hread in Hgot. subst got.
    change (Zlength [b0; b1; b2; b3] =? 0) with false. cbv iota zeta.
    rewrite store_0, decode_blobsize_app, decode_blobsize_le.
    cbn [png_start set_png_start png_end set_png_end]. rewrite !elt_set_elt.
    pose proof (byte_val_range b0). pose proof (byte_val_range b1).
    pose proof (byte_val_range b2). pose proof (byte_val_range b3).
    match goal with |- context [barmaid_skip_padding ?j ?f ?o] =>
      destruct (skip_padding_total j f o) as [r [fil3 Hs]]; [lia|]; rewrite Hs end.
    cbn [lift_early bind_early]. eexists. split; [reflexivity|].
    cbn [l_b png_start png_end set_png_start set_png_end].
    rewrite !elt_set_elt. split; reflexivity.
Qed.

(** The skipper on two zero words and the word 00 00 00 42. *)
Example skip_padding_third_word (junk : Z -> byte) :
  option_map fst
    (barmaid_skip_padding junk
       (fopen [x00; x00; x00; x00; x00; x00; x00; x00; x00; x00; x00; x42]) 0)
  = Some 8.
Proof. reflexivity. Qed.

(** C6 at the file 00 00 00 00 42: the read at offset 4 delivers one byte
    only, and the skipper returns offset 4 instead of -1; at five zero bytes
    it returns -1 with the cursor at 5, behind the incomplete word. *)
Theorem skip_padding_accepts_partial_word :
  forall junk,
    barmaid_skip_padding junk (fopen [x00; x00; x00; x00; x42]) 0 =
      Some (4, mkFILE [x00; x00; x00; x00; x42] 4) /\
    barmaid_skip_padding junk (fopen [x00; x00; x00; x00; x00]) 0 =
      Some (-1, mkFILE [x00; x00; x00; x00; x00] 5).
Proof. intros junk. split; reflexivity. Qed.

(** C9 at [sample_btw], on a stream whose descriptor is greater than 0: the
    first run succeeds and leaves the cursor at offset 48; a second run on
    the same stream reads the signature from there and fails. *)
Theorem parse_btw_second_run_fails :
  forall junk junk' fd,
    0 < fd ->
    barmaid_parse_btw junk fd (fopen sample_btw) =
      Some (mkblobs true 30 (34, 42) (38, 46) true 48 50, mkFILE sample_btw 48) /\
    barmaid_parse_btw junk' fd (mkFILE sample_btw 48) =
      Some (blobs_init, mkFILE sample_btw 50).
Proof.
  intros junk junk' fd Hfd. split; [|vm_compute; reflexivity].
  unfold barmaid_parse_btw.
  assert (E : parse_images junk (fopen sample_btw) =
              Some (inr (mklocals (mkFILE sample_btw 46)
                           (mkblobs false 30 (34, 42) (38, 46) false (-1) (-1))
                           46 [x04; x00; x00; x00] 4)))
    by (vm_compute; reflexivity).
  rewrite E. unfold parse_container, fstat.
  destruct (Z.eqb_spec fd 0) as [Hc|_]; [lia|].
  destruct (Z.ltb_spec fd 0) as [Hc|_]; [lia|].
  vm_compute. reflexivity.
Qed.

(** ** The scanner *)

Lemma wrap_int_small (z : Z) : - 2 ^ 31 <= z < 2 ^ 31 -> wrap_int z = z.
Proof. intros H. unfold wrap_int. rewrite Z.mod_small; lia. Qed.

Lemma find_scan_lower (junk : Z -> byte) (seq : list byte) (n : nat) :
  forall addr mem i i',
    find_scan junk seq n addr mem i = Some i' -> i <= i' < i + Z.of_nat n.
Proof.
  induction n as [|n IH]; intros addr mem i i' H; [discriminate|].
  cbn [find_scan] in H.
  destruct (memcmp junk addr mem seq =? 0).
  - injection H as <-. lia.
  - apply IH in H. lia.
Qed.

Lemma find_chunks_bound (junk : Z -> byte) (seq : list byte) (offset : Z) (fuel : nat) :
  forall buf chunk_count fil r fil',
    0 <= offset ->
    Zlength (f_data fil) < 2 ^ 31 ->
    0 <= chunk_count ->
    0 <= f_pos fil ->
    f_pos fil = offset + chunk_count * 8192 \/ Zlength (f_data fil) <= f_pos fil ->
    find_chunks fuel junk seq offset buf chunk_count fil = Some (r, fil') ->
    r = -1 \/ offset <= r.
Proof.
  induction fuel as [|fuel IH]; intros buf cc fil r fil' Hoff Hsmall Hcc Hpos Hinv H;
    [discriminate|].
  rewrite find_chunks_S in H.
  destruct (fread BUFF_SIZ fil) as [got fil1] eqn:Er.
  apply fread_inv in Er. destruct Er as [Hgot [Hd Hp]]. cbv zeta in H.
  pose proof (Zlength_slice (f_data fil) (f_pos fil) BUFF_SIZ Hpos) as Hlen.
  rewrite <- Hgot in Hlen. change BUFF_SIZ with 8192 in Hlen.
  destruct (Z.eqb_spec (Zlength got) 0) as [E|E].
  - injection H as <- _. left. reflexivity.
  - assert (Hin : f_pos fil = offset + cc * 8192) by lia.
    destruct (find_scan _ _ _ _ _ _) as [i'|] eqn:Escan.
    + apply find_scan_lower in Escan.
      change BUFF_SIZ with 8192 in H.
      rewrite wrap_int_small in H by lia.
      destruct (fseek _ _) as [fil2 e]. injection H as <- _. right.
      change LONGEST_MAGIC_STRING with 32 in Escan.
      destruct (Z.eqb_spec cc 0); lia.
    + apply IH in H; try lia; try congruence.
      * rewrite wrap_int_small by lia. lia.
      * rewrite wrap_int_small by lia. rewrite Hd, Hp. lia.
Qed.

Lemma find_seq_bound (junk : Z -> byte) (fil : FILE) (offset : Z) (seq : list byte)
    (r : Z) (fil' : FILE) :
  0 <= offset ->
  Zlength (f_data fil) < 2 ^ 31 ->
  barmaid_find_seq junk fil offset seq = Some (r, fil') ->
  r = -1 \/ offset <= r.
Proof.
  intros Hoff Hsmall H. rewrite find_seq_from_offset in H by exact Hoff.
  apply find_chunks_bound in H; cbn [f_data f_pos]; try lia.
Qed.

Lemma find_chunks_total (junk : Z -> byte) (seq : list byte) (offset : Z) (fuel : nat) :
  forall buf chunk_count fil,
    0 <= f_pos fil ->
    Z.max 0 (Zlength (f_data fil) - f_pos fil) < Z.of_nat fuel ->
    exists r fil', find_chunks fuel junk seq offset buf chunk_count fil = Some (r, fil').
Proof.
  induction fuel as [|fuel IH]; intros buf cc fil Hpos Hfuel; [lia|].
  rewrite find_chunks_S.
  destruct (fread BUFF_SIZ fil) as [got fil1] eqn:Er.
  apply fread_inv in Er. destruct Er as [Hgot [Hd Hp]]. cbv zeta.
  pose proof (Zlength_slice (f_data fil) (f_pos fil) BUFF_SIZ Hpos) as Hlen.
  rewrite <- Hgot in Hlen. change BUFF_SIZ with 8192 in Hlen.
  destruct (Z.eqb_spec (Zlength got) 0) as [E|E]; [eauto|].
  destruct (find_scan _ _ _ _ _ _) as [i'|].
  - destruct (fseek _ _) as [fil2 e]. eauto.
  - apply IH; rewrite ?Hd, ?Hp; lia.
Qed.

Lemma find_seq_total (junk : Z -> byte) (fil : FILE) (offset : Z) (seq : list byte) :
  0 <= offset \/ 0 <= f_pos fil ->
  exists r fil', barmaid_find_seq junk fil offset seq = Some (r, fil').
Proof.
  intros H. pose proof (Zlength_correct (f_data fil)) as Hl.
  destruct (Z.le_gt_cases 0 offset) as [Hoff|Hoff].
  - rewrite find_seq_from_offset by exact Hoff.
    apply find_chunks_total; cbn [f_data f_pos]; lia.
  - rewrite find_seq_from_cursor by exact Hoff.
    apply find_chunks_total; lia.
Qed.

Lemma find_seq_reposition (junk : Z -> byte) (fil fil1 : FILE) (offset : Z)
    (seq : list byte) :
  0 <= offset ->
  f_data fil1 = f_data fil ->
  barmaid_find_seq junk fil1 offset seq = barmaid_find_seq junk fil offset seq.
Proof.
  intros Hoff Hd. rewrite !find_seq_from_offset by exact Hoff.
  rewrite Hd. reflexivity.
Qed.

Lemma starts_with_iff (seq : list byte) :
  forall l, starts_with seq l = true <-> firstn (length seq) l = seq.
Proof.
  induction seq as [|c seq IH]; intros l; [cbn; tauto|].
  destruct l as [|m l]; cbn [starts_with firstn length].
  - split; discriminate.
  - rewrite andb_true_iff, IH. split.
    + intros [E H]. apply Byte.byte_dec_bl in E. congruence.
    + intros H. injection H as -> H. split; [apply eqb_refl_byte | exact H].
Qed.

Lemma slice_0_length (seq l : list byte) :
  slice l 0 (Zlength seq) = firstn (length seq) l.
Proof. rewrite slice_0, Zlength_correct, Nat2Z.id. reflexivity. Qed.

Lemma first_occurrence_some (seq : list byte) :
  forall l k,
    first_occurrence seq l = Some k ->
    0 <= k /\ slice l k (Zlength seq) = seq /\
    forall p, 0 <= p < k -> slice l p (Zlength seq) <> seq.
Proof.
  induction l as [|a l IH]; intros k H; cbn [first_occurrence] in H.
  - destruct (starts_with seq []) eqn:E; [|discriminate].
    injection H as <-. apply starts_with_iff in E.
    split; [lia|]. split; [|intros; lia].
    rewrite slice_0_length. exact E.
  - destruct (starts_with seq (a :: l)) eqn:E.
    + injection H as <-. apply starts_with_iff in E.
      split; [lia|]. split; [|intros; lia].
      rewrite slice_0_length. exact E.
    + destruct (first_occurrence seq l) as [k'|]; [|discriminate].
      injection H as <-. destruct (IH k' eq_refl) as [Hk [Hs Hmin]].
      split; [lia|]. split.
      * rewrite slice_cons by lia. replace (Z.succ k' - 1) with k' by lia. exact Hs.
      * intros p Hp. destruct (Z.eq_dec p 0) as [->|Hne].
        -- intros Hc. rewrite slice_0_length in Hc.
           apply starts_with_iff in Hc. congruence.
        -- rewrite slice_cons by lia. apply Hmin. lia.
Qed.

Lemma first_occurrence_none (seq : list byte) :
  forall l,
    first_occurrence seq l = None ->
    forall p, 0 <= p -> slice l p (Zlength seq) <> seq.
Proof.
  induction l as [|a l IH]; intros H p Hp Hc; cbn [first_occurrence] in H.
  - destruct (starts_with seq []) eqn:E; [discriminate|].
    rewrite slice_firstn_skipn, skipn_nil, <- slice_0, slice_0_length in Hc.
    apply starts_with_iff in Hc. congruence.
  - destruct (starts_with seq (a :: l)) eqn:E; [discriminate|].
    destruct (first_occurrence seq l) as [k'|]; [discriminate|].
    destruct (Z.eq_dec p 0) as [->|Hne].
    + rewrite slice_0_length in Hc. apply starts_with_iff in Hc. congruence.
    + rewrite slice_cons in Hc by lia. apply (IH eq_refl (p - 1)); [lia | exact Hc].
Qed.

(** ** The scanner, chunk by chunk *)

Lemma find_chunks_read (fuel fuel' : nat) (junk : Z -> byte) (seq : list byte)
    (offset : Z) (search_buff : list byte) (chunk_count : Z) (fil : FILE)
    (got : list byte) :
  fuel = S fuel' ->
  slice (f_data fil) (f_pos fil) BUFF_SIZ = got ->
  got <> [] ->
  find_chunks fuel junk seq offset search_buff chunk_count fil =
  let fil1 := mkFILE (f_data fil) (f_pos fil + Zlength got) in
  let buf1 := store search_buff LONGEST_MAGIC_STRING got in
  let buf2 :=
    if chunk_count =? 0 then buf1
    else memmove buf1 0 BUFF_SIZ LONGEST_MAGIC_STRING in
  let i := if chunk_count =? 0 then 0 else 0 - LONGEST_MAGIC_STRING in
  let addr := LONGEST_MAGIC_STRING + i in
  match find_scan junk seq (Z.to_nat (Zlength got - i)) addr (drop addr buf2) i with
  | Some i' =>
      let pos := offset + i' + wrap_int (chunk_count * BUFF_SIZ) in
      let (fil2, _) := fseek fil1 pos in
      Some (pos, fil2)
  | None =>
      find_chunks fuel' junk seq offset buf2 (wrap_int (chunk_count + 1)) fil1
  end.
Proof.
  intros -> Hgot Hne. rewrite find_chunks_S. unfold fread. cbv zeta.
  rewrite Hgot.
  destruct (Z.eqb_spec (Zlength got) 0) as [E|E]; [|reflexivity].
  apply Zlength_nil_inv in E. contradiction.
Qed.

Lemma find_chunks_eof (fuel fuel' : nat) (junk : Z -> byte) (seq : list byte)
    (offset : Z) (search_buff : list byte) (chunk_count : Z) (fil : FILE) :
  fuel = S fuel' ->
  slice (f_data fil) (f_pos fil) BUFF_SIZ = [] ->
  find_chunks fuel junk seq offset search_buff chunk_count fil =
  Some (-1, mkFILE (f_data fil) (f_pos fil + 0)).
Proof.
  intros -> Hgot. rewrite find_chunks_S. unfold fread. cbv zeta.
  rewrite Hgot. reflexivity.
Qed.

Lemma skipn_tl {A : Type} (n : nat) (l : list A) : skipn n (tl l) = skipn (S n) l.
Proof. destruct l; [rewrite skipn_nil|]; reflexivity. Qed.

Lemma find_scan_split (junk : Z -> byte) (seq : list byte) (n1 n2 : nat) :
  forall addr mem i,
    find_scan junk seq (n1 + n2) addr mem i =
    match find_scan junk seq n1 addr mem i with
    | Some r => Some r
    | None => find_scan junk seq n2 (addr + Z.of_nat n1) (skipn n1 mem)
                (i + Z.of_nat n1)
    end.
Proof.
  induction n1 as [|n1 IH]; intros addr mem i.
  - cbn [find_scan Nat.add skipn Z.of_nat]. rewrite !Z.add_0_r. reflexivity.
  - cbn [find_scan Nat.add]. destruct (memcmp junk addr mem seq =? 0);
      [reflexivity|].
    rewrite IH, skipn_tl.
    replace (addr + 1 + Z.of_nat n1) with (addr + Z.of_nat (S n1)) by lia.
    replace (i + 1 + Z.of_nat n1) with (i + Z.of_nat (S n1)) by lia.
    reflexivity.
Qed.

(** The test [!memcmp(...)] byte by byte, in the array and behind it. *)
Lemma memcmp_cons (junk : Z -> byte) (addr : Z) (m c : byte) (mem seq : list byte) :
  (memcmp junk addr (m :: mem) (c :: seq) =? 0) =
  Byte.eqb m c && (memcmp junk (addr + 1) mem seq =? 0).
Proof.
  cbn [memcmp tl]. destruct (Byte.eqb m c) eqn:E; [reflexivity|].
  apply Byte.eqb_false in E. cbn [andb]. apply Z.eqb_neq.
  intros H. apply E. apply byte_val_inj. lia.
Qed.

Lemma memcmp_past (junk : Z -> byte) (addr : Z) (c : byte) (seq : list byte) :
  (memcmp junk addr [] (c :: seq) =? 0) =
  Byte.eqb (junk addr) c && (memcmp junk (addr + 1) [] seq =? 0).
Proof.
  cbn [memcmp tl]. destruct (Byte.eqb (junk addr) c) eqn:E; [reflexivity|].
  apply Byte.eqb_false in E. cbn [andb]. apply Z.eqb_neq.
  intros H. apply E. apply byte_val_inj. lia.
Qed.

Lemma eqb_neq_byte (a b : byte) : a <> b -> Byte.eqb a b = false.
Proof.
  intros H. destruct (Byte.eqb a b) eqn:E; [|reflexivity].
  apply Byte.byte_dec_bl in E. contradiction.
Qed.

(** The first chunk of [straddling_stream]: the marker begins in its last
    two bytes, and the comparison goes on behind the array. *)
Lemma first_chunk_misses (junk : Z -> byte) :
  junk 8224 <> x00 ->
  find_scan junk barmaid_end_mseq_png (Z.to_nat 8190 + 2) 32
    (repeat x01 (Z.to_nat 8190) ++ [x00; x00]) 0 = None.
Proof.
  intros Hjunk. rewrite find_scan_split.
  assert (E1 : find_scan junk barmaid_end_mseq_png (Z.to_nat 8190) 32
                 (repeat x01 (Z.to_nat 8190) ++ [x00; x00]) 0 = None)
    by (vm_compute; reflexivity).
  assert (E2 : skipn (Z.to_nat 8190) (repeat x01 (Z.to_nat 8190) ++ [x00; x00])
               = [x00; x00]) by (vm_compute; reflexivity).
  rewrite E1, E2.
  change (32 + Z.of_nat (Z.to_nat 8190)) with 8222.
  change (0 + Z.of_nat (Z.to_nat 8190)) with 8190.
  unfold barmaid_end_mseq_png. cbn [find_scan tl].
  rewrite !memcmp_cons, !memcmp_past.
  change (8222 + 1 + 1) with 8224. change (8222 + 1 + 1) with 8224.
  change (8222 + 1 + 1) with 8224.
  rewrite (eqb_neq_byte _ _ Hjunk). cbn [andb Byte.eqb].
  rewrite !andb_false_r. reflexivity.
Qed.

Lemma find_chunks_read_then (fuel fuel' : nat) (junk : Z -> byte) (seq : list byte)
    (offset : Z) (search_buff : list byte) (chunk_count : Z) (fil : FILE)
    (got : list byte) (r : option (Z * FILE)) :
  fuel = S fuel' ->
  slice (f_data fil) (f_pos fil) BUFF_SIZ = got ->
  got <> [] ->
  (let fil1 := mkFILE (f_data fil) (f_pos fil + Zlength got) in
   let buf1 := store search_buff LONGEST_MAGIC_STRING got in
   let buf2 :=
     if chunk_count =? 0 then buf1
     else memmove buf1 0 BUFF_SIZ LONGEST_MAGIC_STRING in
   let i := if chunk_count =? 0 then 0 else 0 - LONGEST_MAGIC_STRING in
   let addr := LONGEST_MAGIC_STRING + i in
   match find_scan junk seq (Z.to_nat (Zlength got - i)) addr (drop addr buf2) i with
   | Some i' =>
       let pos := offset + i' + wrap_int (chunk_count * BUFF_SIZ) in
       let (fil2, _) := fseek fil1 pos in
       Some (pos, fil2)
   | None =>
       find_chunks fuel' junk seq offset buf2 (wrap_int (chunk_count + 1)) fil1
   end) = r ->
  find_chunks fuel junk seq offset search_buff chunk_count fil = r.
Proof.
  intros Hf Hgot Hne <-. apply find_chunks_read; assumption.
Qed.

Ltac scan_is r :=
  match goal with
  | |- context [find_scan ?j ?s ?n ?a ?m ?i] =>
      let E := fresh "E" in
      assert (E : find_scan j s n a m i = r) by (vm_compute; reflexivity);
      rewrite E; clear E
  end.

Lemma straddling_stream_run (junk : Z -> byte) :
  junk 8224 <> x00 ->
  barmaid_find_seq junk (fopen straddling_stream) 0 barmaid_end_mseq_png =
  Some (-1, mkFILE straddling_stream 16384).
Proof.
  intros Hjunk. rewrite find_seq_from_offset by lia.
  (* the first chunk: bytes 0-8191 *)
  eapply (find_chunks_read_then _ _ _ _ _ _ _ _
            (repeat x01 (Z.to_nat 8190) ++ [x00; x00]));
    [reflexivity|vm_compute; reflexivity|discriminate|].
  cbv zeta. cbn [Z.eqb].
  match goal with
  | |- context [find_scan ?j ?s ?n ?a ?m ?i] =>
      replace m with (repeat x01 (Z.to_nat 8190) ++ [x00; x00])
        by (vm_compute; reflexivity);
      replace n with (Z.to_nat 8190 + 2)%nat by (vm_compute; reflexivity)
  end.
  change (LONGEST_MAGIC_STRING + 0) with 32.
  rewrite (first_chunk_misses junk Hjunk).
  (* the second chunk: bytes 8192-16383 *)
  eapply (find_chunks_read_then _ (Z.to_nat 16383) _ _ _ _ _ _
            (skipn 2 barmaid_end_mseq_png ++ repeat x01 (Z.to_nat 8182)));
    [vm_compute; reflexivity|vm_compute; reflexivity|discriminate|].
  cbv zeta. change (wrap_int (0 + 1) =? 0) with false. cbv iota.
  scan_is (@None Z).
  (* the end of the file *)
  rewrite (find_chunks_eof _ (Z.to_nat 16382));
    [vm_compute; reflexivity|vm_compute; reflexivity|vm_compute; reflexivity].
Qed.

(** C1 at [straddling_stream]: the PNG end marker is at bytes 8190-8201 and
    nowhere before, 12 bytes across the boundary of the first two chunks of
    a 16 KiB file, and the scanner reports -1, unless the byte the stack
    holds behind [search_buff] happens to continue the marker. *)
Theorem find_seq_misses_straddling_pattern (junk : Z -> byte) :
  junk 8224 <> x00 ->
  slice straddling_stream 8190 (Zlength barmaid_end_mseq_png) = barmaid_end_mseq_png /\
  (forall p, 0 <= p < 8190 ->
     slice straddling_stream p (Zlength barmaid_end_mseq_png) <> barmaid_end_mseq_png) /\
  option_map fst
    (barmaid_find_seq junk (fopen straddling_stream) 0 barmaid_end_mseq_png) = Some (-1).
Proof.
  intros Hjunk.
  assert (Hfirst : first_occurrence barmaid_end_mseq_png straddling_stream = Some 8190)
    by (vm_compute; reflexivity).
  apply first_occurrence_some in Hfirst. destruct Hfirst as [_ [Hat Hmin]].
  split; [exact Hat|]. split; [exact Hmin|].
  rewrite (straddling_stream_run junk Hjunk). reflexivity.
Qed.

(** When the file ends with the marker, the second chunk has ten bytes and
    leaves the tail of the first one in place: the overlap is then the right
    one and the marker is found. *)
Lemma find_seq_finds_marker_before_short_chunk (junk : Z -> byte) :
  junk 8224 <> x00 ->
  barmaid_find_seq junk
    (fopen (repeat x01 (Z.to_nat 8190) ++ barmaid_end_mseq_png)) 0
    barmaid_end_mseq_png =
  Some (8190, mkFILE (repeat x01 (Z.to_nat 8190) ++ barmaid_end_mseq_png) 8190).
Proof.
  intros Hjunk. rewrite find_seq_from_offset by lia.
  eapply (find_chunks_read_then _ _ _ _ _ _ _ _
            (repeat x01 (Z.to_nat 8190) ++ [x00; x00]));
    [reflexivity|vm_compute; reflexivity|discriminate|].
  cbv zeta. cbn [Z.eqb].
  match goal with
  | |- context [find_scan ?j ?s ?n ?a ?m ?i] =>
      replace m with (repeat x01 (Z.to_nat 8190) ++ [x00; x00])
        by (vm_compute; reflexivity);
      replace n with (Z.to_nat 8190 + 2)%nat by (vm_compute; reflexivity)
  end.
  change (LONGEST_MAGIC_STRING + 0) with 32.
  rewrite (first_chunk_misses junk Hjunk).
  eapply (find_chunks_read_then _ (Z.to_nat 8201) _ _ _ _ _ _
            (skipn 2 barmaid_end_mseq_png));
    [vm_compute; reflexivity|vm_compute; reflexivity|discriminate|].
  cbv zeta. change (wrap_int (0 + 1) =? 0) with false. cbv iota.
  scan_is (Some (-2)).
  vm_compute. reflexivity.
Qed.

(** C2 at [folded_stream]: the PNG end marker occurs nowhere in the file,
    and the scanner returns offset 8190. *)
Theorem find_seq_reports_false_offset (junk : Z -> byte) :
  (forall p, 0 <= p ->
     slice folded_stream p (Zlength barmaid_end_mseq_png) <> barmaid_end_mseq_png) /\
  option_map fst
    (barmaid_find_seq junk (fopen folded_stream) 0 barmaid_end_mseq_png) = Some 8190.
Proof.
  split.
  - apply first_occurrence_none. vm_compute. reflexivity.
  - vm_compute. reflexivity.
Qed.

(** ** The heuristic scanner *)

Lemma set_elt_set_elt (a : Z * Z) (i : nat) (v w : Z) :
  set_elt (set_elt a i v) i w = set_elt a i w.
Proof. destruct i; reflexivity. Qed.

Lemma heuristic_image_spec (junk_s junk_e : Z -> byte) (i : nat) (b : blobs)
    (offset : Z) (fil : FILE) (b' : blobs) (offset' : Z) (fil' : FILE) :
  0 <= offset ->
  Zlength (f_data fil) < 2 ^ 31 ->
  heuristic_image junk_s junk_e i (b, offset, fil) = Some (inr (b', offset', fil')) ->
  exists s e,
    offset <= s /\ s <= e /\
    b' = set_png_end (set_png_start b i s) i (e + 12) /\
    offset' = e + 12 /\
    f_data fil' = f_data fil /\
    exists f, barmaid_find_seq junk_e fil s barmaid_end_mseq_png = Some (e, f).
Proof.
  intros Hoff Hsmall H. unfold heuristic_image in H.
  destruct (barmaid_find_seq junk_s fil offset barmaid_start_mseq_png)
    as [[s fil1]|] eqn:Es; [|discriminate].
  cbn [lift_early bind_early png_start set_png_start] in H.
  rewrite elt_set_elt in H.
  destruct (Z.ltb_spec s 0) as [Hneg|Hs]; [discriminate|].
  pose proof (find_seq_data _ _ _ _ _ _ Es) as Hd1.
  apply find_seq_bound in Es; [|exact Hoff|exact Hsmall].
  destruct (barmaid_find_seq junk_e fil1 s barmaid_end_mseq_png)
    as [[e fil2]|] eqn:Ee; [|discriminate].
  cbn [lift_early bind_early png_end set_png_end] in H.
  rewrite !elt_set_elt in H.
  destruct (Z.ltb_spec e 0) as [Hneg|He]; [discriminate|].
  pose proof (find_seq_data _ _ _ _ _ _ Ee) as Hd2.
  pose proof Ee as Hb.
  apply find_seq_bound in Hb; [|exact Hs|rewrite Hd1; exact Hsmall].
  rewrite (find_seq_reposition junk_e fil fil1) in Ee by assumption.
  change (sizeof barmaid_end_mseq_png) with 12 in H.
  injection H as <- <- <-. exists s, e.
  split; [lia|]. split; [lia|]. split; [destruct i; reflexivity|].
  split; [destruct i; reflexivity|]. split; [congruence|].
  exists fil2. exact Ee.
Qed.

Lemma heuristic_image_early (junk_s junk_e : Z -> byte) (i : nat) (b : blobs)
    (offset : Z) (fil : FILE) (b' : blobs) (fil' : FILE) :
  heuristic_image junk_s junk_e i (b, offset, fil) = Some (inl (b', fil')) ->
  success b' = success b.
Proof.
  intros H. unfold heuristic_image in H.
  destruct (barmaid_find_seq junk_s fil offset barmaid_start_mseq_png)
    as [[s fil1]|]; [|discriminate].
  cbn [lift_early bind_early png_start set_png_start] in H.
  destruct (elt _ i <? 0).
  - injection H as <- _. reflexivity.
  - destruct (barmaid_find_seq junk_e fil1 _ barmaid_end_mseq_png)
      as [[e fil2]|]; [|discriminate].
    cbn [lift_early bind_early png_end set_png_end] in H.
    destruct (elt _ i <? 0); [|discriminate].
    injection H as <- _. reflexivity.
Qed.

(** A layout that [barmaid_heuristic_png] returns with [success = true] for
    a file whose length is an [int] holds two non-empty image ranges in
    order, each ending 12 bytes behind the offset the scanner returned for
    the end marker, and leaves the prefix and container fields as
    initialised. *)
Theorem heuristic_png_layout (junk : nat -> Z -> byte) (fil : FILE)
    (b : blobs) (fil' : FILE) :
  Zlength (f_data fil) <= INT_MAX ->
  barmaid_heuristic_png junk fil = Some (b, fil') ->
  success b = true ->
  0 <= elt (png_start b) 0 /\
  elt (png_start b) 0 < elt (png_end b) 0 /\
  elt (png_end b) 0 <= elt (png_start b) 1 /\
  elt (png_start b) 1 < elt (png_end b) 1 /\
  (exists f, barmaid_find_seq (junk 1%nat) fil (elt (png_start b) 0)
               barmaid_end_mseq_png
             = Some (elt (png_end b) 0 - sizeof barmaid_end_mseq_png, f)) /\
  (exists f, barmaid_find_seq (junk 3%nat) fil (elt (png_start b) 1)
               barmaid_end_mseq_png
             = Some (elt (png_end b) 1 - sizeof barmaid_end_mseq_png, f)) /\
  prefix_end b = -1 /\ container_start b = -1 /\ container_end b = -1 /\
  container_zlib b = false.
Proof.
  intros Hint H Hs.
  assert (Hsmall : Zlength (f_data fil) < 2 ^ 31) by (unfold INT_MAX in Hint; lia).
  unfold barmaid_heuristic_png, bind_early in H.
  destruct (heuristic_image (junk 0%nat) (junk 1%nat) 0 (blobs_init, 0, fil))
    as [[[b0 f0]|[[b1 o1] f1]]|] eqn:E0; try discriminate.
  - apply heuristic_image_early in E0. injection H as <- _.
    rewrite E0 in Hs. discriminate.
  - apply heuristic_image_spec in E0; [|lia|exact Hsmall].
    destruct E0 as [s0 [e0 [Hs0 [He0 [Hb1 [Ho1 [Hd1 [g0 Hf0]]]]]]]].
    destruct (heuristic_image (junk 2%nat) (junk 3%nat) 1 (b1, o1, f1))
      as [[[b2 f2]|[[b2 o2] f2]]|] eqn:E1; try discriminate.
    + apply heuristic_image_early in E1. injection H as <- _.
      rewrite E1, Hb1 in Hs. discriminate.
    + apply heuristic_image_spec in E1; [|lia|rewrite Hd1; exact Hsmall].
      destruct E1 as [s1 [e1 [Hs1 [He1 [Hb2 [Ho2 [Hd2 [g1 Hf1]]]]]]]].
      rewrite (find_seq_reposition (junk 3%nat) fil f1) in Hf1 by (lia || assumption).
      injection H as <- _. subst b2 b1 o1.
      change (sizeof barmaid_end_mseq_png) with 12.
      cbn -[Z.add Z.sub barmaid_find_seq barmaid_end_mseq_png].
      replace (e0 + 12 - 12) with e0 by lia.
      replace (e1 + 12 - 12) with e1 by lia.
      repeat split; try lia; eauto.
Qed.

(** C10 at [phantom_stream]: the heuristic succeeds and lets the first image
    end at 8202, 12 bytes behind offset 8190, where the file holds no end
    marker: the first end marker of the file is at 8218, behind the start
    marker of the second image. *)
Theorem heuristic_png_reports_phantom_end (junk : nat -> Z -> byte) :
  barmaid_heuristic_png junk (fopen phantom_stream) =
    Some (mkblobs true (-1) (0, 8202) (8202, 8230) false (-1) (-1),
          mkFILE phantom_stream 8218) /\
  slice phantom_stream (8202 - sizeof barmaid_end_mseq_png)
    (Zlength barmaid_end_mseq_png) <> barmaid_end_mseq_png /\
  slice phantom_stream 8218 (Zlength barmaid_end_mseq_png) = barmaid_end_mseq_png /\
  (forall p, 0 <= p < 8218 ->
     slice phantom_stream p (Zlength barmaid_end_mseq_png) <> barmaid_end_mseq_png).
Proof.
  assert (Hfirst : first_occurrence barmaid_end_mseq_png phantom_stream = Some 8218)
    by (vm_compute; reflexivity).
  apply first_occurrence_some in Hfirst. destruct Hfirst as [_ [Hat Hmin]].
  split; [vm_compute; reflexivity|].
  change (8202 - sizeof barmaid_end_mseq_png) with 8190.
  split; [apply (Hmin 8190); lia|].
  split; [exact Hat | exact Hmin].
Qed.

(** ** The range extractor *)

Lemma dump_chunks_S (fuel : nat) (size i : Z) (infile outfile : FILE) :
  dump_chunks (S fuel) size i infile outfile =
  if i <? size then
    let chunk := Z.min (size - i) BUFF_SIZ in
    let (got, infile1) := fread chunk infile in
    if negb (Zlength got =? chunk) then Some (false, infile1, outfile)
    else
      let (written, outfile1) := fwrite got outfile in
      if negb (written =? chunk) then Some (false, infile1, outfile1)
      else dump_chunks fuel size (wrap_size_t (i + BUFF_SIZ)) infile1 outfile1
  else Some (true, infile, outfile).
Proof. reflexivity. Qed.

Lemma wrap_size_t_small (z : Z) : 0 <= z < 2 ^ 64 -> wrap_size_t z = z.
Proof. intros H. unfold wrap_size_t. apply Z.mod_small. exact H. Qed.

Lemma firstn_plus {A : Type} (n m : nat) :
  forall l : list A, firstn n l ++ firstn m (skipn n l) = firstn (n + m) l.
Proof.
  induction n as [|n IH]; intros l; [reflexivity|].
  destruct l as [|a l]; cbn [firstn skipn Nat.add app].
  - rewrite firstn_nil. reflexivity.
  - f_equal. apply IH.
Qed.

Lemma slice_app (data : list byte) (pos n m : Z) :
  0 <= pos -> 0 <= n -> 0 <= m ->
  slice data pos n ++ slice data (pos + n) m = slice data pos (n + m).
Proof.
  intros Hp Hn Hm. rewrite !slice_firstn_skipn.
  replace (Z.to_nat (pos + n)) with (Z.to_nat n + Z.to_nat pos)%nat by lia.
  rewrite <- skipn_skipn.
  replace (Z.to_nat (n + m)) with (Z.to_nat n + Z.to_nat m)%nat by lia.
  apply firstn_plus.
Qed.

Lemma Zlength_app {A : Type} (l1 l2 : list A) :
  Zlength (l1 ++ l2) = Zlength l1 + Zlength l2.
Proof. rewrite !Zlength_correct, length_app. lia. Qed.

Lemma slice_nothing (data : list byte) (pos : Z) : slice data pos 0 = [].
Proof. rewrite slice_firstn_skipn. reflexivity. Qed.

Lemma drop_0 {A : Type} (l : list A) : drop 0 l = l.
Proof. destruct l; reflexivity. Qed.

(** Writing [bytes] behind [done], the part of the file before the cursor. *)
Lemma fwrite_append (bytes done rest : list byte) (outfile : FILE) :
  f_data outfile = done ++ rest ->
  f_pos outfile = Zlength done ->
  snd (fwrite bytes outfile) =
  mkFILE ((done ++ bytes) ++ drop (Zlength bytes) rest) (Zlength (done ++ bytes)).
Proof.
  intros Hd Hp. unfold fwrite. cbv zeta. cbn [snd]. rewrite Hd, Hp.
  rewrite take_firstn, !drop_skipn, !Zlength_correct.
  replace (Z.to_nat (Z.of_nat (length done) - Z.of_nat (length (done ++ rest))))
    with O by (rewrite length_app; lia).
  rewrite Nat2Z.id, firstn_app, Nat.sub_diag, firstn_all.
  replace (Z.to_nat (Z.of_nat (length done) + Z.of_nat (length bytes)))
    with (length done + length bytes)%nat by lia.
  rewrite skipn_app, skipn_all2 by lia.
  replace (length done + length bytes - length done)%nat with (length bytes) by lia.
  rewrite Nat2Z.id, length_app, Nat2Z.inj_add.
  cbn [firstn repeat app]. rewrite app_nil_r, <- app_assoc. reflexivity.
Qed.

Lemma fwrite_count (bytes : list byte) (outfile : FILE) :
  fst (fwrite bytes outfile) = Zlength bytes.
Proof. reflexivity. Qed.

Lemma dump_chunks_ok (src dst : list byte) (start size : Z) (fuel : nat) :
  forall i infile outfile,
    0 <= start -> 0 <= size -> 0 <= i ->
    start + size <= Zlength src ->
    size + BUFF_SIZ < 2 ^ 64 ->
    f_data infile = src ->
    f_pos infile = start + Z.min i size ->
    f_pos outfile = Z.min i size ->
    f_data outfile = slice src start (Z.min i size) ++ drop (Z.min i size) dst ->
    Z.max 0 (size - i) < Z.of_nat fuel ->
    dump_chunks fuel size i infile outfile =
    Some (true, mkFILE src (start + size),
          mkFILE (slice src start size ++ drop size dst) size).
Proof.
  induction fuel as [|fuel IH];
    intros i infile outfile Hstart Hsize Hi Hlen Hmax Hsrc Hpin Hpout Hdout Hfuel;
    [lia|].
  rewrite dump_chunks_S. change BUFF_SIZ with 8192 in *.
  destruct (Z.ltb_spec i size) as [Hlt|Hge].
  - rewrite Z.min_l in Hpin, Hpout, Hdout by lia. cbv zeta.
    set (chunk := Z.min (size - i) 8192).
    assert (Hchunk : 1 <= chunk <= 8192) by (unfold chunk; lia).
    destruct (fread chunk infile) as [got infile1] eqn:Er.
    apply fread_inv in Er. destruct Er as [Hgot [Hd1 Hp1]].
    rewrite Hsrc, Hpin in Hgot.
    assert (Hzl : Zlength got = chunk).
    { subst got. rewrite Zlength_slice by lia. unfold chunk. lia. }
    rewrite Hzl, Z.eqb_refl. cbn [negb].
    pose proof (fwrite_count got outfile) as Hw.
    assert (Hdone : Zlength (slice src start i) = i)
      by (rewrite Zlength_slice by lia; lia).
    pose proof (fwrite_append got _ _ outfile Hdout) as Ho.
    rewrite Hdone in Ho. specialize (Ho Hpout).
    destruct (fwrite got outfile) as [written outfile1].
    cbn [fst snd] in Hw, Ho. subst written outfile1.
    rewrite Hzl, Z.eqb_refl. cbn [negb].
    rewrite wrap_size_t_small by lia.
    assert (Hmin : Z.min (i + 8192) size = i + chunk) by (unfold chunk; lia).
    apply IH; try lia; cbn [f_data f_pos]; rewrite ?Hmin.
    all: try congruence.
    + rewrite Zlength_app, Hdone, Hzl. reflexivity.
    + rewrite Hgot at 1. rewrite slice_app by lia.
      rewrite !drop_skipn, skipn_skipn. do 2 f_equal. lia.
  - rewrite Z.min_r in Hpin, Hpout, Hdout by lia.
    destruct infile as [d p], outfile as [d' p']. cbn [f_data f_pos] in *.
    subst. reflexivity.
Qed.

Lemma dump_chunks_short (src dst : list byte) (start size copied : Z) (fuel : nat) :
  forall k infile outfile,
    0 <= start -> 0 <= k ->
    0 <= copied <= Z.max 0 (Zlength src - start) ->
    Z.max 0 (Zlength src - start) < copied + BUFF_SIZ ->
    Z.max 0 (Zlength src - start) < size ->
    size + BUFF_SIZ < 2 ^ 64 ->
    (exists n, copied = BUFF_SIZ * n) ->
    BUFF_SIZ * k <= copied ->
    f_data infile = src ->
    f_pos infile = start + BUFF_SIZ * k ->
    f_pos outfile = BUFF_SIZ * k ->
    f_data outfile = slice src start (BUFF_SIZ * k) ++ drop (BUFF_SIZ * k) dst ->
    copied - BUFF_SIZ * k < Z.of_nat fuel ->
    exists infile',
      dump_chunks fuel size (BUFF_SIZ * k) infile outfile =
      Some (false, infile', mkFILE (slice src start copied ++ drop copied dst) copied).
Proof.
  induction fuel as [|fuel IH];
    intros k infile outfile Hstart Hk Hcop Hrest Hsize Hmax [n Hn] Hi Hsrc Hpin Hpout
           Hdout Hfuel; [lia|].
  rewrite dump_chunks_S. change BUFF_SIZ with 8192 in *.
  destruct (Z.ltb_spec (8192 * k) size) as [Hlt|Hge]; [|lia].
  cbv zeta. set (chunk := Z.min (size - 8192 * k) 8192).
  assert (Hchunk : 1 <= chunk <= 8192) by (unfold chunk; lia).
  destruct (fread chunk infile) as [got infile1] eqn:Er.
  apply fread_inv in Er. destruct Er as [Hgot [Hd1 Hp1]].
  rewrite Hsrc, Hpin in Hgot.
  pose proof (Zlength_slice src (start + 8192 * k) chunk) as Hzl.
  rewrite <- Hgot in Hzl.
  destruct (Z.eq_dec (8192 * k) copied) as [Hend|Hmore].
  - (* the chunk that the source cannot fill *)
    destruct (Z.eqb_spec (Zlength got) chunk) as [E|E]; [unfold chunk in *; lia|].
    cbn [negb]. exists infile1.
    destruct outfile as [d p]. cbn [f_data f_pos] in *. subst d p.
    rewrite Hend. reflexivity.
  - assert (Hfull : chunk = 8192) by (unfold chunk; lia).
    assert (Hgl : Zlength got = chunk) by lia.
    rewrite Hgl, Z.eqb_refl. cbn [negb].
    pose proof (fwrite_count got outfile) as Hw.
    assert (Hdone : Zlength (slice src start (8192 * k)) = 8192 * k)
      by (rewrite Zlength_slice by lia; lia).
    pose proof (fwrite_append got _ _ outfile Hdout) as Ho.
    rewrite Hdone in Ho. specialize (Ho Hpout).
    destruct (fwrite got outfile) as [written outfile1].
    cbn [fst snd] in Hw, Ho. subst written outfile1.
    rewrite Hgl, Z.eqb_refl. cbn [negb].
    rewrite wrap_size_t_small by lia.
    replace (8192 * k + 8192) with (8192 * (k + 1)) by lia.
    apply IH; try lia; cbn [f_data f_pos]; try congruence.
    + exists n. exact Hn.
    + rewrite Zlength_app, Hdone, Hgl. lia.
    + rewrite Hgot at 1. rewrite slice_app by lia.
      rewrite !drop_skipn, skipn_skipn, Hfull.
      replace (8192 * k + 8192) with (8192 * (k + 1)) by lia.
      do 2 f_equal. lia.
Qed.

(** C8: a range inside the source is copied in full: the extractor returns
    true, the destination holds the bytes of the range from its start on
    (exactly those when it was empty), [end_ - start] of them; a range with
    an offset at or behind the end of the source makes it return false, with
    the full chunks that the source could still deliver left in the
    destination. *)
Theorem dump_file_copies_range (infile outfile : FILE) (start end_ : Z) :
  end_ <= LONG_MAX ->
  let src := f_data infile in
  let dst := f_data outfile in
  (0 <= start <= end_ -> end_ <= Zlength src ->
   Zlength (slice src start (end_ - start)) = end_ - start /\
   barmaid_dump_file infile start end_ outfile =
   Some (true, mkFILE src end_,
         mkFILE (slice src start (end_ - start) ++ drop (end_ - start) dst)
                (end_ - start))) /\
  (0 <= start -> (exists x, start <= x < end_ /\ Zlength src <= x) ->
   let copied := BUFF_SIZ * (Z.max 0 (Zlength src - start) / BUFF_SIZ) in
   exists infile',
     barmaid_dump_file infile start end_ outfile =
     Some (false, infile',
           mkFILE (slice src start copied ++ drop copied dst) copied)).
Proof.
  intros Hmax src dst. change BUFF_SIZ with 8192.
  assert (Hlong : end_ < 2 ^ 63) by (unfold LONG_MAX in Hmax; lia).
  pose proof (Zlength_correct src) as Hl.
  split.
  - intros Hrange Hend. split; [rewrite Zlength_slice by lia; lia|].
    unfold barmaid_dump_file. rewrite wrap_size_t_small by lia.
    rewrite (fseek_ok infile) by lia. rewrite (fseek_ok outfile) by lia.
    replace end_ with (start + (end_ - start)) at 2 by lia.
    apply dump_chunks_ok; cbn [f_data f_pos]; try lia; try reflexivity.
    + change BUFF_SIZ with 8192. lia.
    + rewrite Z.min_l by lia. rewrite slice_nothing, drop_0. reflexivity.
    + fold src. lia.
  - intros Hstart [x [Hx Hpast]] copied.
    unfold barmaid_dump_file. rewrite wrap_size_t_small by lia.
    rewrite (fseek_ok infile) by lia. rewrite (fseek_ok outfile) by lia.
    assert (Hc : 0 <= copied <= Z.max 0 (Zlength src - start) /\
                 Z.max 0 (Zlength src - start) < copied + 8192).
    { unfold copied. Z.div_mod_to_equations. lia. }
    destruct (dump_chunks_short src dst start (end_ - start) copied
                (S (length (f_data infile))) 0 (mkFILE src start) (mkFILE dst 0))
      as [infile' H]; cbn [f_data f_pos]; change BUFF_SIZ with 8192;
      try lia; try reflexivity.
    + eexists. reflexivity.
    + rewrite slice_nothing, drop_0. reflexivity.
    + fold src. lia.
    + exists infile'. exact H.
Qed.

(** ** No loop runs out of fuel *)

Lemma dump_chunks_total (size : Z) (fuel : nat) :
  forall i infile outfile,
    0 <= f_pos infile ->
    Z.max 0 (Zlength (f_data infile) - f_pos infile) < Z.of_nat fuel ->
    exists r, dump_chunks fuel size i infile outfile = Some r.
Proof.
  induction fuel as [|fuel IH]; intros i infile outfile Hpos Hfuel; [lia|].
  rewrite dump_chunks_S.
  destruct (Z.ltb_spec i size) as [Hlt|Hge]; [|eauto].
  cbv zeta. set (chunk := Z.min (size - i) BUFF_SIZ).
  assert (Hchunk : 1 <= chunk) by (unfold chunk, BUFF_SIZ; lia).
  destruct (fread chunk infile) as [got infile1] eqn:Er.
  apply fread_inv in Er. destruct Er as [Hgot [Hd1 Hp1]].
  pose proof (Zlength_slice (f_data infile) (f_pos infile) chunk Hpos) as Hzl.
  rewrite <- Hgot in Hzl.
  destruct (Zlength got =? chunk) eqn:E; cbn [negb]; [|eauto].
  apply Z.eqb_eq in E.
  destruct (fwrite got outfile) as [written outfile1].
  destruct (negb (written =? chunk)); [eauto|].
  apply IH; rewrite ?Hd1, ?Hp1; lia.
Qed.

Lemma dump_file_total (infile outfile : FILE) (start end_ : Z) :
  0 <= start \/ 0 <= f_pos infile ->
  exists r, barmaid_dump_file infile start end_ outfile = Some r.
Proof.
  intros H. unfold barmaid_dump_file.
  pose proof (Zlength_correct (f_data infile)) as Hl.
  destruct (fseek outfile 0) as [outfile0 e0].
  destruct (Z.le_gt_cases 0 start) as [Hs|Hs].
  - rewrite fseek_ok by exact Hs. apply dump_chunks_total; cbn [f_data f_pos]; lia.
  - rewrite fseek_negative by exact Hs. apply dump_chunks_total; lia.
Qed.

Lemma parse_image_total (junk : Z -> byte) (i : nat) (l : locals) :
  -1 <= l_start_of_blobsize l ->
  exists r, parse_image junk i l = Some r.
Proof.
  intros Hsob. unfold parse_image.
  destruct (fseek (l_fil l) (l_start_of_blobsize l)) as [fil1 e].
  destruct (fread 4 fil1) as [got fil2].
  destruct (Zlength got =? 0); [unfold return_; eauto|].
  cbv zeta. cbn [png_start set_png_start png_end set_png_end].
  rewrite !elt_set_elt.
  match goal with |- context [decode_blobsize ?bf ?bs] =>
    pose proof (decode_blobsize_nonneg bf bs) as Hn end.
  match goal with |- context [barmaid_skip_padding ?j ?f ?o] =>
    destruct (skip_padding_total j f o) as [r [fil3 Hs]]; [lia|]; rewrite Hs end.
  cbn [lift_early bind_early]. eauto.
Qed.

Lemma parse_btw_total (junk : nat -> Z -> byte) (fd : Z) (fil : FILE) :
  exists r, barmaid_parse_btw junk fd fil = Some r.
Proof.
  unfold barmaid_parse_btw.
  assert (H : exists r, parse_images junk fil = Some r).
  { unfold parse_images, bind_early.
    destruct (parse_header junk fil) as [[[b0 fil0]|l0]|] eqn:E0; [eauto| |].
    - pose proof E0 as Hp. apply parse_header_spec in Hp.
      destruct Hp as [_ [_ Hp]].
      destruct (parse_image_total (junk 4%nat) 0 l0) as [r1 E1].
      { destruct Hp as [[Hp _]|[Hp _]]; lia. }
      rewrite E1. destruct r1 as [[b1 fil1]|l1]; [eauto|].
      apply (parse_image_spec _ _ _ _ 4) in E1; [|lia|exact Hp].
      destruct E1 as [n [Hn [Hlo [_ [_ Hp1]]]]].
      apply parse_image_total. destruct Hp1 as [[Hp1 _]|[Hp1 _]]; lia.
    - exfalso. unfold parse_header in E0.
      destruct (barmaid_is_btw (junk 0%nat) fil) as [is_btw fil1].
      destruct (negb is_btw); [discriminate|].
      change (sizeof barmaid_btw_mseq_sof) with 26 in E0.
      destruct (find_seq_total (junk 1%nat) fil1 26 barmaid_btw_end_of_meta)
        as [found [fil2 Ef]]; [lia|].
      rewrite Ef in E0. cbn [lift_early bind_early] in E0.
      destruct (Z.ltb_spec found 0); [discriminate|].
      change (sizeof barmaid_btw_end_of_meta) with 4 in E0.
      destruct (skip_padding_total (junk 2%nat) fil2 (found + 4))
        as [sob [fil3 Es]]; [lia|].
      rewrite Es in E0. discriminate. }
  destruct H as [[[b0 fil0]|l] H]; rewrite H; eauto.
Qed.

Lemma heuristic_image_total (junk_s junk_e : Z -> byte) (i : nat) (b : blobs)
    (offset : Z) (fil : FILE) :
  0 <= offset ->
  exists r, heuristic_image junk_s junk_e i (b, offset, fil) = Some r.
Proof.
  intros Hoff. unfold heuristic_image.
  destruct (find_seq_total junk_s fil offset barmaid_start_mseq_png)
    as [s [fil1 Es]]; [lia|].
  rewrite Es. cbn [lift_early bind_early png_start set_png_start].
  rewrite elt_set_elt.
  destruct (Z.ltb_spec s 0); [unfold return_; eauto|].
  destruct (find_seq_total junk_e fil1 s barmaid_end_mseq_png)
    as [e [fil2 Ee]]; [lia|].
  rewrite Ee. cbn [lift_early bind_early png_end set_png_end].
  destruct (elt _ i <? 0); [unfold return_; eauto|]. eauto.
Qed.

Lemma heuristic_image_next (junk_s junk_e : Z -> byte) (i : nat)
    (st : blobs * Z * FILE) (b' : blobs) (offset' : Z) (fil' : FILE) :
  heuristic_image junk_s junk_e i st = Some (inr (b', offset', fil')) ->
  0 <= offset'.
Proof.
  destruct st as [[b offset] fil]. intros H. unfold heuristic_image in H.
  destruct (barmaid_find_seq junk_s fil offset barmaid_start_mseq_png)
    as [[s fil1]|]; [|discriminate].
  cbn [lift_early bind_early png_start set_png_start] in H.
  destruct (elt _ i <? 0); [discriminate|].
  destruct (barmaid_find_seq junk_e fil1 _ barmaid_end_mseq_png)
    as [[e fil2]|]; [|discriminate].
  cbn [lift_early bind_early png_end set_png_end] in H.
  rewrite !elt_set_elt in H.
  destruct (Z.ltb_spec e 0); [discriminate|].
  change (sizeof barmaid_end_mseq_png) with 12 in H.
  injection H as _ <- _. lia.
Qed.

Lemma heuristic_png_total (junk : nat -> Z -> byte) (fil : FILE) :
  exists r, barmaid_heuristic_png junk fil = Some r.
Proof.
  unfold barmaid_heuristic_png, bind_early.
  destruct (heuristic_image_total (junk 0%nat) (junk 1%nat) 0 blobs_init 0 fil)
    as [r0 E0]; [lia|].
  rewrite E0. destruct r0 as [[b0 f0]|[[b1 o1] f1]]; [eauto|].
  apply heuristic_image_next in E0.
  destruct (heuristic_image_total (junk 2%nat) (junk 3%nat) 1 b1 o1 f1)
    as [r1 E1]; [exact E0|].
  rewrite E1. destruct r1 as [[b2 f2]|[[b2 o2] f2]]; eauto.
Qed.

(** ** The scanner on one chunk *)

Lemma length_uninit_from (junk : Z -> byte) (n : nat) :
  forall i, length (uninit_from junk i n) = n.
Proof.
  induction n as [|n IH]; intros i; cbn [uninit_from length]; [reflexivity|].
  rewrite IH. reflexivity.
Qed.

Lemma Zlength_search_buff (junk : Z -> byte) :
  Zlength (uninit junk (Z.to_nat (BUFF_SIZ + LONGEST_MAGIC_STRING))) =
  BUFF_SIZ + LONGEST_MAGIC_STRING.
Proof.
  unfold uninit. rewrite Zlength_correct, length_uninit_from.
  apply Z2Nat.id. unfold BUFF_SIZ, LONGEST_MAGIC_STRING. lia.
Qed.

(** The scanned part of [search_buff] after the chunk has been read. *)
Lemma drop_store (buf got : list byte) (dst : Z) :
  0 <= dst <= Zlength buf ->
  drop dst (store buf dst got) = got ++ drop (dst + Zlength got) buf.
Proof.
  intros H. unfold store. rewrite !drop_skipn, take_firstn.
  rewrite Zlength_correct in H.
  rewrite skipn_app, length_firstn.
  replace (Nat.min (Z.to_nat dst) (length buf)) with (Z.to_nat dst) by lia.
  rewrite Nat.sub_diag. cbn [skipn].
  rewrite skipn_all2 by (rewrite length_firstn; lia). reflexivity.
Qed.

Lemma memcmp_real (junk : Z -> byte) (seq : list byte) (addr : Z) (mem : list byte) :
  (length seq <= length mem)%nat ->
  memcmp junk addr mem seq = 0 <-> firstn (length seq) mem = seq.
Proof.
  intros Hlen. split.
  - apply memcmp_zero. exact Hlen.
  - intros H. rewrite <- (firstn_skipn (length seq) mem), H. apply memcmp_prefix.
Qed.

Lemma find_scan_first (junk : Z -> byte) (seq : list byte) (k : nat) :
  forall n addr mem i,
    (k < n)%nat ->
    (forall j, (j < k)%nat ->
       memcmp junk (addr + Z.of_nat j) (skipn j mem) seq <> 0) ->
    memcmp junk (addr + Z.of_nat k) (skipn k mem) seq = 0 ->
    find_scan junk seq n addr mem i = Some (i + Z.of_nat k).
Proof.
  induction k as [|k IH]; intros n addr mem i Hn Hbefore Hat;
    (destruct n as [|n]; [lia|]); cbn [find_scan].
  - cbn [skipn Z.of_nat] in Hat. rewrite Z.add_0_r in Hat.
    rewrite Hat. cbn [Z.eqb]. rewrite Z.add_0_r. reflexivity.
  - pose proof (Hbefore O ltac:(lia)) as H0.
    cbn [skipn Z.of_nat] in H0. rewrite Z.add_0_r in H0.
    apply Z.eqb_neq in H0. rewrite H0.
    rewrite (IH n (addr + 1) (tl mem) (i + 1)).
    + f_equal. lia.
    + lia.
    + intros j Hj. specialize (Hbefore (S j) ltac:(lia)).
      rewrite skipn_tl. replace (addr + 1 + Z.of_nat j) with (addr + Z.of_nat (S j)) by lia.
      exact Hbefore.
    + rewrite skipn_tl. replace (addr + 1 + Z.of_nat k) with (addr + Z.of_nat (S k)) by lia.
      exact Hat.
Qed.

(** A window of a chunk is the window of the file. *)
Lemma window_of_chunk (data tail : list byte) (pos n j len : Z) :
  0 <= pos -> 0 <= j -> 0 <= len -> j + len <= Zlength (slice data pos n) ->
  firstn (Z.to_nat len) (skipn (Z.to_nat j) (slice data pos n ++ tail)) =
  slice data (pos + j) len.
Proof.
  intros Hpos Hj Hlen Hfit.
  rewrite Zlength_correct in Hfit.
  rewrite skipn_app, firstn_app, length_skipn.
  replace (Z.to_nat len - (length (slice data pos n) - Z.to_nat j))%nat with O by lia.
  replace (Z.to_nat j - length (slice data pos n))%nat with O by lia.
  cbn [firstn skipn]. rewrite app_nil_r.
  rewrite !slice_firstn_skipn in *. rewrite length_firstn in Hfit.
  rewrite skipn_firstn_comm, firstn_firstn, skipn_skipn.
  replace (Z.to_nat j + Z.to_nat pos)%nat with (Z.to_nat (pos + j)) by lia.
  f_equal. lia.
Qed.

Lemma find_chunks_first_chunk (junk : Z -> byte) (seq : list byte) (offset : Z)
    (buf : list byte) (fil : FILE) (p : Z) (fuel : nat) :
  let data := f_data fil in
  let len := Zlength seq in
  LONGEST_MAGIC_STRING <= Zlength buf ->
  seq <> [] ->
  0 <= f_pos fil <= p ->
  p + len <= f_pos fil + BUFF_SIZ ->
  slice data p len = seq ->
  (forall q, f_pos fil <= q < p -> slice data q len <> seq) ->
  find_chunks (S fuel) junk seq offset buf 0 fil =
  let pos := offset + (p - f_pos fil) in
  Some (pos, fst (fseek (mkFILE data (Z.min (Zlength data) (f_pos fil + BUFF_SIZ))) pos)).
Proof.
  intros data len Hbuf Hne Hpos Hfit Hat Hbefore.
  assert (Hlen : 0 < len).
  { unfold len. destruct seq; [contradiction|]. rewrite Zlength_cons.
    pose proof (Zlength_nonneg seq). lia. }
  assert (Hend : p + len <= Zlength data).
  { pose proof (Zlength_slice data p len ltac:(lia)) as Hs. rewrite Hat in Hs.
    fold len in Hs. lia. }
  rewrite find_chunks_S. unfold fread. fold data.
  set (got := slice data (f_pos fil) BUFF_SIZ).
  assert (Hgot : Zlength got = Z.min BUFF_SIZ (Zlength data - f_pos fil)).
  { unfold got. rewrite Zlength_slice by lia. unfold BUFF_SIZ in *. lia. }
  cbv zeta. destruct (Z.eqb_spec (Zlength got) 0) as [E|E];
    [unfold BUFF_SIZ in *; lia|].
  cbn [Z.eqb]. rewrite Z.add_0_r, Z.sub_0_r.
  rewrite drop_store by (pose proof (Zlength_nonneg buf); unfold LONGEST_MAGIC_STRING in *; lia).
  rewrite (find_scan_first junk seq (Z.to_nat (p - f_pos fil))).
  - rewrite Z2Nat.id by lia. cbn [f_data f_pos].
    replace (f_pos fil + Zlength got) with (Z.min (Zlength data) (f_pos fil + BUFF_SIZ))
      by lia.
    change (wrap_int (0 * BUFF_SIZ)) with 0. rewrite Z.add_0_r.
    destruct (fseek _ _) as [fil2 e]. reflexivity.
  - unfold BUFF_SIZ in *. lia.
  - intros j Hj Hc. apply memcmp_real in Hc.
    2:{ rewrite length_skipn, length_app.
        pose proof (Zlength_correct got). pose proof (Zlength_correct seq).
        fold len in H0. unfold BUFF_SIZ in *. lia. }
    apply (Hbefore (f_pos fil + Z.of_nat j)); [lia|].
    etransitivity; [|exact Hc]. symmetry.
    replace (length seq) with (Z.to_nat len) by (unfold len; rewrite Zlength_correct; lia).
    rewrite <- (Nat2Z.id j) at 1.
    unfold got. rewrite window_of_chunk; [reflexivity| lia | lia | lia |].
    fold got. unfold BUFF_SIZ in *. lia.
  - apply memcmp_real.
    { rewrite length_skipn, length_app.
      pose proof (Zlength_correct got). pose proof (Zlength_correct seq).
      fold len in H0. unfold BUFF_SIZ in *. lia. }
    replace (length seq) with (Z.to_nat len) by (unfold len; rewrite Zlength_correct; lia).
    unfold got. rewrite window_of_chunk; [|lia|lia|lia|].
    + replace (f_pos fil + (p - f_pos fil)) with p by lia. exact Hat.
    + fold got. unfold BUFF_SIZ in *. lia.
Qed.

Lemma Zlength_nonempty (seq : list byte) : seq <> [] -> 0 < Zlength seq.
Proof.
  intros H. destruct seq; [contradiction|]. rewrite Zlength_cons.
  pose proof (Zlength_nonneg seq). lia.
Qed.

Lemma occurrence_fits (data seq : list byte) (p : Z) :
  0 <= p -> seq <> [] -> slice data p (Zlength seq) = seq ->
  p + Zlength seq <= Zlength data.
Proof.
  intros Hp Hne Hat. pose proof (Zlength_slice data p (Zlength seq) Hp) as Hs.
  rewrite Hat in Hs. pose proof (Zlength_nonempty seq Hne). lia.
Qed.

(** The scanner on a sequence that ends within the first chunk, from
    [offset] or, if that is negative, from the cursor. *)
Lemma find_seq_first_chunk (junk : Z -> byte) (fil : FILE) (offset : Z)
    (seq : list byte) (p : Z) :
  let data := f_data fil in
  let start := if offset >=? 0 then offset else f_pos fil in
  let pos := offset + (p - start) in
  seq <> [] ->
  0 <= start <= p ->
  p + Zlength seq <= start + BUFF_SIZ ->
  slice data p (Zlength seq) = seq ->
  (forall q, start <= q < p -> slice data q (Zlength seq) <> seq) ->
  barmaid_find_seq junk fil offset seq =
  Some (pos, fst (fseek (mkFILE data (Z.min (Zlength data) (start + BUFF_SIZ))) pos)).
Proof.
  intros data start pos Hne Hoff Hfit Hat Hbefore.
  assert (Hbuf : LONGEST_MAGIC_STRING <=
                 Zlength (uninit junk (Z.to_nat (BUFF_SIZ + LONGEST_MAGIC_STRING)))).
  { rewrite Zlength_search_buff. unfold BUFF_SIZ, LONGEST_MAGIC_STRING. lia. }
  subst start pos. destruct (Z.geb_spec offset 0) as [Hge|Hlt].
  - rewrite find_seq_from_offset by lia.
    etransitivity;
      [apply (find_chunks_first_chunk junk seq offset _ (mkFILE data offset) p);
       cbn [f_data f_pos]; assumption || lia|].
    reflexivity.
  - rewrite find_seq_from_cursor by lia.
    etransitivity;
      [apply (find_chunks_first_chunk junk seq offset _ fil p);
       cbn [f_data f_pos]; assumption || lia|].
    reflexivity.
Qed.

(** X1: a pattern whose first occurrence at or after [offset] ends within the
    first 8192 bytes behind [offset] is found there. *)
Theorem find_seq_finds_pattern_in_first_chunk (junk : Z -> byte) (fil : FILE)
    (offset : Z) (seq : list byte) (p : Z) :
  let data := f_data fil in
  seq <> [] ->
  0 <= offset <= p ->
  p + Zlength seq <= offset + BUFF_SIZ ->
  slice data p (Zlength seq) = seq ->
  (forall q, offset <= q < p -> slice data q (Zlength seq) <> seq) ->
  barmaid_find_seq junk fil offset seq = Some (p, mkFILE data p).
Proof.
  intros data Hne Hoff Hfit Hat Hbefore.
  pose proof (find_seq_first_chunk junk fil offset seq p) as H. cbv zeta in H.
  destruct (Z.geb_spec offset 0) as [_|Hlt]; [|lia].
  rewrite H; try assumption.
  replace (offset + (p - offset)) with p by lia. rewrite fseek_ok by lia.
  reflexivity.
Qed.

(** X2: with a negative [offset] the scanner does not seek: it searches from
    the cursor, and a sequence that first occurs [d] bytes behind the cursor
    (and ends within the first chunk) is reported as [offset + d], where the
    cursor is moved if that is not negative. *)
Theorem find_seq_negative_offset_scans_from_cursor (junk : Z -> byte) (fil : FILE)
    (offset : Z) (seq : list byte) (p : Z) :
  let data := f_data fil in
  let cur := f_pos fil in
  offset < 0 ->
  seq <> [] ->
  0 <= cur <= p ->
  p + Zlength seq <= cur + BUFF_SIZ ->
  slice data p (Zlength seq) = seq ->
  (forall q, cur <= q < p -> slice data q (Zlength seq) <> seq) ->
  barmaid_find_seq junk fil offset seq =
  Some (offset + (p - cur),
        mkFILE data (if offset + (p - cur) <? 0
                     then Z.min (Zlength data) (cur + BUFF_SIZ)
                     else offset + (p - cur))).
Proof.
  intros data cur Hneg Hne Hcur Hfit Hat Hbefore.
  pose proof (find_seq_first_chunk junk fil offset seq p) as H. cbv zeta in H.
  destruct (Z.geb_spec offset 0) as [Hge|_]; [lia|].
  rewrite H by assumption. fold data cur. unfold fseek.
  destruct (offset + (p - cur) <? 0); reflexivity.
Qed.

(** ** What the scanner returns *)

Lemma find_chunks_range (junk : Z -> byte) (seq : list byte) (offset : Z) (fuel : nat) :
  forall buf chunk_count fil r fil',
    0 <= offset ->
    Zlength (f_data fil) < 2 ^ 31 ->
    0 <= chunk_count ->
    offset <= f_pos fil <= Z.max offset (Zlength (f_data fil)) ->
    f_pos fil = offset + chunk_count * 8192 \/ Zlength (f_data fil) <= f_pos fil ->
    find_chunks fuel junk seq offset buf chunk_count fil = Some (r, fil') ->
    (r = -1 /\ f_pos fil' = Z.max offset (Zlength (f_data fil))) \/
    (offset <= r < Zlength (f_data fil) /\ f_pos fil' = r).
Proof.
  induction fuel as [|fuel IH]; intros buf cc fil r fil' Hoff Hsmall Hcc Hpos Hinv H;
    [discriminate|].
  rewrite find_chunks_S in H.
  destruct (fread BUFF_SIZ fil) as [got fil1] eqn:Er.
  apply fread_inv in Er. destruct Er as [Hgot [Hd Hp]]. cbv zeta in H.
  pose proof (Zlength_slice (f_data fil) (f_pos fil) BUFF_SIZ ltac:(lia)) as Hlen.
  rewrite <- Hgot in Hlen. change BUFF_SIZ with 8192 in Hlen.
  destruct (Z.eqb_spec (Zlength got) 0) as [E|E].
  - injection H as <- <-. left. split; [reflexivity|]. lia.
  - assert (Hin : f_pos fil = offset + cc * 8192) by lia.
    destruct (find_scan _ _ _ _ _ _) as [i'|] eqn:Escan.
    + apply find_scan_lower in Escan.
      change BUFF_SIZ with 8192 in H.
      rewrite wrap_int_small in H by lia.
      change LONGEST_MAGIC_STRING with 32 in Escan.
      assert (Hr : offset <= offset + i' + cc * 8192 < Zlength (f_data fil))
        by (destruct (Z.eqb_spec cc 0); lia).
      rewrite fseek_ok in H by lia.
      injection H as <- <-. right. split; [exact Hr | reflexivity].
    + apply IH in H; try lia.
      * rewrite Hd in H. exact H.
      * rewrite Hd. exact Hsmall.
      * rewrite wrap_int_small by lia. lia.
      * rewrite Hd, Hp. lia.
      * rewrite wrap_int_small by lia. rewrite Hd, Hp. lia.
Qed.

(** X3: on a file of at most [INT_MAX] bytes and from an [offset] that is
    not negative, the scanner returns; it leaves the file as it is and
    reports either -1, with the cursor at the end of the file (or at
    [offset], if that is behind the end), or an offset in [offset, length),
    with the cursor there. *)
Theorem find_seq_result_in_file (junk : Z -> byte) (fil : FILE) (offset : Z)
    (seq : list byte) :
  0 <= offset ->
  Zlength (f_data fil) <= INT_MAX ->
  exists r fil',
    barmaid_find_seq junk fil offset seq = Some (r, fil') /\
    f_data fil' = f_data fil /\
    ((r = -1 /\ f_pos fil' = Z.max offset (Zlength (f_data fil))) \/
     (offset <= r < Zlength (f_data fil) /\ f_pos fil' = r)).
Proof.
  intros Hoff Hint.
  assert (Hsmall : Zlength (f_data fil) < 2 ^ 31) by (unfold INT_MAX in Hint; lia).
  destruct (find_seq_total junk fil offset seq) as [r [fil' H]]; [lia|].
  exists r, fil'. split; [exact H|]. split; [exact (find_seq_data _ _ _ _ _ _ H)|].
  rewrite find_seq_from_offset in H by exact Hoff.
  apply find_chunks_range in H; cbn [f_data f_pos] in *; try lia.
Qed.

(** ** The scanner inside the chunks *)

Lemma find_scan_some (junk : Z -> byte) (seq : list byte) (n : nat) :
  forall addr mem i i',
    find_scan junk seq n addr mem i = Some i' ->
    memcmp junk (addr + (i' - i)) (skipn (Z.to_nat (i' - i)) mem) seq = 0.
Proof.
  induction n as [|n IH]; intros addr mem i i' H; [discriminate|].
  cbn [find_scan] in H.
  destruct (Z.eqb_spec (memcmp junk addr mem seq) 0) as [E|E].
  - injection H as <-. rewrite Z.sub_diag, Z.add_0_r. exact E.
  - pose proof (find_scan_lower _ _ _ _ _ _ _ H) as Hlow.
    apply IH in H. rewrite skipn_tl in H.
    replace (S (Z.to_nat (i' - (i + 1)))) with (Z.to_nat (i' - i)) in H by lia.
    replace (addr + 1 + (i' - (i + 1))) with (addr + (i' - i)) in H by lia.
    exact H.
Qed.

Lemma find_scan_hit (junk : Z -> byte) (seq : list byte) (k : nat) :
  forall n addr mem i,
    (k < n)%nat ->
    memcmp junk (addr + Z.of_nat k) (skipn k mem) seq = 0 ->
    exists i', find_scan junk seq n addr mem i = Some i' /\ i <= i' <= i + Z.of_nat k.
Proof.
  induction k as [|k IH]; intros n addr mem i Hn Hat;
    (destruct n as [|n]; [lia|]); cbn [find_scan].
  - cbn [skipn Z.of_nat] in Hat. rewrite Z.add_0_r in Hat.
    rewrite Hat. cbn [Z.eqb]. exists i. split; [reflexivity | lia].
  - destruct (memcmp junk addr mem seq =? 0).
    + exists i. split; [reflexivity | lia].
    + destruct (IH n (addr + 1) (tl mem) (i + 1)) as [i' [H1 H2]]; [lia| |].
      * rewrite skipn_tl.
        replace (addr + 1 + Z.of_nat k) with (addr + Z.of_nat (S k)) by lia.
        exact Hat.
      * exists i'. split; [exact H1 | lia].
Qed.

Lemma Zlength_store (buf got : list byte) (dst : Z) :
  0 <= dst -> dst + Zlength got <= Zlength buf ->
  Zlength (store buf dst got) = Zlength buf.
Proof.
  intros Hd Hfit. unfold store. rewrite take_firstn, drop_skipn.
  rewrite !Zlength_correct in *.
  rewrite !length_app, length_firstn, length_skipn. lia.
Qed.

Lemma drop_drop {A : Type} (l : list A) (a b : Z) :
  0 <= a -> 0 <= b -> drop a (drop b l) = drop (a + b) l.
Proof.
  intros Ha Hb. rewrite !drop_skipn, skipn_skipn. f_equal. lia.
Qed.

Lemma Zlength_take_drop (buf : list byte) (src n : Z) :
  0 <= src -> 0 <= n -> src + n <= Zlength buf ->
  Zlength (take n (drop src buf)) = n.
Proof.
  intros Hs Hn Hfit. rewrite take_firstn, drop_skipn.
  rewrite !Zlength_correct in *. rewrite length_firstn, length_skipn. lia.
Qed.

Lemma drop_store_0 (buf bytes : list byte) :
  drop (Zlength bytes) (store buf 0 bytes) = drop (Zlength bytes) buf.
Proof.
  rewrite store_0, !drop_skipn, Zlength_correct, Nat2Z.id.
  rewrite skipn_app, skipn_all, Nat.sub_diag. reflexivity.
Qed.

(** What the scan of one chunk looks at: for a chunk that is not the first,
    32 positions in the overlap area, then, as for the first chunk, the
    positions of the chunk itself. *)
Lemma chunk_scan (junk : Z -> byte) (seq buf got : list byte) (cc : Z) :
  Zlength buf = BUFF_SIZ + LONGEST_MAGIC_STRING ->
  0 < Zlength got <= BUFF_SIZ ->
  let read := Zlength got in
  let buf1 := store buf LONGEST_MAGIC_STRING got in
  let buf2 :=
    if cc =? 0 then buf1 else memmove buf1 0 BUFF_SIZ LONGEST_MAGIC_STRING in
  let i := if cc =? 0 then 0 else 0 - LONGEST_MAGIC_STRING in
  let addr := LONGEST_MAGIC_STRING + i in
  Zlength buf2 = BUFF_SIZ + LONGEST_MAGIC_STRING /\
  find_scan junk seq (Z.to_nat (read - i)) addr (drop addr buf2) i =
  match (if cc =? 0 then None else find_scan junk seq 32 0 buf2 (-32)) with
  | Some r => Some r
  | None => find_scan junk seq (Z.to_nat read) 32
              (got ++ drop (LONGEST_MAGIC_STRING + read) buf) 0
  end.
Proof.
  intros Hbuf Hgot read buf1 buf2 i addr.
  change BUFF_SIZ with 8192 in *. change LONGEST_MAGIC_STRING with 32 in *.
  assert (Hb1 : Zlength buf1 = 8224)
    by (unfold buf1; rewrite Zlength_store; lia).
  assert (Hd1 : drop 32 buf1 = got ++ drop (32 + read) buf)
    by (unfold buf1; apply drop_store; lia).
  subst buf2 i addr. destruct (Z.eqb_spec cc 0) as [E|E].
  - split; [exact Hb1|]. cbn [Z.add]. rewrite Z.sub_0_r, Hd1. reflexivity.
  - assert (Hov : Zlength (take 32 (drop 8192 buf1)) = 32)
      by (apply Zlength_take_drop; lia).
    split.
    + unfold memmove. rewrite Zlength_store; lia.
    + change (32 + (0 - 32)) with 0. rewrite drop_0.
      replace (Z.to_nat (read - (0 - 32))) with (32 + Z.to_nat read)%nat by lia.
      rewrite find_scan_split.
      destruct (find_scan junk seq 32 0 _ (0 - 32)) as [r|] eqn:Eo.
      * change (0 - 32) with (-32) in Eo. rewrite Eo. reflexivity.
      * change (0 - 32) with (-32) in Eo. rewrite Eo.
        change (0 + Z.of_nat 32) with 32. change (0 - 32 + Z.of_nat 32) with 0.
        f_equal. rewrite <- Hd1.
        change (skipn 32) with (@skipn byte (Z.to_nat 32)).
        rewrite <- drop_skipn. unfold memmove.
        rewrite <- Hov at 1. rewrite drop_store_0, Hov. reflexivity.
Qed.

(** The comparison at position [j] of a chunk, when the sequence ends inside
    the chunk, compares the sequence with the bytes of the file. *)
Lemma memcmp_in_chunk (junk : Z -> byte) (seq data tail : list byte)
    (pos j addr : Z) :
  0 <= pos -> 0 <= j ->
  j + Zlength seq <= Zlength (slice data pos BUFF_SIZ) ->
  memcmp junk addr (skipn (Z.to_nat j) (slice data pos BUFF_SIZ ++ tail)) seq = 0
  <-> slice data (pos + j) (Zlength seq) = seq.
Proof.
  intros Hpos Hj Hfit.
  pose proof (Zlength_nonneg seq) as Hl.
  rewrite memcmp_real.
  - replace (length seq) with (Z.to_nat (Zlength seq))
      by (rewrite Zlength_correct; lia).
    rewrite window_of_chunk by lia. reflexivity.
  - rewrite length_skipn, length_app.
    rewrite !Zlength_correct in Hfit. lia.
Qed.

Lemma find_chunks_sound (junk : Z -> byte) (seq : list byte) (offset : Z) (fuel : nat) :
  forall buf cc fil r fil',
    0 <= offset ->
    Zlength (f_data fil) < 2 ^ 31 ->
    0 <= cc ->
    Zlength buf = BUFF_SIZ + LONGEST_MAGIC_STRING ->
    f_pos fil = offset + cc * 8192 \/ Zlength (f_data fil) <= f_pos fil ->
    0 <= f_pos fil ->
    find_chunks fuel junk seq offset buf cc fil = Some (r, fil') ->
    0 <= r ->
    (r - offset) mod 8192 < 8160 ->
    (r - offset) mod 8192 + Zlength seq <= 8192 ->
    r + Zlength seq <= Zlength (f_data fil) ->
    slice (f_data fil) r (Zlength seq) = seq.
Proof.
  induction fuel as [|fuel IH];
    intros buf cc fil r fil' Hoff Hsmall Hcc Hbuf Hinv Hpos H Hr Hmod Hfit Hend;
    [discriminate|].
  rewrite find_chunks_S in H.
  destruct (fread BUFF_SIZ fil) as [got fil1] eqn:Er.
  apply fread_inv in Er. destruct Er as [Hgot [Hd Hp]]. cbv zeta in H.
  pose proof (Zlength_slice (f_data fil) (f_pos fil) BUFF_SIZ Hpos) as Hlen.
  rewrite <- Hgot in Hlen.
  destruct (Z.eqb_spec (Zlength got) 0) as [E|E].
  { injection H as <- _. lia. }
  assert (Hin : f_pos fil = offset + cc * 8192)
    by (change BUFF_SIZ with 8192 in Hlen; lia).
  destruct (chunk_scan junk seq buf got cc Hbuf) as [Hb2 Hscan];
    [change BUFF_SIZ with 8192 in *; lia|].
  cbv zeta in Hb2, Hscan. rewrite Hscan in H. clear Hscan.
  change BUFF_SIZ with 8192 in H, Hlen.
  assert (Hwrap : wrap_int (cc * 8192) = cc * 8192) by (apply wrap_int_small; lia).
  assert (Hmain :
    forall i', find_scan junk seq (Z.to_nat (Zlength got)) 32
                 (got ++ drop (LONGEST_MAGIC_STRING + Zlength got) buf) 0 = Some i' ->
               r = offset + i' + cc * 8192 ->
               slice (f_data fil) r (Zlength seq) = seq).
  { intros i' Es Hri. pose proof (find_scan_lower _ _ _ _ _ _ _ Es) as Hlow.
    apply find_scan_some in Es. rewrite Z.sub_0_r in Es.
    assert (Hi : (r - offset) mod 8192 = i').
    { subst r. replace (offset + i' + cc * 8192 - offset) with (i' + cc * 8192) by lia.
      rewrite Z.mod_add by lia. apply Z.mod_small. lia. }
    rewrite Hgot in Es. apply memcmp_in_chunk in Es; [| lia | lia |].
    - replace (f_pos fil + i') with r in Es by lia. exact Es.
    - rewrite <- Hgot. change BUFF_SIZ with 8192. lia. }
  destruct (Z.eqb_spec cc 0) as [Ecc|Ecc].
  - destruct (find_scan junk seq (Z.to_nat (Zlength got)) 32 _ 0) as [i'|] eqn:Es.
    + apply (Hmain i' eq_refl). rewrite Hwrap in H.
      destruct (fseek _ _) as [fil2 e]. injection H as <- _. reflexivity.
    + apply IH in H; try assumption; try lia.
      * rewrite Hd in H. exact H.
      * rewrite Hd. exact Hsmall.
      * rewrite wrap_int_small by lia. lia.
      * rewrite wrap_int_small by lia. rewrite Hd, Hp. lia.
      * rewrite Hd. exact Hend.
  - destruct (find_scan junk seq 32 0 _ (-32)) as [i'|] eqn:Eo.
    + (* a hit in the overlap area lies in the last 32 bytes of a chunk *)
      exfalso. apply find_scan_lower in Eo. rewrite Hwrap in H.
      destruct (fseek _ _) as [fil2 e]. injection H as <- _.
      replace (offset + i' + cc * 8192 - offset) with (8192 + i' + (cc - 1) * 8192)
        in Hmod by lia.
      rewrite Z.mod_add in Hmod by lia. rewrite Z.mod_small in Hmod by lia. lia.
    + destruct (find_scan junk seq (Z.to_nat (Zlength got)) 32 _ 0) as [i'|] eqn:Es.
      * apply (Hmain i' eq_refl). rewrite Hwrap in H.
        destruct (fseek _ _) as [fil2 e]. injection H as <- _. reflexivity.
      * apply IH in H; try assumption; try lia.
        -- rewrite Hd in H. exact H.
        -- rewrite Hd. exact Hsmall.
        -- rewrite wrap_int_small by lia. lia.
        -- rewrite wrap_int_small by lia. rewrite Hd, Hp. lia.
        -- rewrite Hd. exact Hend.
Qed.

Lemma find_chunks_complete (junk : Z -> byte) (seq : list byte) (offset p : Z)
    (fuel : nat) :
  forall buf cc fil,
    0 <= offset ->
    Zlength (f_data fil) < 2 ^ 31 ->
    0 <= cc ->
    Zlength buf = BUFF_SIZ + LONGEST_MAGIC_STRING ->
    f_pos fil = offset + cc * 8192 ->
    seq <> [] ->
    slice (f_data fil) p (Zlength seq) = seq ->
    f_pos fil <= p ->
    (p - offset) mod 8192 + Zlength seq <= 8192 ->
    (p - f_pos fil) / 8192 < Z.of_nat fuel ->
    exists r fil',
      find_chunks fuel junk seq offset buf cc fil = Some (r, fil') /\
      offset <= r <= p.
Proof.
  induction fuel as [|fuel IH];
    intros buf cc fil Hoff Hsmall Hcc Hbuf Hin Hne Hat Hp Hmod Hfuel.
  { exfalso. assert (0 <= (p - f_pos fil) / 8192) by (apply Z.div_pos; lia). lia. }
  assert (Hlen : 0 < Zlength seq).
  { destruct seq; [contradiction|]. rewrite Zlength_cons.
    pose proof (Zlength_nonneg seq). lia. }
  assert (Hend : p + Zlength seq <= Zlength (f_data fil)).
  { pose proof (Zlength_slice (f_data fil) p (Zlength seq) ltac:(lia)) as Hs.
    rewrite Hat in Hs. lia. }
  rewrite find_chunks_S.
  destruct (fread BUFF_SIZ fil) as [got fil1] eqn:Er.
  apply fread_inv in Er. destruct Er as [Hgot [Hd Hp1]]. cbv zeta.
  pose proof (Zlength_slice (f_data fil) (f_pos fil) BUFF_SIZ ltac:(lia)) as Hgl.
  rewrite <- Hgot in Hgl. change BUFF_SIZ with 8192 in Hgl.
  destruct (Z.eqb_spec (Zlength got) 0) as [E|E]; [lia|].
  destruct (chunk_scan junk seq buf got cc Hbuf) as [Hb2 Hscan];
    [change BUFF_SIZ with 8192 in *; lia|].
  cbv zeta in Hb2, Hscan. rewrite Hscan. clear Hscan.
  change BUFF_SIZ with 8192.
  assert (Hwrap : wrap_int (cc * 8192) = cc * 8192) by (apply wrap_int_small; lia).
  rewrite Hwrap.
  (* the scan of the positions of the chunk itself *)
  assert (Hmain :
    match find_scan junk seq (Z.to_nat (Zlength got)) 32
            (got ++ drop (LONGEST_MAGIC_STRING + Zlength got) buf) 0 with
    | Some i' => 0 <= i' /\ f_pos fil + i' <= p
    | None => f_pos fil + 8192 <= p /\ Zlength got = 8192
    end).
  { destruct (Z.lt_ge_cases p (f_pos fil + 8192)) as [Hhere|Hlater].
    - assert (Hip : (p - offset) mod 8192 = p - f_pos fil).
      { replace (p - offset) with (p - f_pos fil + cc * 8192) by lia.
        rewrite Z.mod_add by lia. apply Z.mod_small. lia. }
      destruct (find_scan_hit junk seq (Z.to_nat (p - f_pos fil))
                  (Z.to_nat (Zlength got)) 32
                  (got ++ drop (LONGEST_MAGIC_STRING + Zlength got) buf) 0)
        as [i' [Hs Hi]]; [lia| |].
      + rewrite Hgot. apply memcmp_in_chunk; [lia | lia | |].
        * rewrite <- Hgot. lia.
        * replace (f_pos fil + (p - f_pos fil)) with p by lia. exact Hat.
      + rewrite Hs. lia.
    - destruct (find_scan junk seq (Z.to_nat (Zlength got)) 32 _ 0) as [i'|] eqn:Es.
      + apply find_scan_lower in Es. lia.
      + lia. }
  assert (Hnext : f_pos fil + 8192 <= p -> Zlength got = 8192 ->
    forall buf2, Zlength buf2 = BUFF_SIZ + LONGEST_MAGIC_STRING ->
    exists r fil',
      find_chunks fuel junk seq offset buf2 (wrap_int (cc + 1)) fil1 = Some (r, fil') /\
      offset <= r <= p).
  { intros Hlater Hfull buf2 Hbuf2. rewrite wrap_int_small by lia.
    apply IH; try assumption; rewrite ?Hd, ?Hp1; try assumption; try lia.
    replace (p - (f_pos fil + Zlength got)) with (p - f_pos fil + (-1) * 8192) by lia.
    rewrite Z.div_add by lia. lia. }
  destruct (Z.eqb_spec cc 0) as [Ecc|Ecc].
  - destruct (find_scan junk seq (Z.to_nat (Zlength got)) 32 _ 0) as [i'|] eqn:Es.
    + destruct (fseek _ _) as [fil2 e]. eexists _, _. split; [reflexivity|]. lia.
    + apply Hnext; [lia | lia | exact Hb2].
  - destruct (find_scan junk seq 32 0 _ (-32)) as [i'|] eqn:Eo.
    + apply find_scan_lower in Eo.
      destruct (fseek _ _) as [fil2 e]. eexists _, _. split; [reflexivity|]. lia.
    + destruct (find_scan junk seq (Z.to_nat (Zlength got)) 32 _ 0) as [i'|] eqn:Es.
      * destruct (fseek _ _) as [fil2 e]. eexists _, _. split; [reflexivity|]. lia.
      * apply Hnext; [lia | lia | exact Hb2].
Qed.

(** X4: on a file of at most [INT_MAX] bytes, an offset that the scanner
    reports for a sequence of at most 32 bytes from an [offset] that is not
    negative is an occurrence of the sequence, unless it lies in the last 32
    bytes of a chunk (the chunks count from [offset]) or less than the
    length of the sequence before the end of the file. *)
Theorem find_seq_offset_inside_chunk_is_occurrence (junk : Z -> byte) (fil : FILE)
    (offset : Z) (seq : list byte) (r : Z) (fil' : FILE) :
  0 <= offset ->
  Zlength (f_data fil) <= INT_MAX ->
  Zlength seq <= LONGEST_MAGIC_STRING ->
  barmaid_find_seq junk fil offset seq = Some (r, fil') ->
  0 <= r ->
  (r - offset) mod BUFF_SIZ < BUFF_SIZ - LONGEST_MAGIC_STRING ->
  r + Zlength seq <= Zlength (f_data fil) ->
  slice (f_data fil) r (Zlength seq) = seq.
Proof.
  intros Hoff Hint Hseq H Hr Hmod Hend.
  change BUFF_SIZ with 8192 in Hmod. change LONGEST_MAGIC_STRING with 32 in *.
  rewrite find_seq_from_offset in H by exact Hoff.
  apply find_chunks_sound in H; cbn [f_data f_pos] in *; try lia.
  - exact H.
  - unfold INT_MAX in Hint. lia.
  - apply Zlength_search_buff.
Qed.

(** X5: on a file of at most [INT_MAX] bytes, a sequence that occurs at or
    after [offset] without crossing the boundary of two chunks (the chunks
    count from [offset], which is not negative) is not missed: the scanner
    reports an offset between [offset] and the occurrence. *)
Theorem find_seq_reports_pattern_inside_chunk (junk : Z -> byte) (fil : FILE)
    (offset : Z) (seq : list byte) (p : Z) :
  0 <= offset <= p ->
  Zlength (f_data fil) <= INT_MAX ->
  seq <> [] ->
  slice (f_data fil) p (Zlength seq) = seq ->
  (p - offset) mod BUFF_SIZ + Zlength seq <= BUFF_SIZ ->
  exists r fil',
    barmaid_find_seq junk fil offset seq = Some (r, fil') /\ offset <= r <= p.
Proof.
  intros Hoff Hint Hne Hat Hmod. change BUFF_SIZ with 8192 in Hmod.
  rewrite find_seq_from_offset by lia.
  apply find_chunks_complete; cbn [f_data f_pos]; try assumption; try lia.
  - unfold INT_MAX in Hint. lia.
  - apply Zlength_search_buff.
  - pose proof (Zlength_slice (f_data fil) p (Zlength seq) ltac:(lia)) as Hs.
    rewrite Hat in Hs.
    assert (0 < Zlength seq).
    { destruct seq; [contradiction|]. rewrite Zlength_cons.
      pose proof (Zlength_nonneg seq). lia. }
    pose proof (Zlength_correct (f_data fil)).
    assert ((p - offset) / 8192 <= p - offset)
      by (apply Z.div_le_upper_bound; lia).
    lia.
Qed.

(** ** What the padding skipper skips *)

Lemma nonzero_false (b : byte) : nonzero b = false -> b = x00.
Proof.
  unfold nonzero. intros H. apply negb_false_iff in H.
  apply Byte.byte_dec_bl in H. exact H.
Qed.

Lemma slice_empty (data : list byte) (pos n : Z) : n <= 0 -> slice data pos n = [].
Proof.
  intros H. rewrite slice_firstn_skipn.
  replace (Z.to_nat n) with O by lia. reflexivity.
Qed.

Lemma slice_length_self (data : list byte) (pos n : Z) :
  slice data pos (Zlength (slice data pos n)) = slice data pos n.
Proof.
  rewrite !slice_firstn_skipn, Zlength_correct, Nat2Z.id, length_firstn.
  destruct (Nat.le_ge_cases (Z.to_nat n) (length (skipn (Z.to_nat pos) data))).
  - rewrite Nat.min_l by lia. reflexivity.
  - rewrite Nat.min_r by lia. rewrite !firstn_all2 by lia. reflexivity.
Qed.

(** The bytes a read of a word delivered are zero when the test
    [buff[0] || buff[1] || buff[2] || buff[3]] fails. *)
Lemma zero_word (buff got : list byte) :
  Zlength got <= 4 ->
  (let buff1 := store buff 0 got in
   nonzero (nth 0 buff1 x00) || nonzero (nth 1 buff1 x00)
   || nonzero (nth 2 buff1 x00) || nonzero (nth 3 buff1 x00)) = false ->
  zero_bytes got.
Proof.
  intros Hlen H. cbv zeta in H. rewrite store_0 in H.
  apply orb_false_elim in H. destruct H as [H H3].
  apply orb_false_elim in H. destruct H as [H H2].
  apply orb_false_elim in H. destruct H as [H0 H1].
  apply nonzero_false in H0, H1, H2, H3.
  destruct got as [|a [|b [|c [|d [|e rest]]]]]; cbn [app nth] in *;
    unfold zero_bytes.
  6:{ exfalso. rewrite !Zlength_cons in Hlen. pose proof (Zlength_nonneg rest). lia. }
  all: repeat constructor; assumption.
Qed.

Lemma nonzero_word (buff got : list byte) :
  Zlength got = 4 ->
  (let buff1 := store buff 0 got in
   nonzero (nth 0 buff1 x00) || nonzero (nth 1 buff1 x00)
   || nonzero (nth 2 buff1 x00) || nonzero (nth 3 buff1 x00)) = true ->
  ~ zero_bytes got.
Proof.
  intros Hlen H Hz. cbv zeta in H. rewrite store_0 in H.
  destruct got as [|a [|b [|c [|d rest]]]];
    try (rewrite ?Zlength_cons, ?Zlength_nil in Hlen; lia).
  cbn [app nth] in H. unfold zero_bytes in Hz.
  inversion Hz as [|? ? Ha Hz1]; subst. inversion Hz1 as [|? ? Hb Hz2]; subst.
  inversion Hz2 as [|? ? Hc Hz3]; subst. inversion Hz3 as [|? ? Hd Hz4]; subst.
  discriminate H.
Qed.

Lemma skip_words_post (fuel : nat) :
  forall buff fil r fil',
    0 <= f_pos fil ->
    skip_words fuel buff fil = Some (r, fil') ->
    let data := f_data fil in
    let s := f_pos fil in
    (r = -1 /\ zero_bytes (slice data s (Zlength data - s)) /\
     f_pos fil' = Z.max s (Zlength data)) \/
    (s <= r < Zlength data /\ (r - s) mod 4 = 0 /\
     zero_bytes (slice data s (r - s)) /\ f_pos fil' = r /\
     (r + 4 <= Zlength data -> ~ zero_bytes (slice data r 4))).
Proof.
  induction fuel as [|fuel IH]; intros buff fil r fil' Hpos H data s; [discriminate|].
  cbn [skip_words] in H. unfold ftell in H.
  destruct (fread 4 fil) as [got fil1] eqn:Er.
  apply fread_inv in Er. destruct Er as [Hgot [Hd Hp]].
  fold data s in Hgot, Hd, Hp.
  pose proof (Zlength_slice data s 4 Hpos) as Hlen. rewrite <- Hgot in Hlen.
  pose proof (Zlength_nonneg data) as Hnn.
  destruct (Z.eqb_spec (Zlength got) 0) as [E|E].
  - rewrite fseek_ok in H by exact Hpos. injection H as <- <-. left.
    split; [reflexivity|]. cbn [f_pos]. split; [|lia].
    rewrite slice_empty by lia. constructor.
  - match type of H with (if ?c then _ else _) = _ => destruct c eqn:Etest end.
    + rewrite fseek_ok in H by exact Hpos. injection H as <- <-. right.
      cbn [f_pos]. split; [lia|]. split; [rewrite Z.sub_diag; reflexivity|].
      split; [rewrite slice_empty by lia; constructor|]. split; [reflexivity|].
      intros Hfull. change (~ zero_bytes (slice data s 4)). rewrite <- Hgot.
      apply (nonzero_word buff); [lia | exact Etest].
    + apply zero_word in Etest; [|lia].
      apply IH in H; [|lia]. cbv zeta in H. rewrite Hd, Hp in H.
      assert (Hcat : forall m, 0 <= m ->
                slice data s (Zlength got + m) = got ++ slice data (s + Zlength got) m).
      { intros m Hm. rewrite <- slice_app by lia.
        rewrite Hgot at 1. rewrite slice_length_self, <- Hgot. reflexivity. }
      destruct H as [[Hr [Hz Hc]]|[Hr [Hm [Hz [Hc Hw]]]]].
      * left. split; [exact Hr|]. split; [|lia].
        replace (Zlength data - s)
          with (Zlength got + (Zlength data - (s + Zlength got))) by lia.
        rewrite Hcat by lia. apply Forall_app. split; assumption.
      * right. assert (Hfull : Zlength got = 4) by lia.
        split; [lia|]. split.
        { replace (r - s) with (r - (s + Zlength got) + 1 * 4) by lia.
          rewrite Z.mod_add by lia. exact Hm. }
        split; [|split; assumption].
        replace (r - s) with (Zlength got + (r - (s + Zlength got))) by lia.
        rewrite Hcat by lia. apply Forall_app. split; assumption.
Qed.

(** X6: the skipper started at an [offset] that is not negative returns and
    leaves the file as it is.  If it reports -1, every byte from [offset] on
    is zero and the cursor is at the end of the file (or at [offset], if
    that is behind the end).  Otherwise it reports an offset [r] in the
    file, a multiple of four bytes behind [offset], with the cursor at [r]:
    every byte between [offset] and [r] is zero, and if four bytes are left
    at [r] they are not all zero. *)
Theorem skip_padding_skips_zero_words (junk : Z -> byte) (fil : FILE) (offset : Z) :
  0 <= offset ->
  let data := f_data fil in
  exists r fil',
    barmaid_skip_padding junk fil offset = Some (r, fil') /\
    f_data fil' = data /\
    ((r = -1 /\ zero_bytes (slice data offset (Zlength data - offset)) /\
      f_pos fil' = Z.max offset (Zlength data)) \/
     (offset <= r < Zlength data /\ (r - offset) mod 4 = 0 /\
      zero_bytes (slice data offset (r - offset)) /\ f_pos fil' = r /\
      (r + 4 <= Zlength data -> ~ zero_bytes (slice data r 4)))).
Proof.
  intros Hoff data.
  destruct (skip_padding_total junk fil offset Hoff) as [r [fil' H]].
  exists r, fil'. split; [exact H|].
  pose proof (skip_padding_spec junk fil offset r fil' Hoff H) as [Hd _].
  split; [exact Hd|].
  unfold barmaid_skip_padding in H.
  destruct (Z.geb_spec offset 0); [|lia].
  rewrite fseek_ok in H by exact Hoff. cbn [negb Z.eqb] in H.
  apply skip_words_post in H; [|cbn; lia]. exact H.
Qed.

(** ** The signature check and the steps of the parser *)

Lemma skip_padding_skipped (junk : Z -> byte) (fil : FILE) (offset r : Z) (fil' : FILE) :
  0 <= offset ->
  barmaid_skip_padding junk fil offset = Some (r, fil') ->
  f_data fil' = f_data fil /\ skipped_to (f_data fil) offset r fil'.
Proof.
  intros Hoff H.
  pose proof (skip_padding_spec junk fil offset r fil' Hoff H) as [Hd _].
  split; [exact Hd|].
  unfold barmaid_skip_padding in H.
  destruct (Z.geb_spec offset 0); [|lia].
  rewrite fseek_ok in H by exact Hoff. cbn [negb Z.eqb] in H.
  apply skip_words_post in H; [|cbn; lia]. cbv zeta in H. cbn [f_data f_pos] in H.
  unfold skipped_to. destruct H as [[H1 [H2 H3]]|H]; [left | right; exact H].
  split; [exact H1 | lia].
Qed.

(** X7: with at least 26 bytes left, the signature check reads them and
    returns true exactly when they are the start signature; at the end of
    the file it returns false. *)
Theorem is_btw_compares_signature (junk : Z -> byte) (fil : FILE) :
  0 <= f_pos fil ->
  let data := f_data fil in
  let pos := f_pos fil in
  (pos + sizeof barmaid_btw_mseq_sof <= Zlength data ->
   (fst (barmaid_is_btw junk fil) = true <->
    slice data pos (sizeof barmaid_btw_mseq_sof) = barmaid_btw_mseq_sof) /\
   snd (barmaid_is_btw junk fil) = mkFILE data (pos + sizeof barmaid_btw_mseq_sof)) /\
  (Zlength data <= pos -> barmaid_is_btw junk fil = (false, fil)).
Proof.
  intros Hpos data pos. change (sizeof barmaid_btw_mseq_sof) with 26.
  pose proof (Zlength_slice data pos 26 Hpos) as Hl.
  split.
  - intros Hlen. split.
    + rewrite is_btw_result. cbv zeta. fold data pos.
      change (sizeof barmaid_btw_mseq_sof) with 26.
      generalize (uninit junk (Z.to_nat BUFF_SIZ)). intros buf.
      destruct (Z.eqb_spec (Zlength (slice data pos 26)) 0) as [E|E]; [lia|].
      cbn [negb andb]. apply memcmp_store_zero.
      rewrite Zlength_correct in Hl. cbn [length barmaid_btw_mseq_sof]. lia.
    + rewrite is_btw_stream. fold data pos.
      change (sizeof barmaid_btw_mseq_sof) with 26. f_equal. lia.
  - intros Hend.
    rewrite (surjective_pairing (barmaid_is_btw junk fil)).
    rewrite is_btw_result, is_btw_stream. cbv zeta. fold data pos.
    change (sizeof barmaid_btw_mseq_sof) with 26.
    replace (Zlength (slice data pos 26)) with 0 by lia.
    cbn [Z.eqb negb andb]. rewrite Z.add_0_r. destruct fil. reflexivity.
Qed.

Lemma byte_val_zero (b : byte) : byte_val b = 0 -> b = x00.
Proof. intros H. apply byte_val_inj. exact H. Qed.

Lemma le32_word (b0 b1 b2 b3 : byte) :
  le32 [b0; b1; b2; b3] =
  byte_val b0 + 2 ^ 8 * byte_val b1 + 2 ^ 16 * byte_val b2 + 2 ^ 24 * byte_val b3.
Proof. reflexivity. Qed.

Lemma le32_positive (w : list byte) :
  Zlength w = 4 -> ~ zero_bytes w -> 0 < le32 w.
Proof.
  intros Hlen Hnz.
  destruct w as [|b0 [|b1 [|b2 [|b3 [|b4 rest]]]]];
    try (rewrite ?Zlength_cons, ?Zlength_nil in Hlen; lia).
  2:{ rewrite !Zlength_cons in Hlen. pose proof (Zlength_nonneg rest). lia. }
  rewrite le32_word.
  pose proof (byte_val_range b0). pose proof (byte_val_range b1).
  pose proof (byte_val_range b2). pose proof (byte_val_range b3).
  destruct (Z.eq_dec (byte_val b0) 0) as [E0|E0]; [|lia].
  destruct (Z.eq_dec (byte_val b1) 0) as [E1|E1]; [|lia].
  destruct (Z.eq_dec (byte_val b2) 0) as [E2|E2]; [|lia].
  destruct (Z.eq_dec (byte_val b3) 0) as [E3|E3]; [|lia].
  exfalso. apply Hnz. apply byte_val_zero in E0, E1, E2, E3. subst.
  repeat constructor.
Qed.

Lemma le32_range (w : list byte) : 0 <= le32 w < 2 ^ 32.
Proof.
  unfold le32.
  pose proof (byte_val_range (nth 0 w x00)). pose proof (byte_val_range (nth 1 w x00)).
  pose proof (byte_val_range (nth 2 w x00)). pose proof (byte_val_range (nth 3 w x00)).
  lia.
Qed.

Lemma decode_full_word (buff got : list byte) (blobsize : Z) :
  Zlength got = 4 -> decode_blobsize (store buff 0 got) blobsize = le32 got.
Proof.
  intros Hlen.
  destruct got as [|b0 [|b1 [|b2 [|b3 [|b4 rest]]]]];
    try (rewrite ?Zlength_cons, ?Zlength_nil in Hlen; lia).
  2:{ rewrite !Zlength_cons in Hlen. pose proof (Zlength_nonneg rest). lia. }
  rewrite store_0.
  change ([b0; b1; b2; b3] ++ skipn (length [b0; b1; b2; b3]) buff)
    with ([b0; b1; b2; b3] ++ skipn 4 buff).
  rewrite decode_blobsize_app, decode_blobsize_le. reflexivity.
Qed.

Lemma parse_header_post (junk : nat -> Z -> byte) (fil : FILE) (l : locals) :
  parse_header junk fil = Some (inr l) ->
  let data := f_data fil in
  exists found f,
    fst (barmaid_is_btw (junk 0%nat) fil) = true /\
    barmaid_find_seq (junk 1%nat) fil (sizeof barmaid_btw_mseq_sof)
      barmaid_btw_end_of_meta = Some (found, f) /\
    0 <= found /\
    f_data (l_fil l) = data /\
    l_b l = set_prefix_end blobs_init (l_start_of_blobsize l) /\
    skipped_to data (found + 4) (l_start_of_blobsize l) (l_fil l).
Proof.
  intros H data. unfold parse_header, bind_early, lift_early, return_ in H.
  destruct (barmaid_is_btw (junk 0%nat) fil) as [is_btw fil1] eqn:Esig.
  assert (Hd1 : f_data fil1 = f_data fil) by (eapply is_btw_data; exact Esig).
  destruct is_btw; [|discriminate]. cbn [negb] in H.
  destruct (barmaid_find_seq _ _ _ _) as [[found fil2]|] eqn:Efind; [|discriminate].
  pose proof (find_seq_data _ _ _ _ _ _ Efind) as Hd2.
  rewrite (find_seq_reposition _ fil fil1) in Efind
    by (change (sizeof barmaid_btw_mseq_sof) with 26; lia || assumption).
  destruct (Z.ltb_spec found 0) as [Hneg|Hfound]; [discriminate|].
  destruct (barmaid_skip_padding _ _ _) as [[sob fil3]|] eqn:Eskip; [|discriminate].
  change (sizeof barmaid_btw_end_of_meta) with 4 in Eskip.
  apply skip_padding_skipped in Eskip; [|lia]. destruct Eskip as [Hd3 Hsk].
  injection H as <-. cbn [l_fil l_b l_start_of_blobsize].
  exists found, fil2. cbn [fst]. subst data.
  rewrite Hd2, Hd1 in Hsk.
  repeat split; try assumption; try congruence.
Qed.

Lemma parse_image_post (junk : Z -> byte) (i : nat) (l l' : locals) (lo : Z) :
  let data := f_data (l_fil l) in
  let s := l_start_of_blobsize l in
  0 <= lo ->
  skipped_to data lo s (l_fil l) ->
  parse_image junk i l = Some (inr l') ->
  lo <= s < Zlength data /\
  exists n,
    0 <= n /\
    l_b l' = set_png_end (set_png_start (l_b l) i (s + 4)) i (s + 4 + n) /\
    f_data (l_fil l') = data /\
    skipped_to data (s + 4 + n) (l_start_of_blobsize l') (l_fil l') /\
    (s + 4 <= Zlength data -> n = le32 (slice data s 4) /\ 0 < n).
Proof.
  intros data s Hlo Hsk H.
  unfold parse_image, bind_early, lift_early, return_ in H. fold s in H.
  pose proof (Zlength_nonneg data) as Hnn.
  destruct Hsk as [[H1 H2]|[H1 [H2 [H3 [H4 H5]]]]].
  - (* the skipper had reported -1: nothing is left to read *)
    exfalso. rewrite fseek_negative in H by lia. unfold fread in H.
    pose proof (Zlength_slice (f_data (l_fil l)) (f_pos (l_fil l)) 4) as Hlen.
    fold data in Hlen.
    destruct (Z.eqb_spec (Zlength (slice (f_data (l_fil l)) (f_pos (l_fil l)) 4)) 0)
      as [E|E]; [discriminate | fold data in E; lia].
  - split; [lia|]. rewrite fseek_ok in H by lia.
    unfold fread in H. cbn [f_data f_pos] in H. fold data in H.
    pose proof (Zlength_slice data s 4 ltac:(lia)) as Hlen.
    set (got := slice data s 4) in *.
    destruct (Zlength got =? 0); [discriminate|].
    cbn [png_start set_png_start png_end set_png_end] in H.
    rewrite !elt_set_elt in H.
    match type of H with context [decode_blobsize ?bf ?bs] =>
      pose proof (decode_blobsize_nonneg bf bs) as Hn;
      assert (Hfull : s + 4 <= Zlength data -> decode_blobsize bf bs = le32 got)
        by (intros Hf; apply decode_full_word; lia);
      set (n := decode_blobsize bf bs) in * end.
    destruct (barmaid_skip_padding _ _ _) as [[sob' fil3]|] eqn:Eskip; [|discriminate].
    apply skip_padding_skipped in Eskip; [|lia].
    cbn [f_data] in Eskip. destruct Eskip as [Hd Hp].
    injection H as <-. exists n. cbn [l_fil l_b l_start_of_blobsize].
    split; [exact Hn|]. split; [reflexivity|]. split; [exact Hd|].
    split; [exact Hp|].
    intros Hf. split; [apply Hfull; exact Hf|]. rewrite (Hfull Hf).
    apply le32_positive; [lia | apply H5; exact Hf].
Qed.

(** ** The shape of an accepted file *)

Lemma skipped_padding (data : list byte) (lo r : Z) (fil' : FILE) :
  skipped_to data lo r fil' -> 0 <= r -> padding data lo r /\ f_pos fil' = r.
Proof.
  intros [[H _]|[H1 [H2 [H3 [H4 _]]]]] Hr; [lia|].
  unfold padding. repeat split; try assumption; lia.
Qed.

Lemma skipped_word (data : list byte) (lo r : Z) (fil' : FILE) :
  skipped_to data lo r fil' -> 0 <= r -> r + 4 <= Zlength data ->
  nonzero_word_at data r.
Proof.
  intros [[H _]|[_ [_ [_ [_ H]]]]] Hr Hfull; [lia|].
  split; [exact Hfull | apply H; exact Hfull].
Qed.

Lemma parse_images_post (junk : nat -> Z -> byte) (fil : FILE) (l : locals) :
  parse_images junk fil = Some (inr l) ->
  let data := f_data fil in
  exists found f p0 n0 p1 n1,
    fst (barmaid_is_btw (junk 0%nat) fil) = true /\
    barmaid_find_seq (junk 1%nat) fil (sizeof barmaid_btw_mseq_sof)
      barmaid_btw_end_of_meta = Some (found, f) /\
    0 <= found /\
    padding data (found + 4) p0 /\
    (p0 + 4 <= Zlength data ->
       nonzero_word_at data p0 /\ n0 = le32 (slice data p0 4) /\ 0 < n0) /\
    0 <= n0 /\
    padding data (p0 + 4 + n0) p1 /\
    (p1 + 4 <= Zlength data ->
       nonzero_word_at data p1 /\ n1 = le32 (slice data p1 4) /\ 0 < n1) /\
    0 <= n1 /\
    l_b l = mkblobs false p0 (p0 + 4, p1 + 4) (p0 + 4 + n0, p1 + 4 + n1)
                    false (-1) (-1) /\
    f_data (l_fil l) = data /\
    skipped_to data (p1 + 4 + n1) (l_start_of_blobsize l) (l_fil l).
Proof.
  intros H data. unfold parse_images, bind_early in H.
  destruct (parse_header junk fil) as [[[b fil']|l0]|] eqn:E0; try discriminate.
  apply parse_header_post in E0. cbv zeta in E0. fold data in E0.
  destruct E0 as [found [f [Hsig [Hfind [Hfound [Hd0 [Hb0 Hs0]]]]]]].
  destruct (parse_image (junk 4%nat) 0 l0) as [[[b fil']|l1]|] eqn:E1;
    try discriminate.
  apply (parse_image_post _ _ _ _ (found + 4)) in E1;
    [|lia|rewrite Hd0; exact Hs0].
  rewrite Hd0 in E1.
  destruct E1 as [Hp0 [n0 [Hn0 [Hb1 [Hd1 [Hs1 Hw0]]]]]].
  apply (parse_image_post _ _ _ _ (l_start_of_blobsize l0 + 4 + n0)) in H;
    [|lia|rewrite Hd1; exact Hs1].
  rewrite Hd1 in H.
  destruct H as [Hp1 [n1 [Hn1 [Hb2 [Hd2 [Hs2 Hw1]]]]]].
  exists found, f, (l_start_of_blobsize l0), n0, (l_start_of_blobsize l1), n1.
  split; [exact Hsig|]. split; [exact Hfind|]. split; [exact Hfound|].
  split; [apply (skipped_padding _ _ _ _ Hs0); lia|].
  split.
  { intros Hf. split; [apply (skipped_word _ _ _ _ Hs0); lia|]. apply Hw0. exact Hf. }
  split; [exact Hn0|].
  split; [apply (skipped_padding _ _ _ _ Hs1); lia|].
  split.
  { intros Hf. split; [apply (skipped_word _ _ _ _ Hs1); lia|]. apply Hw1. exact Hf. }
  split; [exact Hn1|].
  split; [rewrite Hb2, Hb1, Hb0; reflexivity|].
  split; [exact Hd2 | exact Hs2].
Qed.

(** The test for the compression marker. *)
Lemma zlib_test (buff got : list byte) :
  Zlength got = 2 ->
  (memcmp (fun _ => x00) 0 (store buff 0 got) barmaid_btw_zlib =? 0) =
  if list_eq_dec Byte.byte_eq_dec got barmaid_btw_zlib then true else false.
Proof.
  intros Hlen.
  assert (Hl : length got = length barmaid_btw_zlib).
  { rewrite Zlength_correct in Hlen. cbn [length barmaid_btw_zlib]. lia. }
  pose proof (memcmp_store_zero (fun _ => x00) buff got _ Hl) as Hm.
  destruct (list_eq_dec Byte.byte_eq_dec got barmaid_btw_zlib) as [E|E].
  - apply Hm. exact E.
  - destruct (memcmp _ 0 _ barmaid_btw_zlib =? 0); [|reflexivity].
    exfalso. apply E. apply Hm. reflexivity.
Qed.

Lemma parse_btw_success_shape (junk : nat -> Z -> byte) (fd : Z) (fil : FILE)
    (b : blobs) (fil' : FILE) :
  barmaid_parse_btw junk fd fil = Some (b, fil') ->
  success b = true ->
  let data := f_data fil in
  exists found f p0 p1 pc,
    fst (barmaid_is_btw (junk 0%nat) fil) = true /\
    barmaid_find_seq (junk 1%nat) fil (sizeof barmaid_btw_mseq_sof)
      barmaid_btw_end_of_meta = Some (found, f) /\
    btw_shape data found p0 p1 pc /\
    b = btw_layout data p0 p1 pc /\
    fil' = mkFILE data (pc + 2).
Proof.
  intros H Hs data. unfold barmaid_parse_btw in H.
  destruct (parse_images junk fil) as [[[b0 fil0]|l]|] eqn:E; try discriminate.
  { apply parse_images_early in E. injection H as <- _. congruence. }
  apply parse_images_post in E. cbv zeta in E. fold data in E.
  destruct E as [found [f [p0 [n0 [p1 [n1 E]]]]]].
  destruct E as [Hsig [Hfind [Hfound [Hpad0 [Hw0 [Hn0 [Hpad1 [Hw1 [Hn1 [Hb [Hd Hsk]]]]]]]]]]].
  injection H as H. unfold parse_container in H.
  destruct (fread 2 (l_fil l)) as [got fil1] eqn:Er.
  apply fread_inv in Er. destruct Er as [Hgot [Hd1 Hp1]].
  rewrite Hd in Hgot, Hd1.
  pose proof (Zlength_nonneg data) as Hnn.
  destruct (Z.eqb_spec (Zlength got) 2) as [E2|E2]; cbn [negb] in H.
  2:{ injection H as <- _. rewrite Hb in Hs. discriminate. }
  set (pc := l_start_of_blobsize l) in *.
  assert (Hq1 : p0 + 4 + n0 <= p1) by (destruct Hpad1 as [Hq _]; exact Hq).
  assert (Hq3 : found + 4 <= p0) by (destruct Hpad0 as [Hq _]; exact Hq).
  assert (Hpc : p1 + 4 + n1 <= pc /\ pc + 2 <= Zlength data /\ f_pos (l_fil l) = pc).
  { destruct Hsk as [[H1 H2]|[H1 [_ [_ [H4 _]]]]].
    - exfalso. subst got.
      destruct (Z.le_gt_cases 0 (f_pos (l_fil l))) as [Hc|Hc].
      + rewrite Zlength_slice in E2 by exact Hc. lia.
      + lia.
    - subst got. rewrite H4 in E2. rewrite Zlength_slice in E2 by lia. lia. }
  destruct Hpc as [Hpc1 [Hpc2 Hpc3]].
  destruct (Hw1 ltac:(lia)) as [Hword1 [Hn1' Hn1'']].
  destruct (Hw0 ltac:(lia)) as [Hword0 [Hn0' Hn0'']].
  rewrite Hpc3 in Hgot, Hp1.
  exists found, f, p0, p1, pc.
  split; [exact Hsig|]. split; [exact Hfind|].
  split.
  { apply Build_btw_shape.
    - exact Hfound.
    - exact Hpad0.
    - exact Hword0.
    - rewrite <- Hn0'. exact Hpad1.
    - exact Hword1.
    - rewrite <- Hn1'. apply (skipped_padding _ _ _ _ Hsk). lia.
    - exact Hpc2. }
  cbv zeta in H. rewrite zlib_test in H by exact E2.
  unfold st_size in H. rewrite Hd1 in H. fold data in H.
  rewrite Hb in H. change (sizeof barmaid_btw_zlib) with 2 in H.
  unfold btw_layout. rewrite <- Hgot, <- Hn0', <- Hn1'.
  assert (Hfil : fil1 = mkFILE data (pc + 2)).
  { destruct fil1 as [d p]. cbn [f_data f_pos] in *. subst d p. rewrite E2.
    reflexivity. }
  destruct (list_eq_dec Byte.byte_eq_dec got barmaid_btw_zlib);
    destruct ((fd =? 0) || negb (fstat fd =? 0));
    cbn [container_start container_end set_container_start set_container_end
         set_container_zlib success prefix_end png_start png_end container_zlib
         set_success] in H;
    try (injection H as <- <-; discriminate Hs);
    match type of H with context [if ?c then _ else _] => destruct c eqn:Ec end;
    injection H as <- <-; try discriminate Hs; split; try reflexivity; exact Hfil.
Qed.

(** X8: in a layout that [barmaid_parse_btw] accepts, the first image begins
    four bytes behind the end of the prefix, and each image is as long as the
    little-endian word in the four bytes before it says, and not empty. *)
Theorem parse_btw_images_follow_their_lengths (junk : nat -> Z -> byte) (fd : Z)
    (fil : FILE) (b : blobs) (fil' : FILE) :
  barmaid_parse_btw junk fd fil = Some (b, fil') ->
  success b = true ->
  let data := f_data fil in
  elt (png_start b) 0 = prefix_end b + 4 /\
  forall i, (i < 2)%nat ->
    let s := elt (png_start b) i in
    4 <= s /\
    Zlength (slice data (s - 4) 4) = 4 /\
    elt (png_end b) i = s + le32 (slice data (s - 4) 4) /\
    s < elt (png_end b) i.
Proof.
  intros H Hs data.
  destruct (parse_btw_success_shape junk fd fil b fil' H Hs)
    as [found [f [p0 [p1 [pc [_ [_ [Hshape [Hb _]]]]]]]]].
  fold data in Hshape, Hb.
  destruct Hshape as [Hfound Hprefix Hlen0 Hgap0 Hlen1 Hgap1 Hcont].
  destruct Hprefix as [Hp0 _]. destruct Hgap0 as [Hp1 _].
  destruct Hlen0 as [Hf0 Hw0]. destruct Hlen1 as [Hf1 Hw1].
  pose proof (le32_range (slice data p0 4)) as Hr0.
  assert (Hl0 : Zlength (slice data p0 4) = 4) by (rewrite Zlength_slice; lia).
  assert (Hl1 : Zlength (slice data p1 4) = 4) by (rewrite Zlength_slice; lia).
  pose proof (le32_positive _ Hl0 Hw0) as Hpos0.
  pose proof (le32_positive _ Hl1 Hw1) as Hpos1.
  subst b. unfold btw_layout. cbn [png_start png_end prefix_end elt fst snd].
  split; [reflexivity|].
  intros i Hi. destruct i as [|[|i]]; [| |lia]; cbn [elt fst snd];
    [replace (p0 + 4 - 4) with p0 by lia | replace (p1 + 4 - 4) with p1 by lia];
    repeat split; try assumption; lia.
Qed.

(** X9: what [barmaid_parse_btw] skips in a file it accepts is padding,
    whole words of zero bytes: from four bytes behind the offset [found]
    that the scanner returned for the end marker of the header to the first
    length field, from the end of the first image to the second length
    field, and from the end of the second image to the container (to its
    compression marker, if it has one). *)
Theorem parse_btw_skips_only_zero_words (junk : nat -> Z -> byte) (fd : Z)
    (fil : FILE) (b : blobs) (fil' : FILE) :
  barmaid_parse_btw junk fd fil = Some (b, fil') ->
  success b = true ->
  let data := f_data fil in
  (exists found f,
     barmaid_find_seq (junk 1%nat) fil (sizeof barmaid_btw_mseq_sof)
       barmaid_btw_end_of_meta = Some (found, f) /\
     0 <= found /\
     padding data (found + sizeof barmaid_btw_end_of_meta) (prefix_end b)) /\
  padding data (elt (png_end b) 0) (elt (png_start b) 1 - 4) /\
  padding data (elt (png_end b) 1)
    (if container_zlib b then container_start b - sizeof barmaid_btw_zlib
     else container_start b).
Proof.
  intros H Hs data.
  destruct (parse_btw_success_shape junk fd fil b fil' H Hs)
    as [found [f [p0 [p1 [pc [_ [Hfind [Hshape [Hb _]]]]]]]]].
  fold data in Hshape, Hb.
  destruct Hshape as [Hfound Hprefix Hlen0 Hgap0 Hlen1 Hgap1 Hcont].
  subst b. unfold btw_layout.
  cbn [png_start png_end prefix_end elt fst snd container_zlib container_start].
  change (sizeof barmaid_btw_end_of_meta) with 4.
  change (sizeof barmaid_btw_zlib) with 2.
  split; [exists found, f; auto|].
  split; [replace (p1 + 4 - 4) with p1 by lia; assumption|].
  destruct (list_eq_dec Byte.byte_eq_dec (slice data pc 2) barmaid_btw_zlib);
    [replace (pc + 2 - 2) with pc by lia|]; assumption.
Qed.

(** ** The parser on a well-formed file *)

Lemma word_test_true (buff got : list byte) :
  Zlength got = 4 -> ~ zero_bytes got ->
  nonzero (nth 0 (store buff 0 got) x00) || nonzero (nth 1 (store buff 0 got) x00)
  || nonzero (nth 2 (store buff 0 got) x00) || nonzero (nth 3 (store buff 0 got) x00)
  = true.
Proof.
  intros Hlen Hnz.
  match goal with |- ?t = true => destruct t eqn:E end; [reflexivity|].
  exfalso. apply Hnz. apply (zero_word buff); [lia | exact E].
Qed.

Lemma word_test_false (buff got : list byte) :
  Zlength got = 4 -> zero_bytes got ->
  nonzero (nth 0 (store buff 0 got) x00) || nonzero (nth 1 (store buff 0 got) x00)
  || nonzero (nth 2 (store buff 0 got) x00) || nonzero (nth 3 (store buff 0 got) x00)
  = false.
Proof.
  intros Hlen Hz.
  match goal with |- ?t = false => destruct t eqn:E end; [|reflexivity].
  exfalso. apply (nonzero_word buff got); assumption.
Qed.

Lemma skip_words_stops (data : list byte) (r : Z) (k : nat) :
  forall fuel buff fil,
    f_data fil = data ->
    f_pos fil = r - 4 * Z.of_nat k ->
    0 <= f_pos fil ->
    zero_bytes (slice data (f_pos fil) (4 * Z.of_nat k)) ->
    nonzero_word_at data r ->
    (k < fuel)%nat ->
    skip_words fuel buff fil = Some (r, mkFILE data r).
Proof.
  induction k as [|k IH]; intros fuel buff fil Hd Hp Hpos Hz [Hfull Hw] Hfuel;
    (destruct fuel as [|fuel]; [lia|]); cbn [skip_words]; unfold ftell, fread;
    rewrite Hd.
  - replace (f_pos fil) with r by lia.
    assert (Hl : Zlength (slice data r 4) = 4) by (rewrite Zlength_slice; lia).
    rewrite Hl. cbn [Z.eqb]. rewrite (word_test_true buff _ Hl Hw).
    rewrite fseek_ok by lia. reflexivity.
  - set (pos := f_pos fil) in *.
    assert (Hl : Zlength (slice data pos 4) = 4) by (rewrite Zlength_slice; lia).
    replace (4 * Z.of_nat (S k)) with (4 + 4 * Z.of_nat k) in Hz by lia.
    rewrite <- slice_app in Hz by lia.
    apply Forall_app in Hz. destruct Hz as [Hz1 Hz2].
    rewrite Hl. cbn [Z.eqb]. rewrite (word_test_false buff _ Hl Hz1).
    apply IH; cbn [f_data f_pos]; try reflexivity; try lia; try assumption.
    split; assumption.
Qed.

Lemma skip_padding_stops (junk : Z -> byte) (fil : FILE) (lo r : Z) :
  let data := f_data fil in
  0 <= lo ->
  padding data lo r ->
  nonzero_word_at data r ->
  barmaid_skip_padding junk fil lo = Some (r, mkFILE data r).
Proof.
  intros data Hlo [Hle [Hmod Hz]] Hw. unfold barmaid_skip_padding.
  destruct (Z.geb_spec lo 0); [|lia].
  rewrite fseek_ok by exact Hlo. cbn [negb Z.eqb].
  assert (Hk : r - lo = 4 * ((r - lo) / 4))
    by (pose proof (Z.div_mod (r - lo) 4 ltac:(lia)); lia).
  assert (Hq : 0 <= (r - lo) / 4) by (apply Z.div_pos; lia).
  apply (skip_words_stops data r (Z.to_nat ((r - lo) / 4))); cbn [f_data f_pos];
    try reflexivity; try lia; try assumption.
  - rewrite Z2Nat.id by lia. rewrite <- Hk. exact Hz.
  - destruct Hw as [Hfull _]. pose proof (Zlength_correct (f_data fil)).
    subst data. lia.
Qed.

(** X10: a file that begins with the start signature, for which the scanner
    returns [found] as the offset of the end marker of the header, and which
    goes on behind [found + 4] with padding, a length field at [p0], an
    image of that length, padding, a length field at [p1], an image of that
    length, padding and at [pc] a container whose first word is not zero, is
    accepted with the layout of that shape, when it is read through a
    stream whose descriptor is greater than 0. *)
Theorem parse_btw_accepts_well_formed_file (junk : nat -> Z -> byte) (fd : Z)
    (data : list byte) (found : Z) (f : FILE) (p0 p1 pc : Z) :
  0 < fd ->
  firstn 26 data = barmaid_btw_mseq_sof ->
  barmaid_find_seq (junk 1%nat) (fopen data) (sizeof barmaid_btw_mseq_sof)
    barmaid_btw_end_of_meta = Some (found, f) ->
  btw_shape data found p0 p1 pc ->
  nonzero_word_at data pc ->
  barmaid_parse_btw junk fd (fopen data) =
    Some (btw_layout data p0 p1 pc, mkFILE data (pc + 2)).
Proof.
  intros Hfd Hsig Hfind Hshape Hwc.
  destruct Hshape as [Hfound Hprefix Hlen0 Hgap0 Hlen1 Hgap1 Hcont].
  pose proof Hprefix as [Hp0 _]. pose proof Hgap0 as [Hp1 _].
  pose proof Hgap1 as [Hpc _].
  pose proof Hlen0 as [Hf0 Hw0]. pose proof Hlen1 as [Hf1 Hw1].
  pose proof (le32_range (slice data p0 4)) as Hr0.
  pose proof (le32_range (slice data p1 4)) as Hr1.
  assert (Hl0 : Zlength (slice data p0 4) = 4) by (rewrite Zlength_slice; lia).
  assert (Hl1 : Zlength (slice data p1 4) = 4) by (rewrite Zlength_slice; lia).
  assert (Hlc : Zlength (slice data pc 2) = 2) by (rewrite Zlength_slice; lia).
  assert (Hlen : 26 <= Zlength data).
  { apply (f_equal (@length byte)) in Hsig. rewrite length_firstn in Hsig.
    cbn [length barmaid_btw_mseq_sof] in Hsig. rewrite Zlength_correct. lia. }
  unfold barmaid_parse_btw, parse_images, parse_header.
  (* the signature *)
  pose proof (is_btw_result (junk 0%nat) (fopen data)) as Hres.
  pose proof (is_btw_stream (junk 0%nat) (fopen data)) as Hstr.
  destruct (barmaid_is_btw (junk 0%nat) (fopen data)) as [is_btw fil1].
  cbn [fst snd] in Hres, Hstr. cbv zeta in Hres. cbn [fopen f_data f_pos] in Hres, Hstr.
  change (sizeof barmaid_btw_mseq_sof) with 26 in *.
  rewrite slice_0 in Hres, Hstr. change (Z.to_nat 26) with 26%nat in Hres, Hstr.
  rewrite Hsig in Hres, Hstr.
  assert (His : is_btw = true).
  { rewrite Hres. apply andb_true_intro. split; [reflexivity|].
    revert Hres. generalize (uninit (junk 0%nat) (Z.to_nat BUFF_SIZ)). intros buf _.
    apply Z.eqb_eq. rewrite store_0. apply memcmp_prefix. }
  rewrite His. clear His Hres. subst fil1. cbn [negb].
  (* the end of the header *)
  rewrite (find_seq_reposition _ (fopen data)) by (lia || reflexivity).
  rewrite Hfind. cbn [lift_early bind_early].
  destruct (Z.ltb_spec found 0) as [Hneg|_]; [lia|].
  pose proof (find_seq_data _ _ _ _ _ _ Hfind) as Hdf. cbn [fopen f_data] in Hdf.
  change (sizeof barmaid_btw_end_of_meta) with 4.
  rewrite (skip_padding_stops _ f (found + 4) p0) by (rewrite ?Hdf; assumption || lia).
  rewrite Hdf. cbn [lift_early bind_early].
  (* the first image *)
  unfold parse_image at 1. cbn [l_fil l_b l_start_of_blobsize l_buff l_blobsize].
  rewrite fseek_ok by lia. unfold fread at 1. cbn [f_data f_pos].
  rewrite Hl0. cbn [Z.eqb].
  cbn [png_start set_png_start png_end set_png_end]. rewrite !elt_set_elt.
  rewrite decode_full_word by exact Hl0.
  rewrite (skip_padding_stops _ _ (p0 + 4 + le32 (slice data p0 4)) p1)
    by (cbn [f_data]; assumption || lia).
  cbn [f_data lift_early bind_early].
  (* the second image *)
  unfold parse_image. cbn [l_fil l_b l_start_of_blobsize l_buff l_blobsize].
  rewrite fseek_ok by lia. unfold fread at 1. cbn [f_data f_pos].
  rewrite Hl1. cbn [Z.eqb].
  cbn [png_start set_png_start png_end set_png_end]. rewrite !elt_set_elt.
  rewrite decode_full_word by exact Hl1.
  rewrite (skip_padding_stops _ _ (p1 + 4 + le32 (slice data p1 4)) pc)
    by (cbn [f_data]; assumption || lia).
  cbn [f_data lift_early bind_early].
  (* the container *)
  unfold parse_container. cbn [l_fil l_b l_start_of_blobsize l_buff].
  unfold fread. cbn [f_data f_pos]. rewrite Hlc, Z.eqb_refl. cbn [negb].
  rewrite zlib_test by exact Hlc. unfold st_size, fstat. cbn [f_data].
  destruct (Z.eqb_spec fd 0) as [Hc|_]; [lia|].
  destruct (Z.ltb_spec fd 0) as [Hc|_]; [lia|]. cbn [Z.eqb negb orb].
  change (sizeof barmaid_btw_zlib) with 2. unfold btw_layout.
  pose proof (Zlength_nonneg data).
  destruct (list_eq_dec Byte.byte_eq_dec (slice data pc 2) barmaid_btw_zlib);
    cbn [container_start container_end set_container_start set_container_end
         set_container_zlib success prefix_end png_start png_end container_zlib
         set_success set_prefix_end blobs_init set_elt fst snd];
    match goal with |- context [if ?c then _ else _] => destruct c eqn:Ec end;
    try reflexivity;
    apply orb_prop in Ec; destruct Ec as [Ec|Ec]; apply Z.leb_le in Ec; lia.
Qed.

(** ** The range extractor on the ranges of a layout and at its edges *)

(** The extractor on [size] bytes from the cursor of the source. *)
Lemma dump_chunks_from_cursor (infile outfile : FILE) (size : Z) (fuel : nat) :
  let src := f_data infile in
  let cur := f_pos infile in
  0 <= cur -> 0 <= size ->
  cur + size <= Zlength src ->
  size + BUFF_SIZ < 2 ^ 64 ->
  size < Z.of_nat fuel ->
  dump_chunks fuel size 0 infile (mkFILE (f_data outfile) 0) =
  Some (true, mkFILE src (cur + size),
        mkFILE (slice src cur size ++ drop size (f_data outfile)) size).
Proof.
  intros src cur Hcur Hsize Hlen Hmax Hfuel.
  apply dump_chunks_ok; cbn [f_data f_pos]; try lia; try reflexivity.
  rewrite Z.min_l by lia. rewrite slice_nothing, drop_0. reflexivity.
Qed.

Lemma dump_file_range (infile outfile : FILE) (start end_ : Z) :
  let src := f_data infile in
  0 <= start <= end_ ->
  end_ <= Zlength src ->
  Zlength src <= LONG_MAX ->
  barmaid_dump_file infile start end_ outfile =
  Some (true, mkFILE src end_,
        mkFILE (slice src start (end_ - start) ++ drop (end_ - start) (f_data outfile))
               (end_ - start)).
Proof.
  intros src Hrange Hend Hmax. unfold LONG_MAX in Hmax.
  pose proof (Zlength_correct src) as Hl. fold src in Hl.
  unfold barmaid_dump_file. rewrite wrap_size_t_small by lia.
  rewrite (fseek_ok infile) by lia. rewrite (fseek_ok outfile) by lia.
  rewrite (dump_chunks_from_cursor (mkFILE (f_data infile) start) outfile);
    cbn [f_data f_pos]; fold src; try lia.
  - replace (start + (end_ - start)) with end_ by lia. reflexivity.
  - change BUFF_SIZ with 8192. lia.
Qed.

(** X11: every range of a layout that [barmaid_parse_btw] accepts can be
    extracted: for the prefix, both images and the container the extractor
    returns true and delivers the bytes of the range. *)
Theorem parse_btw_ranges_can_be_extracted (junk : nat -> Z -> byte) (fd : Z)
    (fil : FILE) (b : blobs) (fil' outfile : FILE) (start end_ : Z) :
  let data := f_data fil in
  Zlength data <= LONG_MAX ->
  barmaid_parse_btw junk fd fil = Some (b, fil') ->
  success b = true ->
  In (start, end_)
     [(0, prefix_end b);
      (elt (png_start b) 0, elt (png_end b) 0);
      (elt (png_start b) 1, elt (png_end b) 1);
      (container_start b, container_end b)] ->
  Zlength (slice data start (end_ - start)) = end_ - start /\
  barmaid_dump_file fil' start end_ outfile =
  Some (true, mkFILE data end_,
        mkFILE (slice data start (end_ - start) ++ drop (end_ - start) (f_data outfile))
               (end_ - start)).
Proof.
  intros data Hmax H Hs Hin.
  destruct (parse_btw_success_shape junk fd fil b fil' H Hs)
    as [found [f [p0 [p1 [pc [_ [_ [Hshape [Hb Hfil]]]]]]]]].
  fold data in Hshape, Hb, Hfil.
  destruct Hshape as [Hfound [Hp0 _] [Hf0 _] [Hp1 _] [Hf1 _] [Hpc _] Hcont].
  pose proof (le32_range (slice data p0 4)) as Hr0.
  pose proof (le32_range (slice data p1 4)) as Hr1.
  assert (Hrange : 0 <= start <= end_ /\ end_ <= Zlength data).
  { subst b. unfold btw_layout in Hin.
    cbn [In png_start png_end prefix_end container_start container_end
         container_zlib elt fst snd] in Hin.
    destruct (list_eq_dec Byte.byte_eq_dec (slice data pc 2) barmaid_btw_zlib);
      destruct Hin as [E|[E|[E|[E|[]]]]]; injection E as <- <-; lia. }
  split; [rewrite Zlength_slice by lia; lia|].
  subst fil'. apply (dump_file_range (mkFILE data (pc + 2))); cbn [f_data]; lia.
Qed.

(** The copy loop when the source ends before [size] bytes are copied. *)
Lemma dump_chunks_exhaust (src dst : list byte) (start size copied : Z) (fuel : nat) :
  forall k infile outfile,
    0 <= start -> 0 <= k ->
    0 <= copied <= Z.max 0 (Zlength src - start) ->
    Z.max 0 (Zlength src - start) < copied + BUFF_SIZ ->
    copied + BUFF_SIZ <= size ->
    copied + BUFF_SIZ < 2 ^ 64 ->
    (exists n, copied = BUFF_SIZ * n) ->
    BUFF_SIZ * k <= copied ->
    f_data infile = src ->
    f_pos infile = start + BUFF_SIZ * k ->
    f_pos outfile = BUFF_SIZ * k ->
    f_data outfile = slice src start (BUFF_SIZ * k) ++ drop (BUFF_SIZ * k) dst ->
    copied - BUFF_SIZ * k < Z.of_nat fuel ->
    exists infile',
      dump_chunks fuel size (BUFF_SIZ * k) infile outfile =
      Some (false, infile', mkFILE (slice src start copied ++ drop copied dst) copied).
Proof.
  induction fuel as [|fuel IH];
    intros k infile outfile Hstart Hk Hcop Hrest Hsize Hmax [n Hn] Hi Hsrc Hpin Hpout
           Hdout Hfuel; [lia|].
  rewrite dump_chunks_S. change BUFF_SIZ with 8192 in *.
  destruct (Z.ltb_spec (8192 * k) size) as [Hlt|Hge]; [|lia].
  cbv zeta. set (chunk := Z.min (size - 8192 * k) 8192).
  assert (Hchunk : chunk = 8192) by (unfold chunk; lia).
  destruct (fread chunk infile) as [got infile1] eqn:Er.
  apply fread_inv in Er. destruct Er as [Hgot [Hd1 Hp1]].
  rewrite Hsrc, Hpin in Hgot.
  pose proof (Zlength_slice src (start + 8192 * k) chunk) as Hzl.
  rewrite <- Hgot in Hzl.
  destruct (Z.eq_dec (8192 * k) copied) as [Hend|Hmore].
  - (* the chunk that the source cannot fill *)
    destruct (Z.eqb_spec (Zlength got) chunk) as [E|E]; [lia|].
    cbn [negb]. exists infile1.
    destruct outfile as [d p]. cbn [f_data f_pos] in *. subst d p.
    rewrite Hend. reflexivity.
  - assert (Hgl : Zlength got = chunk) by lia.
    rewrite Hgl, Z.eqb_refl. cbn [negb].
    pose proof (fwrite_count got outfile) as Hw.
    assert (Hdone : Zlength (slice src start (8192 * k)) = 8192 * k)
      by (rewrite Zlength_slice by lia; lia).
    pose proof (fwrite_append got _ _ outfile Hdout) as Ho.
    rewrite Hdone in Ho. specialize (Ho Hpout).
    destruct (fwrite got outfile) as [written outfile1].
    cbn [fst snd] in Hw, Ho. subst written outfile1.
    rewrite Hgl, Z.eqb_refl. cbn [negb].
    rewrite wrap_size_t_small by lia.
    replace (8192 * k + 8192) with (8192 * (k + 1)) by lia.
    apply IH; try lia; cbn [f_data f_pos]; try congruence.
    + exists n. exact Hn.
    + rewrite Zlength_app, Hdone, Hgl. lia.
    + rewrite Hgot at 1. rewrite slice_app by lia.
      rewrite !drop_skipn, skipn_skipn, Hchunk.
      replace (8192 * k + 8192) with (8192 * (k + 1)) by lia.
      do 2 f_equal. lia.
Qed.

(** X12: a range whose end lies before its start is never extracted: the
    difference wraps to a huge [size_t], the extractor copies the full 8 KiB
    chunks that the source holds from [start] on and returns false. *)
Theorem dump_file_rejects_reversed_range (infile outfile : FILE) (start end_ : Z) :
  let src := f_data infile in
  let dst := f_data outfile in
  let copied := BUFF_SIZ * (Z.max 0 (Zlength src - start) / BUFF_SIZ) in
  0 <= end_ < start ->
  start <= LONG_MAX ->
  Zlength src <= LONG_MAX ->
  exists infile',
    barmaid_dump_file infile start end_ outfile =
    Some (false, infile', mkFILE (slice src start copied ++ drop copied dst) copied).
Proof.
  intros src dst copied Hrev Hstart Hmax. unfold LONG_MAX in *.
  change BUFF_SIZ with 8192 in copied.
  pose proof (Zlength_correct src) as Hl. fold src in Hl.
  pose proof (Zlength_nonneg src) as Hnn.
  unfold barmaid_dump_file.
  assert (Hsize : wrap_size_t (end_ - start) = 2 ^ 64 + (end_ - start)).
  { unfold wrap_size_t. symmetry. apply Z.mod_unique_pos with (q := -1); lia. }
  rewrite Hsize.
  rewrite (fseek_ok infile) by lia. rewrite (fseek_ok outfile) by lia.
  assert (Hc : 0 <= copied <= Z.max 0 (Zlength src - start) /\
               Z.max 0 (Zlength src - start) < copied + 8192).
  { unfold copied. Z.div_mod_to_equations. lia. }
  destruct (dump_chunks_exhaust src dst start (2 ^ 64 + (end_ - start)) copied
              (S (length (f_data infile))) 0 (mkFILE src start) (mkFILE dst 0))
    as [infile' H]; cbn [f_data f_pos]; change BUFF_SIZ with 8192;
    try lia; try reflexivity.
  - eexists. reflexivity.
  - rewrite slice_nothing, drop_0. reflexivity.
  - fold src. lia.
  - exists infile'. exact H.
Qed.

(** X13: with a negative [start] the source is not repositioned: the
    [end_ - start] bytes are taken from its cursor. *)
Theorem dump_file_negative_start_copies_from_cursor (infile outfile : FILE)
    (start end_ : Z) :
  let src := f_data infile in
  let cur := f_pos infile in
  let size := end_ - start in
  start < 0 ->
  start <= end_ ->
  0 <= cur ->
  cur + size <= Zlength src ->
  Zlength src <= LONG_MAX ->
  barmaid_dump_file infile start end_ outfile =
  Some (true, mkFILE src (cur + size),
        mkFILE (slice src cur size ++ drop size (f_data outfile)) size).
Proof.
  intros src cur size Hneg Hle Hcur Hfit Hmax. unfold LONG_MAX in Hmax.
  pose proof (Zlength_correct src) as Hl. fold src in Hl.
  unfold barmaid_dump_file. fold size.
  rewrite wrap_size_t_small by (unfold size in *; lia).
  rewrite (fseek_negative infile) by lia. rewrite (fseek_ok outfile) by lia.
  apply dump_chunks_from_cursor; fold src cur; try (unfold size in *; lia).
  change BUFF_SIZ with 8192. unfold size in *. lia.
Qed.

(** ** The heuristic on a file of one chunk *)

Lemma find_seq_first_at (junk : Z -> byte) (fil : FILE) (seq : list byte) (lo p : Z) :
  seq <> [] ->
  0 <= lo ->
  Zlength (f_data fil) <= BUFF_SIZ ->
  first_at (f_data fil) seq lo p ->
  barmaid_find_seq junk fil lo seq = Some (p, mkFILE (f_data fil) p) /\
  p + Zlength seq <= Zlength (f_data fil).
Proof.
  intros Hne Hlo Hsmall [Hle [Hat Hbefore]].
  assert (Hend : p + Zlength seq <= Zlength (f_data fil))
    by (apply occurrence_fits; assumption || lia).
  split; [|exact Hend].
  pose proof (find_seq_first_chunk junk fil lo seq p) as H. cbv zeta in H.
  destruct (Z.geb_spec lo 0) as [_|Hlt]; [|lia].
  rewrite H; try assumption; try lia.
  replace (lo + (p - lo)) with p by lia. rewrite fseek_ok by lia. reflexivity.
Qed.

Lemma heuristic_image_first_at (junk_s junk_e : Z -> byte) (i : nat) (b : blobs)
    (offset : Z) (fil : FILE) (s e : Z) :
  let data := f_data fil in
  Zlength data <= BUFF_SIZ ->
  0 <= offset ->
  first_at data barmaid_start_mseq_png offset s ->
  first_at data barmaid_end_mseq_png s e ->
  heuristic_image junk_s junk_e i (b, offset, fil) =
  Some (inr (set_png_end (set_png_start b i s) i (e + 12), e + 12, mkFILE data e)).
Proof.
  intros data Hsmall Hoff Hs He.
  pose proof Hs as [Hs0 _]. pose proof He as [He0 _].
  unfold heuristic_image.
  destruct (find_seq_first_at junk_s fil barmaid_start_mseq_png offset s)
    as [E0 _]; try assumption; try discriminate.
  rewrite E0. cbn [lift_early bind_early png_start set_png_start]. rewrite elt_set_elt.
  destruct (Z.ltb_spec s 0) as [Hn|_]; [lia|].
  destruct (find_seq_first_at junk_e (mkFILE data s) barmaid_end_mseq_png s e)
    as [E1 _]; try assumption; try lia; try discriminate.
  cbn [f_data] in E1. fold data. rewrite E1.
  cbn [lift_early bind_early png_end set_png_end]. rewrite !elt_set_elt.
  destruct (Z.ltb_spec e 0) as [Hn|_]; [lia|].
  change (sizeof barmaid_end_mseq_png) with 12.
  destruct i; reflexivity.
Qed.

(** X14: in a file of at most 8192 bytes the heuristic finds the first two
    pairs of a PNG start marker and the next end marker: when they occur at
    [s0], [e0], [s1] and [e1], it succeeds with the images [s0, e0 + 12) and
    [s1, e1 + 12). *)
Theorem heuristic_png_finds_first_two_images (junk : nat -> Z -> byte)
    (data : list byte) (s0 e0 s1 e1 : Z) :
  Zlength data <= BUFF_SIZ ->
  first_at data barmaid_start_mseq_png 0 s0 ->
  first_at data barmaid_end_mseq_png s0 e0 ->
  first_at data barmaid_start_mseq_png (e0 + sizeof barmaid_end_mseq_png) s1 ->
  first_at data barmaid_end_mseq_png s1 e1 ->
  barmaid_heuristic_png junk (fopen data) =
  Some (mkblobs true (-1) (s0, s1)
          (e0 + sizeof barmaid_end_mseq_png, e1 + sizeof barmaid_end_mseq_png)
          false (-1) (-1),
        mkFILE data e1).
Proof.
  intros Hsmall H0 H1 H2 H3. change (sizeof barmaid_end_mseq_png) with 12 in *.
  pose proof H0 as [Hs0 _]. pose proof H1 as [He0 _].
  unfold barmaid_heuristic_png.
  rewrite (heuristic_image_first_at _ _ _ _ _ (fopen data) s0 e0)
    by (cbn [f_data fopen]; assumption || lia).
  cbn [bind_early f_data fopen].
  rewrite (heuristic_image_first_at _ _ _ _ _ (mkFILE data e0) s1 e1)
    by (cbn [f_data]; assumption || lia).
  reflexivity.
Qed.

(** ** The command line tool *)

(** ** The option loop *)

Lemma option_case_spec (o : options) (opt : Ascii.ascii) (optarg : String.string) :
  (opt = "b"%char /\ exists o', option_case o opt optarg = inl o') \/
  (opt <> "b"%char /\
   exists o',
     option_case o opt optarg = inr o' /\
     build o' = build o /\
     help o' = help o || Ascii.eqb opt "h"%char /\
     extract o' = extract o || Ascii.eqb opt "e"%char /\
     heuristic o' = heuristic o || Ascii.eqb opt "s"%char).
Proof.
  unfold option_case.
  destruct (Ascii.eqb_spec opt "h"%char) as [->|Hh].
  { right. split; [discriminate|]. eexists. split; [reflexivity|].
    cbn. rewrite !orb_false_r, orb_true_r. auto. }
  destruct (Ascii.eqb_spec opt "s"%char) as [->|Hs].
  { right. split; [discriminate|]. eexists. split; [reflexivity|].
    cbn. rewrite !orb_false_r, orb_true_r. auto. }
  destruct (Ascii.eqb_spec opt "p"%char) as [->|Hp].
  { right. split; [discriminate|]. eexists. split; [reflexivity|].
    cbn. rewrite !orb_false_r. auto. }
  destruct (Ascii.eqb_spec opt "c"%char) as [->|Hc].
  { right. split; [discriminate|]. eexists. split; [reflexivity|].
    cbn. rewrite !orb_false_r. auto. }
  destruct (Ascii.eqb_spec opt "b"%char) as [->|Hb].
  { left. split; [reflexivity|]. eexists. reflexivity. }
  right. split; [exact Hb|].
  destruct (Ascii.eqb_spec opt "e"%char) as [->|He].
  { eexists. split; [reflexivity|]. cbn. rewrite !orb_false_r, orb_true_r. auto. }
  destruct (Ascii.eqb_spec opt "i"%char) as [->|Hi].
  { eexists. split; [reflexivity|]. cbn. rewrite !orb_false_r. auto. }
  destruct (Ascii.eqb_spec opt "m"%char) as [->|Hm].
  { eexists. split; [reflexivity|]. cbn. rewrite !orb_false_r. auto. }
  destruct (Ascii.eqb_spec opt "v"%char) as [->|Hv].
  { eexists. split; [reflexivity|]. cbn. rewrite !orb_false_r. auto. }
  eexists. split; [reflexivity|]. rewrite !orb_false_r. auto.
Qed.

Lemma or_eqb_in (flag : bool) (c opt : Ascii.ascii) (rest : list Ascii.ascii) :
  (flag || Ascii.eqb opt c = true \/ In c rest) <->
  (flag = true \/ In c (opt :: rest)).
Proof.
  cbn [In]. rewrite orb_true_iff.
  destruct (Ascii.eqb_spec opt c); intuition congruence.
Qed.

Lemma option_loop_aborts (opts : list (Ascii.ascii * String.string)) :
  forall o, In "b"%char (map fst opts) -> exists o', option_loop opts o = inl o'.
Proof.
  induction opts as [|[opt optarg] opts IH]; intros o Hin; [contradiction|].
  cbn [option_loop]. cbn [map fst In] in Hin.
  destruct (option_case_spec o opt optarg) as [[_ [o' E]]|[Hne [o' [E _]]]];
    rewrite E.
  - eauto.
  - apply IH. destruct Hin as [Hin|Hin]; [congruence | exact Hin].
Qed.

Lemma option_loop_finishes (opts : list (Ascii.ascii * String.string)) :
  forall o0 o,
    option_loop opts o0 = inr o ->
    ~ In "b"%char (map fst opts) /\
    build o = build o0 /\
    (help o = true <-> help o0 = true \/ In "h"%char (map fst opts)) /\
    (extract o = true <-> extract o0 = true \/ In "e"%char (map fst opts)) /\
    (heuristic o = true <-> heuristic o0 = true \/ In "s"%char (map fst opts)).
Proof.
  induction opts as [|[opt optarg] opts IH]; intros o0 o H.
  - injection H as <-. cbn [map In]. tauto.
  - cbn [option_loop] in H.
    destruct (option_case_spec o0 opt optarg)
      as [[_ [o' E]]|[Hne [o' [E [Hb [Hh [He Hs]]]]]]]; rewrite E in H;
      [discriminate|].
    apply IH in H. destruct H as [Hnb [Hb' [Hh' [He' Hs']]]].
    cbn [map fst].
    split; [cbn [In]; intros [Hc|Hc]; [congruence | contradiction]|].
    split; [congruence|].
    rewrite Hh in Hh'. rewrite He in He'. rewrite Hs in Hs'.
    rewrite or_eqb_in in Hh', He', Hs'. auto.
Qed.

Lemma option_loop_total (opts : list (Ascii.ascii * String.string)) (o0 : options) :
  ~ In "b"%char (map fst opts) -> exists o, option_loop opts o0 = inr o.
Proof.
  revert o0. induction opts as [|[opt optarg] opts IH]; intros o0 Hnb.
  - eexists. reflexivity.
  - cbn [option_loop]. cbn [map fst In] in Hnb.
    destruct (option_case_spec o0 opt optarg) as [[Hb _]|[_ [o' [E _]]]].
    + exfalso. apply Hnb. left. exact Hb.
    + rewrite E. apply IH. tauto.
Qed.

(** X15: as soon as [getopt] delivers -b the tool gives up: it prints that
    build mode is not implemented and exits with status 1, whatever else the
    command line holds, and opens no file. *)
Theorem main_refuses_build_mode (inf : FILE -> FILE -> Z * FILE * FILE)
    (junk : nat -> Z -> byte) (env : filesystem) (argv : list String.string)
    (opts : list (Ascii.ascii * String.string)) (optind : Z) :
  In "b"%char (map fst opts) ->
  main inf junk env argv opts optind = Some (mkresult 1 [msg_not_implemented] None).
Proof.
  intros Hin. unfold main.
  destruct (option_loop_aborts opts options_init Hin) as [o' E]. rewrite E.
  reflexivity.
Qed.

(** X16: without -b, the option -h or a command line without arguments makes
    the tool print its help and exit with status 0, without opening a
    file. *)
Theorem main_prints_help (inf : FILE -> FILE -> Z * FILE * FILE)
    (junk : nat -> Z -> byte) (env : filesystem) (argv : list String.string)
    (opts : list (Ascii.ascii * String.string)) (optind : Z) :
  ~ In "b"%char (map fst opts) ->
  In "h"%char (map fst opts) \/ Zlength argv < 2 ->
  main inf junk env argv opts optind = Some (mkresult 0 [msg_help] None).
Proof.
  intros Hnb Hhelp. unfold main.
  destruct (option_loop_total opts options_init Hnb) as [o E]. rewrite E.
  apply option_loop_finishes in E. destruct E as [_ [_ [Hh _]]].
  assert (Hc : help o || (Zlength argv <? 2) = true).
  { apply orb_true_iff. destruct Hhelp as [H|H].
    - left. apply Hh. right. exact H.
    - right. apply Z.ltb_lt. exact H. }
  rewrite Hc. reflexivity.
Qed.

(** X17: the tool opens a file only in extract mode and with exactly one
    argument behind the options: if any stream was open at exit, [getopt]
    had delivered -e, neither -b nor -h, and had left [optind] at the last
    argument, which names a file that can be read. *)
Theorem main_opens_files_only_to_extract (inf : FILE -> FILE -> Z * FILE * FILE)
    (junk : nat -> Z -> byte) (env : filesystem) (argv : list String.string)
    (opts : list (Ascii.ascii * String.string)) (optind : Z) (r : result) :
  main inf junk env argv opts optind = Some r ->
  closed r <> None ->
  In "e"%char (map fst opts) /\
  ~ In "b"%char (map fst opts) /\
  ~ In "h"%char (map fst opts) /\
  optind + 1 = Zlength argv /\
  fs_read env (nth (Z.to_nat optind) argv String.EmptyString) <> None.
Proof.
  intros H Hopen. unfold main in H.
  destruct (option_loop opts options_init) as [o'|o] eqn:E.
  { injection H as <-. contradiction. }
  apply option_loop_finishes in E. destruct E as [Hnb [Hb [Hh [He _]]]].
  cbn [options_init build help extract] in Hb, Hh, He.
  destruct (help o) eqn:Ehelp; cbn [orb] in H.
  { injection H as <-. contradiction. }
  destruct (Z.ltb_spec (Zlength argv) 2) as [Hargc|Hargc].
  { injection H as <-. contradiction. }
  rewrite Hb in H. cbn [xorb] in H.
  destruct (extract o) eqn:Eext; cbn [negb] in H.
  2:{ injection H as <-. contradiction. }
  destruct (Z.ltb_spec (optind + 1) (Zlength argv)) as [Hmany|Hmany].
  { injection H as <-. contradiction. }
  destruct (Z.ltb_spec optind (Zlength argv)) as [Hfile|Hfile]; cbn [negb] in H.
  2:{ injection H as <-. contradiction. }
  split; [destruct He as [He _]; destruct (He eq_refl) as [Hc|Hc];
          [discriminate | exact Hc]|].
  split; [exact Hnb|].
  split; [intros Hc; assert (false = true) by (apply Hh; right; exact Hc);
          discriminate|].
  split; [lia|].
  unfold input_mode in H. rewrite Eext in H. unfold fopen_path in H.
  destruct (fs_read env _); [discriminate|].
  cbn [option_map] in H. injection H as <-. contradiction.
Qed.

(** [main] up to the parsed layout, in extract mode with one file name. *)
Lemma main_in_extract_mode (inf : FILE -> FILE -> Z * FILE * FILE)
    (junk : nat -> Z -> byte) (env : filesystem) (argv : list String.string)
    (opts : list (Ascii.ascii * String.string)) (optind : Z) (o : options)
    (data : list byte) :
  option_loop opts options_init = inr o ->
  help o = false ->
  extract o = true ->
  1 <= optind ->
  optind + 1 = Zlength argv ->
  fs_read env (nth (Z.to_nat optind) argv String.EmptyString) = Some data ->
  main inf junk env argv opts optind =
  let file_str := nth (Z.to_nat optind) argv String.EmptyString in
  let err := if heuristic o then say o msg_heuristics_active [] else [] in
  match (if heuristic o then barmaid_heuristic_png junk (fopen data)
         else barmaid_parse_btw junk (fs_fileno env file_str) (fopen data)) with
  | None => None
  | Some (b, file1) =>
      let h := mkhandles file1 (None, None) None None in
      if negb (success b)
      then Some (mkresult 1
                   (err ++ [if heuristic o then msg_heuristic_failed file_str
                            else msg_parse_failed file_str])
                   (Some h))
      else option_map finish (extract_blobs inf env o b h err)
  end.
Proof.
  intros E Hhelp Hext Hind Hargc Hread. unfold main. rewrite E.
  apply option_loop_finishes in E. destruct E as [_ [Hb _]].
  cbn [options_init build] in Hb.
  rewrite Hhelp, Hb, Hext. cbn [orb xorb negb].
  destruct (Z.ltb_spec (Zlength argv) 2) as [Hc|_]; [lia|].
  destruct (Z.ltb_spec (optind + 1) (Zlength argv)) as [Hc|_]; [lia|].
  destruct (Z.ltb_spec optind (Zlength argv)) as [_|Hc]; [|lia].
  cbn [negb]. unfold input_mode. rewrite Hext. unfold fopen_path.
  rewrite Hread. reflexivity.
Qed.

(** X18: when the input file is rejected, by the parser or, with -s, by the
    heuristic, the tool exits with status 1 and has opened no output
    file. *)
Theorem main_opens_no_output_for_rejected_file (inf : FILE -> FILE -> Z * FILE * FILE)
    (junk : nat -> Z -> byte) (env : filesystem) (argv : list String.string)
    (opts : list (Ascii.ascii * String.string)) (optind : Z) (o : options)
    (data : list byte) (b : blobs) (fil' : FILE) :
  option_loop opts options_init = inr o ->
  help o = false ->
  extract o = true ->
  1 <= optind ->
  optind + 1 = Zlength argv ->
  fs_read env (nth (Z.to_nat optind) argv String.EmptyString) = Some data ->
  (if heuristic o then barmaid_heuristic_png junk (fopen data)
   else barmaid_parse_btw junk
          (fs_fileno env (nth (Z.to_nat optind) argv String.EmptyString))
          (fopen data)) = Some (b, fil') ->
  success b = false ->
  exists err,
    main inf junk env argv opts optind =
    Some (mkresult 1 err (Some (mkhandles fil' (None, None) None None))).
Proof.
  intros E Hhelp Hext Hind Hargc Hread Hparse Hfail.
  rewrite (main_in_extract_mode inf junk env argv opts optind o data)
    by assumption.
  cbv zeta. rewrite Hparse, Hfail. cbn [negb]. eexists. reflexivity.
Qed.

(** ** The streams through the steps of [main] *)

Lemma and_then_inv (s : option step) (k : handles -> list message -> option step)
    (r : step) :
  and_then s k = Some r ->
  (exists a, s = Some (inl a) /\ r = inl a) \/
  (exists h err, s = Some (inr (h, err)) /\ k h err = Some r).
Proof.
  unfold and_then. destruct s as [[a|[h err]]|]; intros H; [| |discriminate].
  - left. exists a. split; [reflexivity | congruence].
  - right. exists h, err. split; [reflexivity | exact H].
Qed.

Lemma open_image_keeps (env : filesystem) (o : options) (i : nat) (h : handles)
    (err : list message) :
  prefix (streams_of (open_image env o i h err)) = prefix h /\
  container (streams_of (open_image env o i h err)) = container h.
Proof.
  unfold open_image. destruct (item (png_str o) i); [|split; reflexivity].
  destruct (fopen_path env _ _); split; reflexivity.
Qed.

Lemma dump_image_keeps (o : options) (b : blobs) (i : nat) (h : handles)
    (err : list message) (s : step) :
  dump_image o b i h err = Some s ->
  prefix (streams_of s) = prefix h /\ container (streams_of s) = container h.
Proof.
  unfold dump_image. destruct (item (png h) i).
  - destruct (barmaid_dump_file _ _ _ _) as [[[ok file1] out1]|]; [|discriminate].
    destruct (negb ok); intros H; injection H as <-; split; reflexivity.
  - intros H. injection H as <-. split; reflexivity.
Qed.

(** X19: with -s the tool never opens a prefix or a container file, whatever
    -p and -c name. *)
Theorem main_heuristic_mode_opens_no_prefix_or_container
    (inf : FILE -> FILE -> Z * FILE * FILE)
    (junk : nat -> Z -> byte) (env : filesystem) (argv : list String.string)
    (opts : list (Ascii.ascii * String.string)) (optind : Z) (r : result)
    (h : handles) :
  In "s"%char (map fst opts) ->
  main inf junk env argv opts optind = Some r ->
  closed r = Some h ->
  prefix h = None /\ container h = None.
Proof.
  intros Hs H Hclosed. unfold main in H.
  destruct (option_loop opts options_init) as [o'|o] eqn:E.
  { injection H as <-. discriminate. }
  apply option_loop_finishes in E. destruct E as [_ [_ [_ [_ Hheur]]]].
  assert (Eh : heuristic o = true) by (apply Hheur; right; exact Hs).
  rewrite Eh in H.
  destruct (help o || (Zlength argv <? 2)); [injection H as <-; discriminate|].
  destruct (negb (xorb (build o) (extract o))); [injection H as <-; discriminate|].
  destruct (optind + 1 <? Zlength argv); [injection H as <-; discriminate|].
  destruct (negb (optind <? Zlength argv)); [injection H as <-; discriminate|].
  cbv zeta in H.
  destruct (fopen_path env _ _) as [file0|]; [|injection H as <-; discriminate].
  destruct (barmaid_heuristic_png junk file0) as [[b file1]|]; [|discriminate].
  destruct (negb (success b)).
  { injection H as <-. injection Hclosed as <-. split; reflexivity. }
  destruct (extract_blobs inf env o b _ _) as [s|] eqn:Ex; [|discriminate].
  injection H as <-.
  assert (Hk : prefix (streams_of s) = None /\ container (streams_of s) = None).
  { clear Hclosed. unfold extract_blobs in Ex. rewrite Eh in Ex.
    set (h0 := mkhandles file1 (None, None) None None) in *.
    assert (B0 : prefix h0 = None /\ container h0 = None) by (split; reflexivity).
    pose proof (open_image_keeps env o 0 h0
                  (say o msg_heuristics_active [])) as K0.
    apply and_then_inv in Ex.
    destruct Ex as [[a [E0 ->]]|[h1 [err1 [E0 Ex]]]]; injection E0 as E0;
      rewrite E0 in K0; cbn [streams_of] in K0.
    { destruct B0, K0. cbn [streams_of]. split; congruence. }
    pose proof (open_image_keeps env o 1 h1 err1) as K1.
    apply and_then_inv in Ex.
    destruct Ex as [[a [E1 ->]]|[h2 [err2 [E1 Ex]]]]; injection E1 as E1;
      rewrite E1 in K1; cbn [streams_of] in K1.
    { destruct B0, K0, K1. cbn [streams_of]. split; congruence. }
    apply and_then_inv in Ex.
    destruct Ex as [[a [E2 ->]]|[h3 [err3 [E2 Ex]]]]; [discriminate|].
    injection E2 as <- <-.
    apply and_then_inv in Ex.
    destruct Ex as [[a [E3 ->]]|[h4 [err4 [E3 Ex]]]];
      apply dump_image_keeps in E3; cbn [streams_of] in E3.
    { destruct B0, K0, K1, E3. cbn [streams_of]. split; congruence. }
    apply and_then_inv in Ex.
    destruct Ex as [[a [E4 ->]]|[h5 [err5 [E4 Ex]]]];
      apply dump_image_keeps in E4; cbn [streams_of] in E4.
    { destruct B0, K0, K1, E3, E4. cbn [streams_of]. split; congruence. }
    injection Ex as <-. cbn [streams_of].
    destruct B0, K0, K1, E3, E4. split; congruence. }
  destruct s as [[hs errs]|[hs errs]]; cbn [finish closed streams_of] in *;
    injection Hclosed as <-; exact Hk.
Qed.













(** ** The theorems at sample files *)

Lemma parse_btw_layout_ordered_witness :
  barmaid_parse_btw zero_junks 3 (fopen sample_btw) =
    Some (mkblobs true 30 (34, 42) (38, 46) true 48 50, mkFILE sample_btw 48) /\
  0 <= 30 /\ 30 <= 34 /\ 34 <= 38 /\ 38 <= 42 /\ 42 <= 46 /\ 46 <= 48 /\
  48 <= 50 /\ 50 = Zlength sample_btw.
Proof.
  split; [vm_compute; reflexivity|].
  apply (parse_btw_layout_ordered zero_junks 3 (fopen sample_btw)
           (mkblobs true 30 (34, 42) (38, 46) true 48 50) (mkFILE sample_btw 48));
    [vm_compute; reflexivity | reflexivity].
Defined.

Lemma parse_btw_container_detection_witness :
  exists b fil',
    barmaid_parse_btw zero_junks 3 (fopen sample_btw) = Some (b, fil') /\
    (0 <= 46 -> slice sample_btw 46 2 = barmaid_btw_zlib ->
     container_zlib b = true /\ container_start b = 46 + 2) /\
    (0 <= 46 -> Zlength (slice sample_btw 46 2) = 2 ->
     slice sample_btw 46 2 <> barmaid_btw_zlib ->
     container_zlib b = false /\ container_start b = 46) /\
    (46 < 0 \/ Zlength (slice sample_btw 46 2) < 2 -> success b = false).
Proof.
  apply (parse_btw_container_detection zero_junks 3 (fopen sample_btw)
           (mklocals (mkFILE sample_btw 46)
                     (mkblobs false 30 (34, 42) (38, 46) false (-1) (-1))
                     46 [x04; x00; x00; x00] 4)).
  vm_compute. reflexivity.
Defined.

Lemma parse_btw_rejects_missing_signature_witness :
  firstn 26 sample_pngs <> barmaid_btw_mseq_sof /\
  exists b fil',
    barmaid_parse_btw zero_junks 3 (fopen sample_pngs) = Some (b, fil') /\
    success b = false.
Proof.
  assert (H : firstn 26 sample_pngs <> barmaid_btw_mseq_sof)
    by (vm_compute; discriminate).
  split; [exact H|].
  apply (parse_btw_rejects_missing_signature zero_junks 3 sample_pngs H).
Defined.

Lemma parse_image_length_little_endian_witness :
  exists l',
    parse_image zero_junk 0
      (mklocals (mkFILE sample_btw 30) (set_prefix_end blobs_init 30) 30
                (uninit zero_junk 4) 0) = Some (inr l') /\
    elt (png_start (l_b l')) 0 = 30 + 4 /\
    elt (png_end (l_b l')) 0 =
      30 + 4 + (byte_val x04 + 2 ^ 8 * byte_val x00 + 2 ^ 16 * byte_val x00
                + 2 ^ 24 * byte_val x00).
Proof.
  apply (proj2 (proj2 (proj2 parse_image_length_little_endian)) zero_junk 0%nat
           (mklocals (mkFILE sample_btw 30) (set_prefix_end blobs_init 30) 30
                     (uninit zero_junk 4) 0) x04 x00 x00 x00);
    [cbn; lia | vm_compute; reflexivity].
Defined.

Lemma parse_btw_second_run_fails_witness :
  0 < 3 /\
  barmaid_parse_btw zero_junks 3 (fopen sample_btw) =
    Some (mkblobs true 30 (34, 42) (38, 46) true 48 50, mkFILE sample_btw 48) /\
  barmaid_parse_btw zero_junks 3 (mkFILE sample_btw 48) =
    Some (blobs_init, mkFILE sample_btw 50).
Proof.
  assert (H : 0 < 3) by lia.
  split; [exact H|].
  apply (parse_btw_second_run_fails zero_junks zero_junks 3 H).
Defined.

Lemma heuristic_png_layout_witness :
  barmaid_heuristic_png zero_junks (fopen sample_pngs) =
    Some (mkblobs true (-1) (1, 32) (30, 60) false (-1) (-1), mkFILE sample_pngs 48) /\
  0 <= 1 /\ 1 < 30 /\ 30 <= 32 /\ 32 < 60 /\
  (exists f, barmaid_find_seq (zero_junks 1%nat) (fopen sample_pngs) 1
               barmaid_end_mseq_png
             = Some (30 - sizeof barmaid_end_mseq_png, f)) /\
  (exists f, barmaid_find_seq (zero_junks 3%nat) (fopen sample_pngs) 32
               barmaid_end_mseq_png
             = Some (60 - sizeof barmaid_end_mseq_png, f)) /\
  -1 = -1 /\ -1 = -1 /\ -1 = -1 /\ false = false.
Proof.
  split; [vm_compute; reflexivity|].
  apply (heuristic_png_layout zero_junks (fopen sample_pngs)
           (mkblobs true (-1) (1, 32) (30, 60) false (-1) (-1))
           (mkFILE sample_pngs 48));
    [vm_compute; discriminate | vm_compute; reflexivity | reflexivity].
Defined.

Lemma find_seq_misses_straddling_pattern_witness :
  (fun _ : Z => x01) 8224 <> x00 /\
  option_map fst
    (barmaid_find_seq (fun _ => x01) (fopen straddling_stream) 0
       barmaid_end_mseq_png) = Some (-1).
Proof.
  assert (H : (fun _ : Z => x01) 8224 <> x00) by discriminate.
  split; [exact H|].
  apply (find_seq_misses_straddling_pattern (fun _ => x01) H).
Defined.

Lemma dump_file_copies_range_witness :
  barmaid_dump_file (fopen thirty_bytes) 10 20 (fopen []) =
    Some (true, mkFILE thirty_bytes 20, mkFILE (repeat x02 10) 10) /\
  exists infile',
    barmaid_dump_file (fopen thirty_bytes) 10 40 (fopen []) =
    Some (false, infile', mkFILE [] 0).
Proof.
  assert (Hlong : 40 <= LONG_MAX) by (vm_compute; discriminate).
  split.
  - apply (proj1 (dump_file_copies_range (fopen thirty_bytes) (fopen []) 10 20
                    ltac:(vm_compute; discriminate)));
      [lia | vm_compute; discriminate].
  - apply (proj2 (dump_file_copies_range (fopen thirty_bytes) (fopen []) 10 40
                    Hlong)); [lia|].
    exists 30. split; [lia | vm_compute; discriminate].
Defined.

(** ** The further theorems at sample files *)

Lemma find_seq_result_in_file_witness :
  0 <= 1 /\ Zlength sample_pngs <= INT_MAX /\
  exists r fil',
    barmaid_find_seq zero_junk (fopen sample_pngs) 1 barmaid_end_mseq_png
      = Some (r, fil') /\
    f_data fil' = sample_pngs /\
    ((r = -1 /\ f_pos fil' = Z.max 1 (Zlength sample_pngs)) \/
     (1 <= r < Zlength sample_pngs /\ f_pos fil' = r)).
Proof.
  assert (H1 : 0 <= 1) by lia.
  assert (H2 : Zlength (f_data (fopen sample_pngs)) <= INT_MAX)
    by (vm_compute; discriminate).
  split; [exact H1|]. split; [exact H2|].
  exact (find_seq_result_in_file zero_junk (fopen sample_pngs) 1
           barmaid_end_mseq_png H1 H2).
Defined.

Lemma first_at_check (data seq : list byte) (lo p : Z) :
  0 <= lo ->
  first_occurrence seq (drop lo data) = Some (p - lo) ->
  first_at data seq lo p.
Proof.
  intros Hlo H. apply first_occurrence_some in H. destruct H as [Hk [Hat Hmin]].
  assert (Hs : forall q, 0 <= q -> slice (drop lo data) q (Zlength seq) =
                                   slice data (lo + q) (Zlength seq)).
  { intros q Hq. unfold slice. rewrite drop_drop by lia. do 2 f_equal. lia. }
  unfold first_at. split; [lia|]. split.
  - rewrite Hs in Hat by lia. replace (lo + (p - lo)) with p in Hat by lia.
    exact Hat.
  - intros q Hq Hc. apply (Hmin (q - lo)); [lia|].
    rewrite Hs by lia. replace (lo + (q - lo)) with q by lia. exact Hc.
Qed.

Lemma find_seq_finds_pattern_in_first_chunk_witness :
  barmaid_find_seq zero_junk (fopen sample_pngs) 0 barmaid_start_mseq_png =
  Some (1, mkFILE sample_pngs 1).
Proof.
  destruct (first_at_check sample_pngs barmaid_start_mseq_png 0 1 ltac:(lia)
              ltac:(vm_compute; reflexivity)) as [_ [Hat Hbefore]].
  apply (find_seq_finds_pattern_in_first_chunk zero_junk (fopen sample_pngs) 0
           barmaid_start_mseq_png 1);
    [discriminate | lia | vm_compute; discriminate | exact Hat | exact Hbefore].
Defined.

Lemma find_seq_negative_offset_scans_from_cursor_witness :
  barmaid_find_seq zero_junk (fopen sample_pngs) (-5) barmaid_start_mseq_png =
  Some (-5 + (1 - 0),
        mkFILE sample_pngs (if -5 + (1 - 0) <? 0
                            then Z.min (Zlength sample_pngs) (0 + BUFF_SIZ)
                            else -5 + (1 - 0))).
Proof.
  destruct (first_at_check sample_pngs barmaid_start_mseq_png 0 1 ltac:(lia)
              ltac:(vm_compute; reflexivity)) as [_ [Hat Hbefore]].
  apply (find_seq_negative_offset_scans_from_cursor zero_junk (fopen sample_pngs)
           (-5) barmaid_start_mseq_png 1);
    [lia | discriminate | cbn; lia | vm_compute; discriminate | exact Hat
    | exact Hbefore].
Defined.

Lemma find_seq_offset_inside_chunk_is_occurrence_witness :
  slice sample_pngs 18 (Zlength barmaid_end_mseq_png) = barmaid_end_mseq_png.
Proof.
  apply (find_seq_offset_inside_chunk_is_occurrence zero_junk (fopen sample_pngs) 1
           barmaid_end_mseq_png 18 (mkFILE sample_pngs 18));
    [lia | vm_compute; discriminate | vm_compute; discriminate
    | vm_compute; reflexivity | lia | vm_compute; reflexivity
    | vm_compute; discriminate].
Defined.

Lemma find_seq_reports_pattern_inside_chunk_witness :
  exists r fil',
    barmaid_find_seq zero_junk (fopen sample_pngs) 0 barmaid_end_mseq_png
      = Some (r, fil') /\ 0 <= r <= 18.
Proof.
  apply (find_seq_reports_pattern_inside_chunk zero_junk (fopen sample_pngs) 0
           barmaid_end_mseq_png 18);
    [lia | vm_compute; discriminate | discriminate | vm_compute; reflexivity
    | vm_compute; discriminate].
Defined.

Lemma skip_padding_skips_zero_words_witness :
  barmaid_skip_padding zero_junk (fopen padded_btw) 44 =
    Some (52, mkFILE padded_btw 52) /\
  exists r fil',
    barmaid_skip_padding zero_junk (fopen padded_btw) 44 = Some (r, fil') /\
    f_data fil' = padded_btw /\
    ((r = -1 /\ zero_bytes (slice padded_btw 44 (Zlength padded_btw - 44)) /\
      f_pos fil' = Z.max 44 (Zlength padded_btw)) \/
     (44 <= r < Zlength padded_btw /\ (r - 44) mod 4 = 0 /\
      zero_bytes (slice padded_btw 44 (r - 44)) /\ f_pos fil' = r /\
      (r + 4 <= Zlength padded_btw -> ~ zero_bytes (slice padded_btw r 4)))).
Proof.
  split; [vm_compute; reflexivity|].
  apply (skip_padding_skips_zero_words zero_junk (fopen padded_btw) 44). lia.
Defined.

Lemma is_btw_compares_signature_witness :
  (0 + sizeof barmaid_btw_mseq_sof <= Zlength sample_btw ->
   (fst (barmaid_is_btw zero_junk (fopen sample_btw)) = true <->
    slice sample_btw 0 (sizeof barmaid_btw_mseq_sof) = barmaid_btw_mseq_sof) /\
   snd (barmaid_is_btw zero_junk (fopen sample_btw)) =
     mkFILE sample_btw (0 + sizeof barmaid_btw_mseq_sof)) /\
  (Zlength sample_btw <= 0 ->
   barmaid_is_btw zero_junk (fopen sample_btw) = (false, fopen sample_btw)).
Proof.
  apply (is_btw_compares_signature zero_junk (fopen sample_btw)). cbn. lia.
Defined.

Lemma sample_btw_parse :
  barmaid_parse_btw zero_junks 3 (fopen sample_btw) =
  Some (sample_layout, mkFILE sample_btw 48).
Proof. vm_compute. reflexivity. Qed.

Lemma parse_btw_images_follow_their_lengths_witness :
  34 = 30 + 4 /\
  forall i, (i < 2)%nat ->
    let s := elt (34, 42) i in
    4 <= s /\
    Zlength (slice sample_btw (s - 4) 4) = 4 /\
    elt (38, 46) i = s + le32 (slice sample_btw (s - 4) 4) /\
    s < elt (38, 46) i.
Proof.
  apply (parse_btw_images_follow_their_lengths zero_junks 3 (fopen sample_btw)
           sample_layout (mkFILE sample_btw 48) sample_btw_parse eq_refl).
Defined.

Lemma padded_btw_parse :
  barmaid_parse_btw zero_junks 3 (fopen padded_btw) =
  Some (padded_layout, mkFILE padded_btw 64).
Proof. vm_compute. reflexivity. Qed.

Lemma parse_btw_skips_only_zero_words_witness :
  (exists found f,
     barmaid_find_seq (zero_junks 1%nat) (fopen padded_btw)
       (sizeof barmaid_btw_mseq_sof) barmaid_btw_end_of_meta = Some (found, f) /\
     0 <= found /\
     padding padded_btw (found + sizeof barmaid_btw_end_of_meta) 36) /\
  padding padded_btw 44 (56 - 4) /\
  padding padded_btw 58 (64 - sizeof barmaid_btw_zlib).
Proof.
  apply (parse_btw_skips_only_zero_words zero_junks 3 (fopen padded_btw)
           padded_layout (mkFILE padded_btw 64) padded_btw_parse eq_refl).
Defined.

Ltac padding_here :=
  split; [vm_compute; discriminate|];
  split; [vm_compute; reflexivity|]; vm_compute; repeat constructor.

Ltac word_here :=
  split; [vm_compute; discriminate|];
  let H := fresh in
  intros H; vm_compute in H;
  repeat match goal with
         | H' : Forall _ (_ :: _) |- _ => inversion H'; clear H'
         end;
  discriminate.

Lemma padded_btw_shape : btw_shape padded_btw 28 36 52 62.
Proof.
  apply Build_btw_shape.
  - lia.
  - padding_here.
  - word_here.
  - padding_here.
  - word_here.
  - padding_here.
  - vm_compute. discriminate.
Qed.

Lemma parse_btw_accepts_well_formed_file_witness :
  0 < 3 /\
  btw_layout padded_btw 36 52 62 = padded_layout /\
  barmaid_parse_btw zero_junks 3 (fopen padded_btw) =
  Some (btw_layout padded_btw 36 52 62, mkFILE padded_btw (62 + 2)).
Proof.
  assert (H : 0 < 3) by lia.
  split; [exact H|]. split; [vm_compute; reflexivity|].
  apply (parse_btw_accepts_well_formed_file zero_junks 3 padded_btw 28
           (mkFILE padded_btw 28) 36 52 62 H);
    [vm_compute; reflexivity | vm_compute; reflexivity | exact padded_btw_shape
    | word_here].
Defined.

Lemma parse_btw_ranges_can_be_extracted_witness :
  Zlength (slice sample_btw 34 (38 - 34)) = 38 - 34 /\
  barmaid_dump_file (mkFILE sample_btw 48) 34 38 (fopen []) =
  Some (true, mkFILE sample_btw 38,
        mkFILE (slice sample_btw 34 (38 - 34) ++ drop (38 - 34) []) (38 - 34)).
Proof.
  apply (parse_btw_ranges_can_be_extracted zero_junks 3 (fopen sample_btw)
           sample_layout (mkFILE sample_btw 48) (fopen []) 34 38);
    [vm_compute; discriminate | exact sample_btw_parse | reflexivity
    | right; left; reflexivity].
Defined.

Lemma heuristic_png_finds_first_two_images_witness :
  barmaid_heuristic_png zero_junks (fopen sample_pngs) =
  Some (mkblobs true (-1) (1, 32)
          (18 + sizeof barmaid_end_mseq_png, 48 + sizeof barmaid_end_mseq_png)
          false (-1) (-1),
        mkFILE sample_pngs 48).
Proof.
  apply (heuristic_png_finds_first_two_images zero_junks sample_pngs 1 18 32 48);
    [vm_compute; discriminate | | | |];
    (apply first_at_check; [vm_compute; discriminate | vm_compute; reflexivity]).
Defined.

Lemma dump_file_rejects_reversed_range_witness :
  exists infile',
    barmaid_dump_file (fopen thirty_bytes) 20 10 (fopen []) =
    Some (false, infile',
          mkFILE (slice thirty_bytes 20
                    (BUFF_SIZ * (Z.max 0 (Zlength thirty_bytes - 20) / BUFF_SIZ))
                  ++ drop (BUFF_SIZ * (Z.max 0 (Zlength thirty_bytes - 20) / BUFF_SIZ))
                       [])
                 (BUFF_SIZ * (Z.max 0 (Zlength thirty_bytes - 20) / BUFF_SIZ))).
Proof.
  apply (dump_file_rejects_reversed_range (fopen thirty_bytes) (fopen []) 20 10);
    [lia | vm_compute; discriminate | vm_compute; discriminate].
Defined.

Lemma dump_file_negative_start_copies_from_cursor_witness :
  barmaid_dump_file (mkFILE thirty_bytes 5) (-1) 9 (fopen []) =
  Some (true, mkFILE thirty_bytes (5 + (9 - -1)),
        mkFILE (slice thirty_bytes 5 (9 - -1) ++ drop (9 - -1) []) (9 - -1)).
Proof.
  apply (dump_file_negative_start_copies_from_cursor (mkFILE thirty_bytes 5)
           (fopen []) (-1) 9);
    [lia | lia | cbn; lia | vm_compute; discriminate | vm_compute; discriminate].
Defined.

(** ** The tool on sample command lines *)

Lemma main_refuses_build_mode_witness :
  main idle_inf zero_junks (sample_env sample_btw) sample_argv
    [("e"%char, ""%string); ("b"%char, ""%string)] 2 =
  Some (mkresult 1 [msg_not_implemented] None).
Proof.
  apply main_refuses_build_mode. right. left. reflexivity.
Defined.

Lemma main_prints_help_witness :
  main idle_inf zero_junks (sample_env sample_btw) sample_argv
    [("e"%char, ""%string); ("h"%char, ""%string)] 2 =
  Some (mkresult 0 [msg_help] None).
Proof.
  apply main_prints_help.
  - intros [H|[H|[]]]; discriminate H.
  - left. right. left. reflexivity.
Defined.

Lemma main_extract_run :
  main idle_inf zero_junks (sample_env sample_btw) sample_argv
    [("e"%char, ""%string)] 2 =
  Some (mkresult 0 [] (Some (mkhandles (mkFILE sample_btw 48) (None, None) None None))).
Proof. vm_compute. reflexivity. Qed.

Lemma main_opens_files_only_to_extract_witness :
  In "e"%char (map fst [("e"%char, ""%string)]) /\
  ~ In "b"%char (map fst [("e"%char, ""%string)]) /\
  ~ In "h"%char (map fst [("e"%char, ""%string)]) /\
  2 + 1 = Zlength sample_argv /\
  fs_read (sample_env sample_btw) (nth (Z.to_nat 2) sample_argv String.EmptyString)
    <> None.
Proof.
  apply (main_opens_files_only_to_extract idle_inf zero_junks (sample_env sample_btw)
           sample_argv [("e"%char, ""%string)] 2 _ main_extract_run).
  discriminate.
Defined.

Lemma main_opens_no_output_for_rejected_file_witness :
  exists err,
    main idle_inf zero_junks (sample_env sample_pngs) sample_argv
      [("e"%char, ""%string); ("i"%char, "image"%string)] 2 =
    Some (mkresult 1 err
            (Some (mkhandles (mkFILE sample_pngs 26) (None, None) None None))).
Proof.
  apply (main_opens_no_output_for_rejected_file idle_inf zero_junks
           (sample_env sample_pngs) sample_argv
           [("e"%char, ""%string); ("i"%char, "image"%string)] 2
           (mkoptions 0 true false false false (Some "image"%string, None) None None)
           sample_pngs blobs_init (mkFILE sample_pngs 26));
    [reflexivity | reflexivity | reflexivity | lia | reflexivity | reflexivity
    | vm_compute; reflexivity | reflexivity].
Defined.

Lemma main_heuristic_run :
  main idle_inf zero_junks (sample_env sample_pngs) sample_argv
    [("e"%char, ""%string); ("s"%char, ""%string); ("p"%char, "prefix"%string);
     ("c"%char, "container"%string)] 2 =
  Some (mkresult 0 []
          (Some (mkhandles (mkFILE sample_pngs 48) (None, None) None None))).
Proof. vm_compute. reflexivity. Qed.

Lemma main_heuristic_mode_opens_no_prefix_or_container_witness :
  prefix (mkhandles (mkFILE sample_pngs 48) (None, None) None None) = None /\
  container (mkhandles (mkFILE sample_pngs 48) (None, None) None None) = None.
Proof.
  apply (main_heuristic_mode_opens_no_prefix_or_container idle_inf zero_junks
           (sample_env sample_pngs) sample_argv
           [("e"%char, ""%string); ("s"%char, ""%string); ("p"%char, "prefix"%string);
            ("c"%char, "container"%string)] 2 _ _
           ltac:(right; left; reflexivity) main_heuristic_run eq_refl).
Defined.


